(** * Brain: the ingestion core of [app.py]

    A shallow embedding of the archive extractor, the asset classifier and
    registrar, the conversation normalizer, the asset linker, the
    categorizer, the ingestion orchestrator and the manual category
    operations of [app.py], followed by the properties proved about them.

    Conventions of the embedding:
    - Python [str] is [string]; [lower], [strip] and the character class
      [[a-z0-9]] are those of ASCII text.
    - Python [float] is [pyfloat]: a rational, an infinity or NaN; the
      rounding of binary64 is not represented.
    - The file system is a finite map from absolute paths (lists of
      components) to nodes.
    - The SQLite database is a record of tables, each a list of rows in
      insertion order.  The [created_at] columns filled from the wall
      clock are left out of the rows.
    - [uuid.uuid4()] draws from a counter.
    - Python exceptions are values of [exn]; a computation is a function
      from the state to a result and the state reached. *)

From Stdlib Require Import QArith Ascii.
From stdpp Require Import base option list sorting gmap strings pretty.

#[local] Set Warnings "-register-all".

(* ------------------------------------------------------------------ *)
(** ** Text *)

Definition in_range (lo hi : N) (c : ascii) : bool :=
  let n := N_of_ascii c in (N.leb lo n && N.leb n hi)%bool.

Definition is_upper (c : ascii) : bool := in_range 65 90 c.

Definition is_slug_char (c : ascii) : bool :=
  (in_range 97 122 c || in_range 48 57 c)%bool.

(** [str.isspace] on ASCII: TAB..CR, FS..US and the space. *)
Definition py_isspace (c : ascii) : bool :=
  (in_range 9 13 c || in_range 28 32 c)%bool.

Definition lower_char (c : ascii) : ascii :=
  if is_upper c then ascii_of_N (N_of_ascii c + 32) else c.

(** [s.lower()] *)
Fixpoint lower (s : string) : string :=
  match s with
  | EmptyString => EmptyString
  | String c s' => String (lower_char c) (lower s')
  end.

Definition str_empty (s : string) : bool :=
  match s with EmptyString => true | _ => false end.

(** [s.lstrip(...)] and [s.rstrip(...)] for a set of characters [p]. *)
Fixpoint lstrip (p : ascii -> bool) (s : string) : string :=
  match s with
  | EmptyString => EmptyString
  | String c s' => if p c then lstrip p s' else s
  end.

Fixpoint rstrip (p : ascii -> bool) (s : string) : string :=
  match s with
  | EmptyString => EmptyString
  | String c s' =>
      let r := rstrip p s' in
      if (p c && str_empty r)%bool then EmptyString else String c r
  end.

Definition strip_chars (p : ascii -> bool) (s : string) : string :=
  rstrip p (lstrip p s).

(** [s.strip()] *)
Definition strip (s : string) : string := strip_chars py_isspace s.

Definition is_dash (c : ascii) : bool := Ascii.eqb c "-"%char.

(** [re.sub(r"[^a-z0-9]+", "-", s)]: every maximal run of characters
    outside [[a-z0-9]] becomes one dash.  [in_run] says that the
    previous character was part of such a run. *)
Fixpoint sub_runs (in_run : bool) (s : string) : string :=
  match s with
  | EmptyString => EmptyString
  | String c s' =>
      if is_slug_char c then String c (sub_runs false s')
      else if in_run then sub_runs true s'
      else String "-"%char (sub_runs true s')
  end.

(** [slugify] *)
Definition slugify (text : string) : string :=
  let s := strip_chars is_dash (sub_runs false (lower text)) in
  if str_empty s then "category" else s.

Fixpoint is_prefix (p s : string) : bool :=
  match p, s with
  | EmptyString, _ => true
  | String _ _, EmptyString => false
  | String a p', String b s' => (Ascii.eqb a b && is_prefix p' s')%bool
  end.

(** [needle in hay] on strings *)
Fixpoint contains (needle hay : string) : bool :=
  (is_prefix needle hay ||
   match hay with
   | EmptyString => false
   | String _ hay' => contains needle hay'
   end)%bool.

(** [sep.join(l)] *)
Fixpoint join (sep : string) (l : list string) : string :=
  match l with
  | [] => ""
  | [x] => x
  | x :: l' => x +:+ sep +:+ join sep l'
  end.

Definition newline : string := String (ascii_of_N 10) EmptyString.

(** [s.split(sep)] for a one-character separator: [cur] holds, reversed,
    the characters of the piece being read. *)
Fixpoint split_on (sep : ascii) (cur : string) (s : string) : list string :=
  match s with
  | EmptyString => [String.rev cur]
  | String c s' =>
      if Ascii.eqb c sep then String.rev cur :: split_on sep "" s'
      else split_on sep (String c cur) s'
  end.

Definition ends_with_slash (s : string) : bool :=
  match String.rev s with
  | String c _ => Ascii.eqb c "/"%char
  | EmptyString => false
  end.

(* ------------------------------------------------------------------ *)
(** ** Exceptions and results *)

Record exn := Exn { exn_class : string; exn_msg : string }.

(** [str(exc)] *)
Definition str_exc (e : exn) : string := exn_msg e.

Inductive result (A : Type) :=
| Ok (a : A)
| Raise (e : exn).
Arguments Ok {A} a.
Arguments Raise {A} e.

Definition ValueError (m : string) : exn := Exn "ValueError" m.
Definition AttributeError (m : string) : exn := Exn "AttributeError" m.
Definition TypeError (m : string) : exn := Exn "TypeError" m.
Definition OverflowError (m : string) : exn := Exn "OverflowError" m.
Definition ProgrammingError (m : string) : exn := Exn "sqlite3.ProgrammingError" m.

(* ------------------------------------------------------------------ *)
(** ** Paths and the file system *)

Abbreviation path := (list string).

Inductive node :=
| FDir
| FFile (content : list Byte.byte).

Abbreviation fs :=
  (@gmap (list string) (@list_eq_dec string String.eq_dec)
         (@list_countable string String.eq_dec String.countable) node).

(** [str(p)] of an absolute path *)
Definition str_path (p : path) : string := "/" +:+ join "/" p.

(** The components pathlib keeps of a POSIX path string: empty pieces
    and [.] are dropped, [..] is kept. *)
Definition keep_component (c : string) : bool :=
  negb (str_empty c || String.eqb c ".")%bool.

Definition path_parts (s : string) : path :=
  filter (fun c => keep_component c = true) (split_on "/"%char "" s).

(** [Path(s).is_absolute()] *)
Definition is_absolute (s : string) : bool := is_prefix "/" s.

(** [p / s] *)
Definition path_join (p : path) (s : string) : path :=
  if is_absolute s then path_parts s else p ++ path_parts s.

(** The root is a directory; every other node is what the map holds. *)
Definition node_at (f : fs) (p : path) : option node :=
  match p with
  | [] => Some FDir
  | _ => f !! p
  end.

Definition is_file (f : fs) (p : path) : bool :=
  match node_at f p with Some (FFile _) => true | _ => false end.

Definition is_dir (f : fs) (p : path) : bool :=
  match node_at f p with Some FDir => true | _ => false end.

Definition parent (p : path) : path := removelast p.

Definition basename (p : path) : string := List.last p "".

Definition os_error (cls : string) (errno : string) (what : string) (p : path) : exn :=
  Exn cls ("[Errno " +:+ errno +:+ "] " +:+ what +:+ ": '" +:+ str_path p +:+ "'").

Definition FileExistsError := os_error "FileExistsError" "17" "File exists".
Definition NotADirectoryError := os_error "NotADirectoryError" "20" "Not a directory".
Definition IsADirectoryError := os_error "IsADirectoryError" "21" "Is a directory".
Definition FileNotFoundError := os_error "FileNotFoundError" "2" "No such file or directory".

(** [p.mkdir(parents=True, exist_ok=True)]: walks down from the root;
    [full] is the whole path, for the error message. *)
Fixpoint mkdir_from (full pre rest : path) (f : fs) : result fs :=
  match rest with
  | [] => Ok f
  | c :: rest' =>
      let p := pre ++ [c] in
      match f !! p with
      | Some FDir => mkdir_from full p rest' f
      | Some (FFile _) =>
          match rest' with
          | [] => Raise (FileExistsError full)
          | _ => Raise (NotADirectoryError full)
          end
      | None => mkdir_from full p rest' (<[p := FDir]> f)
      end
  end.

Definition mkdir_p (p : path) (f : fs) : result fs := mkdir_from p [] p f.

(** [open(p, "wb")] followed by writing [b] *)
Definition write_file (p : path) (b : list Byte.byte) (f : fs) : result fs :=
  match node_at f p with
  | Some FDir => Raise (IsADirectoryError p)
  | _ =>
      match node_at f (parent p) with
      | Some FDir => Ok (<[p := FFile b]> f)
      | Some (FFile _) => Raise (NotADirectoryError p)
      | None => Raise (FileNotFoundError p)
      end
  end.

(** [p.read_bytes()] *)
Definition read_bytes (p : path) (f : fs) : result (list Byte.byte) :=
  match node_at f p with
  | Some (FFile b) => Ok b
  | Some FDir => Raise (IsADirectoryError p)
  | None => Raise (FileNotFoundError p)
  end.

(** [shutil.copy2(src, dst)]: a destination that is a directory receives
    the file under the source's base name. *)
Definition copy2 (src dst : path) (f : fs) : result fs :=
  match read_bytes src f with
  | Raise e => Raise e
  | Ok b =>
      let dst' := if is_dir f dst then dst ++ [basename src] else dst in
      write_file dst' b f
  end.

(** [p.relative_to(base)] *)
Definition relative_to (p base : path) : result path :=
  if bool_decide (base `prefix_of` p) then Ok (drop (length base) p)
  else Raise (ValueError ("'" +:+ str_path p +:+ "' is not in the subpath of '" +:+
                          str_path base +:+ "'")).

(** The paths strictly below [root], as [rglob("*")] yields them.  The
    order is that of the map; the source's is the operating system's. *)
Definition rglob (root : path) (f : fs) : list path :=
  filter (fun p => root `prefix_of` p /\ p <> root) (fst <$> map_to_list f).

(** [shutil.rmtree] of a temporary directory *)
Definition rmtree (root : path) (f : fs) : fs :=
  filter (fun kv => ~ (root `prefix_of` fst kv)) f.

(* ------------------------------------------------------------------ *)
(** ** safe_extract *)

(** An archive member: [ZipInfo.filename] and what [zf.open(member)]
    gives, the content or the exception it raises. *)
Record zip_member := ZipMember {
  zm_filename : string;
  zm_data : result (list Byte.byte)
}.

(** [member_path.is_absolute() or ".." in member_path.parts] *)
Definition escapes (filename : string) : bool :=
  (is_absolute filename ||
   bool_decide (".." ∈ path_parts filename))%bool.

(** The body of the [for member] loop: the exception raised, if any,
    and the file system reached; the directories made for a member stay
    when writing it raises. *)
Definition extract_member (extract_to : path) (m : zip_member) (f : fs) : option exn * fs :=
  if escapes (zm_filename m) then (None, f)
  else
    let target := path_join extract_to (zm_filename m) in
    match mkdir_p (parent target) f with
    | Raise e => (Some e, f)
    | Ok f1 =>
        if ends_with_slash (zm_filename m) then
          match mkdir_p target f1 with
          | Ok f2 => (None, f2)
          | Raise e => (Some e, f1)
          end
        else
          match zm_data m with
          | Raise e => (Some e, f1)
          | Ok b =>
              match write_file target b f1 with
              | Ok f2 => (None, f2)
              | Raise e => (Some e, f1)
              end
          end
    end.

(** The loop: it ends at the first member that raises. *)
Fixpoint extract_members (extract_to : path) (ms : list zip_member) (f : fs)
  : option exn * fs :=
  match ms with
  | [] => (None, f)
  | m :: ms' =>
      match extract_member extract_to m f with
      | (Some e, f') => (Some e, f')
      | (None, f') => extract_members extract_to ms' f'
      end
  end.

(* ------------------------------------------------------------------ *)
(** ** Python values read from the manifest *)

Inductive pyfloat :=
| Fin (q : Q)
| PInf
| NInf
| NaN.

(** [a < b] on floats: false as soon as one side is NaN. *)
Definition flt (a b : pyfloat) : bool :=
  match a, b with
  | NaN, _ | _, NaN => false
  | _, NInf => false
  | NInf, _ => true
  | PInf, _ => false
  | Fin _, PInf => true
  | Fin p, Fin q => match Qcompare p q with Lt => true | _ => false end
  end.

(** What [json.load] builds: a [dict] is the list of its items in
    insertion order. *)
Inductive json :=
| JNull
| JBool (b : bool)
| JInt (z : Z)
| JFloat (f : pyfloat)
| JStr (s : string)
| JArr (l : list json)
| JObj (items : list (string * json)).

Definition type_name (v : json) : string :=
  match v with
  | JNull => "NoneType"
  | JBool _ => "bool"
  | JInt _ => "int"
  | JFloat _ => "float"
  | JStr _ => "str"
  | JArr _ => "list"
  | JObj _ => "dict"
  end.

Definition float_is_zero (f : pyfloat) : bool :=
  match f with
  | Fin q => match Qcompare q 0 with Eq => true | _ => false end
  | _ => false
  end.

(** [bool(v)] *)
Definition truthy (v : json) : bool :=
  match v with
  | JNull => false
  | JBool b => b
  | JInt z => negb (Z.eqb z 0)
  | JFloat f => negb (float_is_zero f)
  | JStr s => negb (str_empty s)
  | JArr l => match l with [] => false | _ => true end
  | JObj l => match l with [] => false | _ => true end
  end.

(** [v or d] *)
Definition py_or (v d : json) : json := if truthy v then v else d.

Fixpoint assoc {V : Type} (k : string) (l : list (string * V)) : option V :=
  match l with
  | [] => None
  | (k', v) :: l' => if String.eqb k k' then Some v else assoc k l'
  end.

Definition no_attribute (v : json) (attr : string) : exn :=
  AttributeError ("'" +:+ type_name v +:+ "' object has no attribute '" +:+ attr +:+ "'").

(** [v.get(k)] *)
Definition py_get (v : json) (k : string) : result json :=
  match v with
  | JObj items => Ok (default JNull (assoc k items))
  | _ => Raise (no_attribute v "get")
  end.

(** [v.values()] *)
Definition py_values (v : json) : result (list json) :=
  match v with
  | JObj items => Ok (snd <$> items)
  | _ => Raise (no_attribute v "values")
  end.

Fixpoint chars (s : string) : list string :=
  match s with
  | EmptyString => []
  | String c s' => String c EmptyString :: chars s'
  end.

(** [for p in v] *)
Definition py_iter (v : json) : result (list json) :=
  match v with
  | JArr l => Ok l
  | JStr s => Ok (JStr <$> chars s)
  | JObj items => Ok ((fun kv => JStr (fst kv)) <$> items)
  | _ => Raise (TypeError ("'" +:+ type_name v +:+ "' object is not iterable"))
  end.

Definition is_null (v : json) : bool :=
  match v with JNull => true | _ => false end.

(** The deployment and the library functions the embedding does not
    look into. *)
Class Env := {
  (** the directory of [app.py] *)
  BASE_DIR : path;
  (** [tempfile.gettempdir()] *)
  TMP_DIR : path;
  (** [hashlib.sha256(b).hexdigest()] *)
  sha256_hexdigest : list Byte.byte -> string;
  (** what [zipfile.ZipFile] reads from the bytes of an archive *)
  zipfile_open : list Byte.byte -> result (list zip_member);
  (** [json.load] of a file opened as UTF-8 text *)
  json_load : list Byte.byte -> result json;
  (** [json.dumps] *)
  json_dumps : json -> string;
  (** [float(s)] for a string, [None] when it raises *)
  float_of_str : string -> option pyfloat;
  (** [str(v)] for a value that is not a string *)
  str_of : json -> string;
  (** [datetime.utcfromtimestamp(f).isoformat()], [None] when it raises *)
  utc_isoformat : pyfloat -> option string
}.

Section WithEnv.
Context {env : Env}.

Definition STORAGE_DIR : path := BASE_DIR ++ ["storage"].

(** [float(v)], [None] when it raises.  An integer converts exactly. *)
Definition py_float (v : json) : option pyfloat :=
  match v with
  | JNull => None
  | JBool b => Some (Fin (if b then 1 else 0))
  | JInt z => Some (Fin (inject_Z z))
  | JFloat f => Some f
  | JStr s => float_of_str s
  | JArr _ | JObj _ => None
  end.

(** [str(p)] *)
Definition py_str (v : json) : string :=
  match v with
  | JStr s => s
  | _ => str_of v
  end.

(** [parse_iso_or_none] *)
Definition parse_iso_or_none (ts : json) : option string :=
  match ts with
  | JNull => None
  | _ =>
      match py_float ts with
      | Some f => utc_isoformat f
      | None => None
      end
  end.

(** [sort_key]: the [get] is outside the [try]. *)
Definition sort_key (msg : json) : result pyfloat :=
  match py_get msg "create_time" with
  | Raise e => Raise e
  | Ok ct =>
      Ok (match ct with
          | JNull => PInf
          | _ => match py_float ct with
                 | Some f => f
                 | None => PInf
                 end
          end)
  end.

(** [sorted(l, key=...)] once the keys are computed: a stable sort that
    compares keys with [<] only. *)
Fixpoint insert_by_key {A : Type} (x : pyfloat * A) (l : list (pyfloat * A))
  : list (pyfloat * A) :=
  match l with
  | [] => [x]
  | y :: l' => if flt (fst y) (fst x) then y :: insert_by_key x l' else x :: y :: l'
  end.

Fixpoint sort_keyed {A : Type} (l : list (pyfloat * A)) : list (pyfloat * A) :=
  match l with
  | [] => []
  | x :: l' => insert_by_key x (sort_keyed l')
  end.

(** The keys of all elements are computed first, in order; the first
    one that raises ends the call. *)
Fixpoint with_keys (l : list json) : result (list (pyfloat * json)) :=
  match l with
  | [] => Ok []
  | m :: l' =>
      match sort_key m with
      | Raise e => Raise e
      | Ok k =>
          match with_keys l' with
          | Raise e => Raise e
          | Ok kl => Ok ((k, m) :: kl)
          end
      end
  end.

(** [sorted(nodes, key=sort_key)] *)
Definition sorted_nodes (nodes : list json) : result (list json) :=
  match with_keys nodes with
  | Raise e => Raise e
  | Ok kl => Ok (snd <$> sort_keyed kl)
  end.

(** Lines 258-263: the non-empty [message] payloads of the mapping, in
    the order of [mapping.values()]. *)
Fixpoint collect_messages (values : list json) : result (list json) :=
  match values with
  | [] => Ok []
  | nd :: values' =>
      match py_get (py_or nd (JObj [])) "message" with
      | Raise e => Raise e
      | Ok message =>
          match collect_messages values' with
          | Raise e => Raise e
          | Ok rest => Ok (if truthy message then message :: rest else rest)
          end
      end
  end.

(* ------------------------------------------------------------------ *)
(** ** The database *)

(** A value bound to a statement parameter. *)
Inductive sqlval :=
| SNull
| SInt (z : Z)
| SReal (f : pyfloat)
| SText (s : string).

Record export_row := ExportRow {
  ex_id : string;
  ex_name : string;
  ex_status : string;
  ex_source_zip_path : string;
  ex_error_message : option string
}.

Record conversation_row := ConversationRow {
  cv_id : string;
  cv_export_id : string;
  cv_external_id : sqlval;
  cv_title : sqlval;
  cv_conversation_date : option string;
  cv_raw_json : string
}.

Record message_row := MessageRow {
  ms_id : string;
  ms_export_id : string;
  ms_conversation_id : string;
  ms_role : sqlval;
  ms_content_text : string;
  ms_created_at : option string
}.

Record asset_row := AssetRow {
  as_id : string;
  as_export_id : string;
  as_conversation_id : option string;
  as_message_id : option string;
  as_asset_type : string;
  as_original_name : string;
  as_storage_path : string;
  as_byte_size : nat;
  as_checksum_sha256 : string
}.

Record category_row := CategoryRow {
  cat_id : string;
  cat_export_id : string;
  cat_name : string;
  cat_slug : string;
  cat_is_system : Z
}.

(** A row of [conversation_categories]. *)
Record edge_row := EdgeRow {
  cc_conversation_id : string;
  cc_category_id : string;
  cc_source : string;
  cc_confidence : option Q
}.

Record database := Database {
  exports : list export_row;
  conversations : list conversation_row;
  messages : list message_row;
  assets : list asset_row;
  categories : list category_row;
  conversation_categories : list edge_row
}.

Definition empty_db : database := Database [] [] [] [] [] [].

(** The state a request runs in: the database on disk, the view of the
    open connection (with its uncommitted changes), the file system and
    the next identifier [uuid4] draws. *)
Record state := State {
  committed : database;
  conn : database;
  files : fs;
  next_uuid : nat
}.

Definition M (A : Type) : Type := state -> result A * state.

Definition ret {A} (a : A) : M A := fun st => (Ok a, st).

Definition raise {A} (e : exn) : M A := fun st => (Raise e, st).

Definition bind {A B} (c : M A) (k : A -> M B) : M B :=
  fun st =>
    match c st with
    | (Ok a, st') => k a st'
    | (Raise e, st') => (Raise e, st')
    end.

Notation "'let*' x ':=' c 'in' k" := (bind c (fun x => k))
  (at level 10, x name, c at level 100, k at level 200).
Notation "c ';;' k" := (bind c (fun _ => k))
  (at level 100, k at level 200, right associativity).

(** A value or exception computed without the state. *)
Definition lift {A} (r : result A) : M A := fun st => (r, st).

(** [try: c  except Exception as exc: h exc] *)
Definition try_except {A} (c : M A) (h : exn -> M A) : M A :=
  fun st =>
    match c st with
    | (Ok a, st') => (Ok a, st')
    | (Raise e, st') => h e st'
    end.

(** [try: c  finally: f] *)
Definition try_finally {A} (c : M A) (f : M unit) : M A :=
  fun st =>
    match c st with
    | (r, st') =>
        match f st' with
        | (Ok _, st'') => (r, st'')
        | (Raise e, st'') => (Raise e, st'')
        end
    end.

(** [for x in l: body x] *)
Fixpoint for_each {A} (l : list A) (body : A -> M unit) : M unit :=
  match l with
  | [] => ret tt
  | x :: l' => body x;; for_each l' body
  end.

(** [get_conn]: the connection starts from what is on disk.  It issues
    no [PRAGMA foreign_keys], so SQLite does not enforce the foreign
    keys the schema declares. *)
Definition get_conn : M unit :=
  fun st => (Ok tt, State (committed st) (committed st) (files st) (next_uuid st)).

(** [conn.commit()] *)
Definition commit : M unit :=
  fun st => (Ok tt, State (conn st) (conn st) (files st) (next_uuid st)).

(** [conn.close()]: what was not committed is lost. *)
Definition close : M unit :=
  fun st => (Ok tt, State (committed st) (committed st) (files st) (next_uuid st)).

(** A statement that changes the connection's view. *)
Definition execute (g : database -> database) : M unit :=
  fun st => (Ok tt, State (committed st) (g (conn st)) (files st) (next_uuid st)).

(** A query on the connection's view. *)
Definition query {A} (g : database -> A) : M A :=
  fun st => (Ok (g (conn st)), st).

(** A file-system operation. *)
Definition on_files (g : fs -> result fs) : M unit :=
  fun st =>
    match g (files st) with
    | Ok f' => (Ok tt, State (committed st) (conn st) f' (next_uuid st))
    | Raise e => (Raise e, st)
    end.

Definition read_files {A} (g : fs -> A) : M A :=
  fun st => (Ok (g (files st)), st).

Definition uuid_str (n : nat) : string := "uuid-" +:+ pretty n.

(** [str(uuid.uuid4())] *)
Definition uuid4 : M string :=
  fun st => (Ok (uuid_str (next_uuid st)),
             State (committed st) (conn st) (files st) (S (next_uuid st))).

(** *** Statements *)

Definition with_exports (f : list export_row -> list export_row) (d : database) :=
  Database (f (exports d)) (conversations d) (messages d) (assets d)
           (categories d) (conversation_categories d).
Definition with_conversations (f : list conversation_row -> list conversation_row) (d : database) :=
  Database (exports d) (f (conversations d)) (messages d) (assets d)
           (categories d) (conversation_categories d).
Definition with_messages (f : list message_row -> list message_row) (d : database) :=
  Database (exports d) (conversations d) (f (messages d)) (assets d)
           (categories d) (conversation_categories d).
Definition with_assets (f : list asset_row -> list asset_row) (d : database) :=
  Database (exports d) (conversations d) (messages d) (f (assets d))
           (categories d) (conversation_categories d).
Definition with_categories (f : list category_row -> list category_row) (d : database) :=
  Database (exports d) (conversations d) (messages d) (assets d)
           (f (categories d)) (conversation_categories d).
Definition with_edges (f : list edge_row -> list edge_row) (d : database) :=
  Database (exports d) (conversations d) (messages d) (assets d)
           (categories d) (f (conversation_categories d)).

(** [UPDATE exports SET status = ? WHERE id = ?] *)
Definition update_export_status (status export_id : string) : database -> database :=
  with_exports (fmap (fun r =>
    if String.eqb (ex_id r) export_id
    then ExportRow (ex_id r) (ex_name r) status (ex_source_zip_path r) (ex_error_message r)
    else r)).

(** [UPDATE exports SET status = ?, error_message = ? WHERE id = ?] *)
Definition update_export_outcome (status : string) (error_message : option string)
    (export_id : string) : database -> database :=
  with_exports (fmap (fun r =>
    if String.eqb (ex_id r) export_id
    then ExportRow (ex_id r) (ex_name r) status (ex_source_zip_path r) error_message
    else r)).

Definition insert_conversation (r : conversation_row) : database -> database :=
  with_conversations (fun l => l ++ [r]).

Definition insert_message (r : message_row) : database -> database :=
  with_messages (fun l => l ++ [r]).

Definition insert_asset (r : asset_row) : database -> database :=
  with_assets (fun l => l ++ [r]).

Definition insert_category (r : category_row) : database -> database :=
  with_categories (fun l => l ++ [r]).

Definition coalesce {A} (a : option A) (b : A) : option A :=
  match a with
  | Some x => Some x
  | None => Some b
  end.

(** [UPDATE assets SET conversation_id = COALESCE(conversation_id, ?),
    message_id = COALESCE(message_id, ?) WHERE id = ?] *)
Definition link_asset (conv_id msg_id asset_id : string) : database -> database :=
  with_assets (fmap (fun a =>
    if String.eqb (as_id a) asset_id
    then AssetRow (as_id a) (as_export_id a)
           (coalesce (as_conversation_id a) conv_id)
           (coalesce (as_message_id a) msg_id)
           (as_asset_type a) (as_original_name a) (as_storage_path a)
           (as_byte_size a) (as_checksum_sha256 a)
    else a)).

Definition same_edge_key (conv_id cat : string) (e : edge_row) : bool :=
  (String.eqb (cc_conversation_id e) conv_id && String.eqb (cc_category_id e) cat)%bool.

(** [INSERT OR IGNORE INTO conversation_categories ...]: the primary key
    is (conversation_id, category_id). *)
Definition insert_or_ignore_edge (e : edge_row) : database -> database :=
  with_edges (fun l =>
    if existsb (same_edge_key (cc_conversation_id e) (cc_category_id e)) l
    then l else l ++ [e]).

(** [DELETE FROM conversation_categories WHERE conversation_id = ?] *)
Definition delete_edges (conv_id : string) : database -> database :=
  with_edges (List.filter (fun e => negb (String.eqb (cc_conversation_id e) conv_id))).

(** [SELECT id FROM categories WHERE export_id = ? AND slug = ?], [fetchone] *)
Definition select_category (export_id slug : string) (d : database) : option string :=
  cat_id <$> List.find (fun c =>
    (String.eqb (cat_export_id c) export_id && String.eqb (cat_slug c) slug)%bool)
    (categories d).

(** [SELECT id FROM conversations WHERE id = ? AND export_id = ?], [fetchone] *)
Definition select_conversation (conv_id export_id : string) (d : database) : option string :=
  cv_id <$> List.find (fun c =>
    (String.eqb (cv_id c) conv_id && String.eqb (cv_export_id c) export_id)%bool)
    (conversations d).

(** How sqlite3 binds a value read from the manifest as parameter
    number [idx] of a statement. *)
Definition bind_param (idx : nat) (v : json) : result sqlval :=
  match v with
  | JNull => Ok SNull
  | JBool b => Ok (SInt (if b then 1 else 0))
  | JInt z =>
      if (Z.leb (- 2 ^ 63) z && Z.ltb z (2 ^ 63))%bool then Ok (SInt z)
      else Raise (OverflowError "Python int too large to convert to SQLite INTEGER")
  | JFloat f => Ok (SReal f)
  | JStr s => Ok (SText s)
  | JArr _ | JObj _ =>
      Raise (ProgrammingError ("Error binding parameter " +:+ pretty idx +:+
                               ": type '" +:+ type_name v +:+ "' is not supported"))
  end.

(* ------------------------------------------------------------------ *)
(** ** classify_asset and ensure_category *)

Definition IMAGE_EXTS : list string :=
  [".png"; ".jpg"; ".jpeg"; ".gif"; ".webp"; ".bmp"; ".svg"].
Definition AUDIO_EXTS : list string :=
  [".mp3"; ".wav"; ".m4a"; ".ogg"; ".flac"; ".aac"].
Definition IGNORE_EXTS : list string := [".json"; ".html"; ".md"].

Definition CATEGORY_RULES : list (string * list string) :=
  [("housing court case", ["housing court"; "eviction"; "lease"; "landlord"; "tenant"]);
   ("dog", ["dog"; "puppy"; "canine"; "vet"]);
   ("restaurant", ["restaurant"; "menu"; "reservation"; "chef"; "dining"])].

(** Reads the reversed name up to its last dot: the extension read so
    far is [ext]; gives the extension and the reversed stem. *)
Fixpoint rsplit_dot (r : string) (ext : string) : option (string * string) :=
  match r with
  | EmptyString => None
  | String c r' =>
      if Ascii.eqb c "."%char then Some (ext, r')
      else rsplit_dot r' (String c ext)
  end.

(** [Path(name).suffix]: from the last dot on, unless that dot is the
    first or the last character. *)
Definition suffix (name : string) : string :=
  match rsplit_dot (String.rev name) "" with
  | Some (ext, stem) =>
      if (str_empty ext || str_empty stem)%bool then "" else "." +:+ ext
  | None => ""
  end.

Definition mem (x : string) (l : list string) : bool :=
  existsb (String.eqb x) l.

(** [classify_asset] *)
Definition classify_asset (file_name : string) : option string :=
  let ext := lower (suffix file_name) in
  if mem ext IMAGE_EXTS then Some "image"
  else if mem ext AUDIO_EXTS then Some "audio"
  else if mem ext IGNORE_EXTS then None
  else Some "file".

(** [ensure_category] *)
Definition ensure_category (export_id name : string) (is_system : Z) : M string :=
  let slug := slugify name in
  let* existing := query (select_category export_id slug) in
  match existing with
  | Some id => ret id
  | None =>
      let* category_id := uuid4 in
      execute (insert_category (CategoryRow category_id export_id name slug is_system));;
      ret category_id
  end.

(* ------------------------------------------------------------------ *)
(** ** parse_export *)

(** [safe_extract]: what was written before a member raises stays. *)
Definition safe_extract (zip_path extract_to : path) : M unit :=
  let* b := read_files (read_bytes zip_path) in
  let* b := lift b in
  let* ms := lift (zipfile_open b) in
  fun st =>
    match extract_members extract_to ms (files st) with
    | (None, f') => (Ok tt, State (committed st) (conn st) f' (next_uuid st))
    | (Some e, f') => (Raise e, State (committed st) (conn st) f' (next_uuid st))
    end.

(** [tempfile.TemporaryDirectory()]: the directory is created under a
    name drawn from the counter, taken to be unused, and removed with
    all it holds on every way out of the block. *)
Definition mkdtemp : M path :=
  fun st =>
    let p := TMP_DIR ++ ["tmp" +:+ pretty (next_uuid st)] in
    (Ok p, State (committed st) (conn st) (<[p := FDir]> (files st)) (S (next_uuid st))).

Definition cleanup (tmp : path) : M unit :=
  fun st => (Ok tt, State (committed st) (conn st) (rmtree tmp (files st)) (next_uuid st)).

Definition with_temporary_directory {A} (body : path -> M A) : M A :=
  let* tmp := mkdtemp in
  try_finally (body tmp) (cleanup tmp).

(** A loop that carries a value from one round to the next. *)
Fixpoint for_fold {A S} (l : list A) (acc : S) (body : S -> A -> M S) : M S :=
  match l with
  | [] => ret acc
  | x :: l' => let* acc' := body acc x in for_fold l' acc' body
  end.

(** [file_map.setdefault(name, []).append(asset_id)] *)
Fixpoint file_map_add (name asset_id : string) (fm : list (string * list string))
  : list (string * list string) :=
  match fm with
  | [] => [(name, [asset_id])]
  | (k, ids) :: fm' =>
      if String.eqb k name then (k, ids ++ [asset_id]) :: fm'
      else (k, ids) :: file_map_add name asset_id fm'
  end.

(** Lines 205-233: one round of the registration loop. *)
Definition register_file (export_id : string) (tmp_path conv_file extracted_dir : path)
    (file_map : list (string * list string)) (file : path)
  : M (list (string * list string)) :=
  let* isf := read_files (fun f => is_file f file) in
  if (negb isf || bool_decide (file = conv_file))%bool then ret file_map
  else
    let rel := drop (length tmp_path) file in
    let target := extracted_dir ++ rel in
    on_files (mkdir_p (parent target));;
    on_files (copy2 file target);;
    match classify_asset (basename file) with
    | None => ret file_map
    | Some asset_type =>
        let* b := read_files (read_bytes file) in
        let* b := lift b in
        let checksum := sha256_hexdigest b in
        let* asset_id := uuid4 in
        let* storage := lift (relative_to target STORAGE_DIR) in
        execute (insert_asset
          (AssetRow asset_id export_id None None asset_type (basename file)
             (join "/" storage) (length b) checksum));;
        ret (file_map_add (lower (basename file)) asset_id file_map)
    end.

(** Lines 203-233 *)
Definition register_assets (export_id : string) (tmp_path conv_file extracted_dir : path)
  : M (list (string * list string)) :=
  let* all := read_files (rglob tmp_path) in
  for_fold all [] (register_file export_id tmp_path conv_file extracted_dir).

(** Lines 292-298 *)
Definition link_assets (conv_id msg_id lowered : string)
    (file_map : list (string * list string)) : M unit :=
  for_each file_map (fun entry =>
    if contains (fst entry) lowered
    then for_each (snd entry) (fun asset_id =>
           execute (link_asset conv_id msg_id asset_id))
    else ret tt).

(** Lines 274-276 *)
Definition message_text (msg : json) : result string :=
  match py_get msg "content" with
  | Raise e => Raise e
  | Ok content =>
      match py_get (py_or content (JObj [])) "parts" with
      | Raise e => Raise e
      | Ok parts =>
          match py_iter (py_or parts (JArr [])) with
          | Raise e => Raise e
          | Ok items =>
              Ok (strip (join newline
                    (py_str <$> List.filter (fun p => negb (is_null p)) items)))
          end
      end
  end.

(** Line 277 *)
Definition message_role (msg : json) : result json :=
  match py_get msg "author" with
  | Raise e => Raise e
  | Ok author =>
      match py_get (py_or author (JObj [])) "role" with
      | Raise e => Raise e
      | Ok role => Ok (py_or role (JStr "unknown"))
      end
  end.

(** Lines 274-298: one round of the message loop; [texts] are the
    message texts appended to [full_text_parts] so far. *)
Definition ingest_message (export_id conv_id : string)
    (file_map : list (string * list string)) (texts : list string) (msg : json)
  : M (list string) :=
  let* text := lift (message_text msg) in
  let* role := lift (message_role msg) in
  let* msg_id := uuid4 in
  let* ct := lift (py_get msg "create_time") in
  let msg_time := parse_iso_or_none ct in
  let* role_v := lift (bind_param 4 role) in
  execute (insert_message (MessageRow msg_id export_id conv_id role_v text msg_time));;
  if str_empty text then ret texts
  else
    link_assets conv_id msg_id (lower text) file_map;;
    ret (texts ++ [text]).

(** Line 300: ["\n".join(full_text_parts).lower()] *)
Definition conversation_blob (title : json) (texts : list string) : result string :=
  match title with
  | JStr t => Ok (lower (join newline (t :: texts)))
  | _ => Raise (TypeError ("sequence item 0: expected str instance, " +:+
                           type_name title +:+ " found"))
  end.

Definition auto_edge (conv_id cat : string) : edge_row :=
  EdgeRow conv_id cat "auto" (Some 1%Q).

Definition rule_matches (conversation_text : string) (rule : string * list string) : bool :=
  existsb (fun kw => contains kw conversation_text) (snd rule).

(** Lines 303-312: one round of the loop over the rules; [matched] is
    [matched_any] so far. *)
Definition apply_rule (export_id conv_id conversation_text : string)
    (matched : bool) (rule : string * list string) : M bool :=
  if rule_matches conversation_text rule then
    let* cat := ensure_category export_id (fst rule) 1 in
    execute (insert_or_ignore_edge (auto_edge conv_id cat));;
    ret true
  else ret matched.

(** Lines 301-322 *)
Definition categorize (export_id conv_id conversation_text : string) : M unit :=
  let* matched_any :=
    for_fold CATEGORY_RULES false (apply_rule export_id conv_id conversation_text) in
  if matched_any : bool then ret tt
  else
    let* unc_id := ensure_category export_id "uncategorized" 1 in
    execute (insert_or_ignore_edge (auto_edge conv_id unc_id)).

(** Lines 236-322: one round of the conversation loop. *)
Definition ingest_conversation (export_id : string)
    (file_map : list (string * list string)) (conv : json) : M unit :=
  let* conv_id := uuid4 in
  let* external_id := lift (py_get conv "id") in
  let* title0 := lift (py_get conv "title") in
  let title := py_or title0 (JStr "Untitled") in
  let* create_time := lift (py_get conv "create_time") in
  let conversation_date := parse_iso_or_none create_time in
  let* external_v := lift (bind_param 3 external_id) in
  let* title_v := lift (bind_param 4 title) in
  execute (insert_conversation
    (ConversationRow conv_id export_id external_v title_v conversation_date
       (json_dumps conv)));;
  let* mapping := lift (py_get conv "mapping") in
  let* values := lift (py_values (py_or mapping (JObj []))) in
  let* nodes := lift (collect_messages values) in
  let* ordered := lift (sorted_nodes nodes) in
  let* texts := for_fold ordered [] (ingest_message export_id conv_id file_map) in
  let* conversation_text := lift (conversation_blob title texts) in
  categorize export_id conv_id conversation_text.

Definition find_manifest (tmp_path : path) (f : fs) : option path :=
  List.find (fun p => String.eqb (basename p) "conversations.json") (rglob tmp_path f).

(** Lines 189-328: the body of the [with] block. *)
Definition ingest (export_id : string) (zip_path extracted_dir tmp_path : path) : M unit :=
  safe_extract zip_path tmp_path;;
  let* found := read_files (find_manifest tmp_path) in
  match found with
  | None => raise (ValueError "Missing conversations.json in ZIP export")
  | Some conv_file =>
      let* b := read_files (read_bytes conv_file) in
      let* b := lift b in
      let* payload := lift (json_load b) in
      match payload with
      | JArr convs =>
          let* file_map := register_assets export_id tmp_path conv_file extracted_dir in
          for_each convs (ingest_conversation export_id file_map);;
          execute (update_export_outcome "ready" None export_id);;
          commit
      | _ => raise (ValueError "conversations.json must contain a list")
      end
  end.

(** Lines 329-335: the [except Exception] clause. *)
Definition record_failure (export_id : string) (exc : exn) : M unit :=
  execute (update_export_outcome "failed" (Some (str_exc exc)) export_id);;
  commit;;
  raise exc.

(** Lines 178-186: the status goes to [processing], durably, and the
    directories of the export are made; gives [extracted_dir]. *)
Definition begin_processing (export_id : string) : M path :=
  get_conn;;
  execute (update_export_status "processing" export_id);;
  commit;;
  let export_dir := path_join (path_join STORAGE_DIR "exports") export_id in
  let extracted_dir := path_join export_dir "extracted" in
  let assets_dir := path_join export_dir "assets" in
  on_files (mkdir_p extracted_dir);;
  on_files (mkdir_p assets_dir);;
  ret extracted_dir.

(** [parse_export] *)
Definition parse_export (export_id : string) (zip_path : path) : M unit :=
  let* extracted_dir := begin_processing export_id in
  try_finally
    (try_except
       (with_temporary_directory (ingest export_id zip_path extracted_dir))
       (record_failure export_id))
    close.

(* ------------------------------------------------------------------ *)
(** ** move_conversation *)

(** [str(HTTPException(status_code, detail))] is the code, a colon and
    the detail. *)
Definition HTTPException (status_code : nat) (detail : string) : exn :=
  Exn "HTTPException" (pretty status_code +:+ ": " +:+ detail).

(** The truth value of an optional form field. *)
Definition supplied (o : option string) : bool :=
  match o with
  | Some s => negb (str_empty s)
  | None => false
  end.

Definition manual_edge (conv_id cat : string) : edge_row :=
  EdgeRow conv_id cat "manual" None.

(** [move_conversation]; the value returned is the URL redirected to. *)
Definition move_conversation (export_id conversation_id : string)
    (category_id new_category : option string) : M string :=
  get_conn;;
  let* conv := query (select_conversation conversation_id export_id) in
  match conv with
  | None => close;; raise (HTTPException 404 "Conversation not found")
  | Some _ =>
      let* target_category_id :=
        (if supplied new_category
         then let* id := ensure_category export_id (default "" new_category) 0 in
              ret (Some id)
         else ret category_id) in
      if negb (supplied target_category_id)
      then close;; raise (HTTPException 400 "Category is required")
      else
        let target := default "" target_category_id in
        execute (delete_edges conversation_id);;
        execute (insert_or_ignore_edge (manual_edge conversation_id target));;
        commit;;
        close;;
        ret ("/exports/" +:+ export_id)
  end.

End WithEnv.

(* ------------------------------------------------------------------ *)
(** ** Vocabulary of the statements *)

Definition is_alnum (c : ascii) : bool := (is_upper c || is_slug_char c)%bool.

(** No letter and no digit occurs in [s]. *)
Fixpoint no_alnum (s : string) : bool :=
  match s with
  | EmptyString => true
  | String c s' => (negb (is_alnum c) && no_alnum s')%bool
  end.

(** The rows of [categories] are told apart by (export, slug). *)
Definition slug_key (c : category_row) : string * string :=
  (cat_export_id c, cat_slug c).

Definition unique_slugs (d : database) : Prop :=
  NoDup (slug_key <$> categories d).

(** The category edges of one conversation. *)
Definition edges_of (conv_id : string) (d : database) : list edge_row :=
  List.filter (fun e => String.eqb (cc_conversation_id e) conv_id)
              (conversation_categories d).

(** The category edges of all other conversations. *)
Definition edges_of_others (conv_id : string) (d : database) : list edge_row :=
  List.filter (fun e => negb (String.eqb (cc_conversation_id e) conv_id))
              (conversation_categories d).

(** An environment for running the definitions on examples: the archive
    holds [members] and its manifest parses to [payload]. *)
Definition demo_env (members : list zip_member) (payload : result json) : Env := {|
  BASE_DIR := ["srv"; "brain"];
  TMP_DIR := ["tmp"];
  sha256_hexdigest := fun b => "sha-" +:+ pretty (length b);
  zipfile_open := fun _ => Ok members;
  json_load := fun _ => payload;
  json_dumps := fun _ => "{}";
  float_of_str := fun _ => None;
  str_of := fun _ => "?";
  utc_isoformat := fun f =>
    match f with
    | Fin q => Some ("t" +:+ pretty (Qnum q))
    | _ => None
    end
|}.

(** Some row of [categories] carries the identifier. *)
Definition category_id_known (id : string) (d : database) : bool :=
  existsb (fun c => String.eqb (cat_id c) id) (categories d).

(** A computation keeps a relation [Rdb] between the view of the
    connection before and after it, whatever its result. *)
Definition keeps (Rdb : database -> database -> Prop) {A} (c : M A) : Prop :=
  forall st, Rdb (conn st) (conn (snd (c st))).

(** [Rdb] holds across each statement the conversation and registration
    loops issue. *)
Class Tolerates (Rdb : database -> database -> Prop) := {
  tol_insert_conversation r d : Rdb d (insert_conversation r d);
  tol_insert_message r d : Rdb d (insert_message r d);
  tol_insert_asset r d : Rdb d (insert_asset r d);
  tol_insert_category r d : Rdb d (insert_category r d);
  tol_insert_edge e d : Rdb d (insert_or_ignore_edge e d);
  tol_link_asset c m a d : Rdb d (link_asset c m a d)
}.

(** The table [exports] is the same. *)
Definition same_exports (d d' : database) : Prop := exports d' = exports d.

(** The row of export [export_id] with the outcome of its ingestion
    written into it; every other row as it is. *)
Definition mark_outcome (export_id status : string) (error_message : option string)
    (r : export_row) : export_row :=
  if String.eqb (ex_id r) export_id
  then ExportRow (ex_id r) (ex_name r) status (ex_source_zip_path r) error_message
  else r.

(** A nullable column keeps the value it has, if it has one. *)
Definition fills {A} (old new : option A) : Prop :=
  forall x, old = Some x -> new = Some x.

(** [a'] is the row [a] with, at most, null link columns filled in. *)
Definition link_kept (a a' : asset_row) : Prop :=
  as_id a' = as_id a /\
  as_export_id a' = as_export_id a /\
  fills (as_conversation_id a) (as_conversation_id a') /\
  fills (as_message_id a) (as_message_id a') /\
  as_asset_type a' = as_asset_type a /\
  as_original_name a' = as_original_name a /\
  as_storage_path a' = as_storage_path a /\
  as_byte_size a' = as_byte_size a /\
  as_checksum_sha256 a' = as_checksum_sha256 a.

(** Every row of [assets] is still there, at its place, with the links
    it had. *)
Definition links_kept (d d' : database) : Prop :=
  forall i a, assets d !! i = Some a ->
    exists a', assets d' !! i = Some a' /\ link_kept a a'.





(** The identifiers of [categories] are pairwise distinct and none of
    them is one that [uuid4] has yet to draw. *)
Definition category_ids (st : state) : list string := cat_id <$> categories (conn st).

Definition cats_ok (st : state) : Prop :=
  NoDup (category_ids st) /\
  forall k, next_uuid st <= k -> uuid_str k ∉ category_ids st.

(** [edge] is the automatic edge from [conv_id] to the category that
    export [export_id] holds, in [d], under the slug of [rule]. *)
Definition edge_of_rule (export_id conv_id : string) (d : database)
    (rule : string * list string) (edge : edge_row) : Prop :=
  exists id,
    select_category export_id (slugify (fst rule)) d = Some id /\
    edge = EdgeRow conv_id id "auto" (Some 1%Q).

(** Every edge of [conv_id] leads to a row of [categories] whose slug
    is among [seen]. *)
Definition tracked (conv_id : string) (seen : list string) (d : database) : Prop :=
  forall edge, edge ∈ conversation_categories d ->
    cc_conversation_id edge = conv_id ->
    exists c, c ∈ categories d /\ cat_id c = cc_category_id edge /\ cat_slug c ∈ seen.

Definition rule_slug (rule : string * list string) : string := slugify (fst rule).

(** What automatic categorization leaves for conversation [conv_id]
    whose text blob is [text]: one automatic edge of confidence 1.0 per
    matching rule, in the order of the rules, or, when no rule matches,
    the single edge to the category of slug [uncategorized]. *)
Definition categorized (export_id conv_id text : string) (d : database) : Prop :=
  edges_of conv_id d <> [] /\
  if existsb (rule_matches text) CATEGORY_RULES
  then Forall2 (edge_of_rule export_id conv_id d)
               (List.filter (rule_matches text) CATEGORY_RULES)
               (edges_of conv_id d)
  else exists id,
         select_category export_id "uncategorized" d = Some id /\
         edges_of conv_id d = [EdgeRow conv_id id "auto" (Some 1%Q)].

(** [q] is [pre] extended by a non-empty prefix of [rest]: the places
    [mkdir_from] visits. *)
Definition on_way (pre rest q : path) : Prop :=
  exists a b, a <> [] /\ rest = a ++ b /\ q = pre ++ a.

(** [dest] and the directories above it exist. *)
Definition dir_chain (f : fs) (dest : path) : Prop :=
  forall q, q <> [] -> q `prefix_of` dest -> f !! q = Some FDir.

(** No file lies on the way from the root down to [target], [target]
    itself left aside. *)
Definition way_clear (f : fs) (target : path) : Prop :=
  forall q, q `prefix_of` target -> q <> target -> is_file f q = false.

Definition kept_member (m : zip_member) : bool := negb (escapes (zm_filename m)).

(** The place in permanent storage of the file [k] of the extraction
    workspace [tmp_path]. *)
Definition target_of (tmp_path extracted_dir k : path) : path :=
  extracted_dir ++ drop (length tmp_path) k.

(** The row [a] describes the file that [f] holds at its storage path:
    the path leads, from the storage directory, to a file whose SHA-256
    and length are those of the row. *)
Definition asset_matches_file `{Env} (f : fs) (a : asset_row) : Prop :=
  exists rest b,
    as_storage_path a = join "/" rest /\
    f !! (STORAGE_DIR ++ rest) = Some (FFile b) /\
    as_checksum_sha256 a = sha256_hexdigest b /\
    as_byte_size a = length b.

(** A file has nothing below it. *)
Definition tree_shaped (f : fs) : Prop :=
  forall p q, is_file f p = true -> p `prefix_of` q -> q <> p -> f !! q = None.

(** Nothing lies below [dir]. *)
Definition empty_below (f : fs) (dir : path) : Prop :=
  forall q, dir `prefix_of` q -> q <> dir -> f !! q = None.

(** The row [a] was registered for the workspace file [k], one of
    [done]: [f] holds at the place of [k] the bytes [f0] holds at [k],
    and the row carries their SHA-256 and length. *)
Definition registered `{Env} (tmp_path extracted_dir : path) (f0 : fs)
    (done : list path) (f : fs) (a : asset_row) : Prop :=
  exists k b rest,
    k ∈ done /\ tmp_path `prefix_of` k /\
    f !! target_of tmp_path extracted_dir k = Some (FFile b) /\
    f0 !! k = Some (FFile b) /\
    target_of tmp_path extracted_dir k = STORAGE_DIR ++ rest /\
    as_storage_path a = join "/" rest /\
    as_checksum_sha256 a = sha256_hexdigest b /\
    as_byte_size a = length b.

(** What holds between the rounds of the registration loop, [f0] and
    [assets0] being the files and the asset rows it started from. *)
Definition reg_inv `{Env} (tmp_path extracted_dir : path) (f0 : fs)
    (assets0 : list asset_row) (done : list path) (st : state) : Prop :=
  (forall q, tmp_path `prefix_of` q -> files st !! q = f0 !! q) /\
  (forall q, extracted_dir `prefix_of` q -> q <> extracted_dir ->
     files st !! q = Some FDir ->
     exists k, is_Some (f0 !! k) /\ tmp_path `prefix_of` k /\
               q `prefix_of` target_of tmp_path extracted_dir k /\
               q <> target_of tmp_path extracted_dir k) /\
  (exists new,
     assets (conn st) = assets0 ++ new /\
     Forall (registered tmp_path extracted_dir f0 done (files st)) new).

(** Nothing but [p] itself lies at or below [p] among the places [f]
    holds. *)
Definition nothing_below (f : fs) (p : path) : bool :=
  forallb (fun kv => (negb (bool_decide (p `prefix_of` fst kv)) ||
                      bool_decide (fst kv = p))%bool)
          (map_to_list f).

(** Decides [empty_below]. *)
Definition empty_below_check (f : fs) (dir : path) : bool := nothing_below f dir.

(** Decides [tree_shaped]. *)
Definition tree_shaped_check (f : fs) : bool :=
  forallb (fun kv => match snd kv with
                     | FFile _ => nothing_below f (fst kv)
                     | FDir => true
                     end)
          (map_to_list f).

(** No edge names a conversation identifier that [uuid4] has yet to
    draw. *)
Definition fresh_edges (st : state) : Prop :=
  forall k, next_uuid st <= k -> edges_of (uuid_str k) (conn st) = [].

(** The message texts that enter the text blob: the non-empty ones. *)
Definition blob_texts (rows : list message_row) : list string :=
  List.filter (fun t => negb (str_empty t)) (ms_content_text <$> rows).

(** The row was persisted for the message [msg] of conversation
    [conv_id]. *)
Definition row_of_message `{Env} (conv_id : string) (msg : json) (row : message_row) : Prop :=
  ms_conversation_id row = conv_id /\ message_text msg = Ok (ms_content_text row).

(** Between [st] and [st'] at most the table [assets] of the
    connection's view has changed. *)
Definition only_assets (st st' : state) : Prop :=
  committed st' = committed st /\ files st' = files st /\
  next_uuid st' = next_uuid st /\
  exports (conn st') = exports (conn st) /\
  conversations (conn st') = conversations (conn st) /\
  messages (conn st') = messages (conn st) /\
  categories (conn st') = categories (conn st) /\
  conversation_categories (conn st') = conversation_categories (conn st).

(** The table [messages] is the same. *)
Definition same_messages (d d' : database) : Prop := messages d' = messages d.

(** *** Example data *)

Definition demo_zip_path : path :=
  ["srv"; "brain"; "storage"; "exports"; "e1"; "source"; "export.zip"].

Definition demo_db : database :=
  Database
    [ExportRow "e1" "my export" "uploaded" "exports/e1/source/export.zip" None]
    [ConversationRow "c1" "e1" SNull (SText "Old talk") None "{}"]
    []
    []
    [CategoryRow "k1" "e1" "dog" "dog" 1;
     CategoryRow "k2" "e1" "restaurant" "restaurant" 1]
    [EdgeRow "c1" "k1" "auto" (Some 1%Q); EdgeRow "c1" "k2" "auto" (Some 1%Q)].

Definition demo_files : fs :=
  <[ demo_zip_path := FFile [] ]>
  (<[ ["srv"; "brain"; "storage"] := FDir ]>
  (<[ ["srv"; "brain"] := FDir ]>
  (<[ ["srv"] := FDir ]>
  (<[ ["tmp"] := FDir ]> ∅)))).

Definition demo_state : state := State demo_db demo_db demo_files 0.

Definition demo_message : json :=
  JObj [("author", JObj [("role", JStr "user")]);
        ("create_time", JInt 1700000000);
        ("content", JObj [("parts", JArr [JStr "My dog needs a vet checkup, see Photo.PNG"])])].

Definition demo_conversation : json :=
  JObj [("id", JStr "c1"); ("title", JStr "My Dog Visit");
        ("create_time", JInt 1700000000);
        ("mapping", JObj [("n1", JObj [("message", demo_message)])])].

Definition demo_payload : json := JArr [demo_conversation].

Definition demo_members : list zip_member :=
  [ZipMember "conversations.json" (Ok []);
   ZipMember "media/photo.png" (Ok [Byte.x89; Byte.x50]);
   ZipMember "../evil.png" (Ok [Byte.x00]);
   ZipMember "/etc/passwd" (Ok [Byte.x00])].

(** An archive with its manifest and one picture. *)
Definition demo_full_env : Env := demo_env demo_members (Ok demo_payload).

(** An archive without a manifest. *)
Definition demo_bare_env : Env := demo_env [ZipMember "readme.txt" (Ok [])] (Ok demo_payload).

Definition demo_extracted_dir : path :=
  ["srv"; "brain"; "storage"; "exports"; "e1"; "extracted"].

(** A state in which the picture of the example archive is registered
    and already linked to a message of an earlier conversation. *)
Definition demo_linked_asset : asset_row :=
  AssetRow "a1" "e1" (Some "c1") (Some "m1") "image" "photo.png"
           "exports/e1/extracted/media/photo.png" 2 "sha-2".

Definition demo_unlinked_asset : asset_row :=
  AssetRow "a2" "e1" None None "image" "photo.png"
           "exports/e1/extracted/other/photo.png" 2 "sha-2".

Definition demo_linked_state : state :=
  State demo_db (with_assets (fun _ => [demo_linked_asset; demo_unlinked_asset]) demo_db)
        demo_files 10.

Definition demo_file_map : list (string * list string) := [("photo.png", ["a1"; "a2"])].

Definition demo_conversations : list json := [demo_conversation].

(** A message with the given [create_time] and a single text part. *)
Definition demo_timed_message (create_time : json) (text : string) : json :=
  JObj [("create_time", create_time);
        ("content", JObj [("parts", JArr [JStr text])])].

(** A conversation whose second message has the timestamp NaN, which
    [json.load] reads from the literal [NaN]. *)
Definition demo_nan_conversation : json :=
  JObj [("title", JStr "Notes");
        ("mapping",
         JObj [("n1", JObj [("message", demo_timed_message (JInt 2) "two")]);
               ("n2", JObj [("message", demo_timed_message (JFloat NaN) "nan")]);
               ("n3", JObj [("message", demo_timed_message (JInt 1) "one")])])].

(** The same conversation without the NaN message. *)
Definition demo_plain_conversation : json :=
  JObj [("title", JStr "Notes");
        ("mapping",
         JObj [("n1", JObj [("message", demo_timed_message (JInt 2) "two")]);
               ("n3", JObj [("message", demo_timed_message (JInt 1) "one")])])].

(** A temporary directory, made and still empty. *)
Definition demo_tmp : path := ["tmp"; "tmp0"].

Definition demo_tmp_state : state :=
  State demo_db demo_db (<[ demo_tmp := FDir ]> demo_files) 1.

(** The workspace after the example archive is extracted into it. *)
Definition demo_extracted_state : state :=
  snd (@safe_extract demo_full_env demo_zip_path demo_tmp demo_tmp_state).

Definition demo_manifest : path := demo_tmp ++ ["conversations.json"].

(* ------------------------------------------------------------------ *)
(** ** rename_category and upload_export *)

Section Routes.
Context {env : Env}.

Notation "'let*' x ':=' c 'in' k" := (bind c (fun x => k))
  (at level 10, x name, c at level 100, k at level 200).
Notation "c ';;' k" := (bind c (fun _ => k))
  (at level 100, k at level 200, right associativity).

Definition IntegrityError (m : string) : exn := Exn "sqlite3.IntegrityError" m.

(** A statement that SQLite may refuse: it then raises and leaves the
    view of the connection as it was. *)
Definition execute_checked (g : database -> result database) : M unit :=
  fun st =>
    match g (conn st) with
    | Ok d => (Ok tt, State (committed st) d (files st) (next_uuid st))
    | Raise e => (Raise e, st)
    end.

(** [SELECT * FROM categories WHERE id = ? AND export_id = ?], [fetchone] *)
Definition select_category_row (category_id export_id : string) (d : database)
  : option category_row :=
  List.find (fun c =>
    (String.eqb (cat_id c) category_id && String.eqb (cat_export_id c) export_id)%bool)
    (categories d).

(** Another row holds the pair (export_id, slug) already. *)
Definition slug_taken (export_id slug : string) (others : list category_row) : bool :=
  existsb (fun c =>
    (String.eqb (cat_export_id c) export_id && String.eqb (cat_slug c) slug)%bool) others.

(** The rows of [categories] as the [UPDATE] goes through them: [seen]
    are the rows gone through, as they are now; [None] when a row
    would share (export_id, slug) with another one, which the
    constraint [UNIQUE(export_id, slug)] forbids. *)
Fixpoint rename_rows (name slug category_id : string) (seen todo : list category_row)
  : option (list category_row) :=
  match todo with
  | [] => Some seen
  | c :: todo' =>
      if String.eqb (cat_id c) category_id then
        if slug_taken (cat_export_id c) slug (seen ++ todo') then None
        else rename_rows name slug category_id
               (seen ++ [CategoryRow (cat_id c) (cat_export_id c) name slug 0]) todo'
      else rename_rows name slug category_id (seen ++ [c]) todo'
  end.

(** [UPDATE categories SET name = ?, slug = ?, is_system = 0 WHERE id = ?] *)
Definition update_category (name slug category_id : string) (d : database)
  : result database :=
  match rename_rows name slug category_id [] (categories d) with
  | Some rows => Ok (with_categories (fun _ => rows) d)
  | None =>
      Raise (IntegrityError
               "UNIQUE constraint failed: categories.export_id, categories.slug")
  end.

(** [rename_category]; the value returned is the URL redirected to. *)
Definition rename_category (export_id category_id name : string) : M string :=
  get_conn;;
  let* category := query (select_category_row category_id export_id) in
  match category with
  | None => close;; raise (HTTPException 404 "Category not found")
  | Some _ =>
      execute_checked (update_category name (slugify name) category_id);;
      commit;;
      close;;
      ret ("/exports/" +:+ export_id)
  end.

(** [s.endswith(t)] *)
Definition endswith (s t : string) : bool := is_prefix (String.rev t) (String.rev s).

(** [INSERT INTO exports (id, name, created_at, status, source_zip_path)] *)
Definition insert_export (r : export_row) : database -> database :=
  with_exports (fun l => l ++ [r]).

(** Lines 357-374: the archive is stored under a new identifier and the
    export recorded with status [uploaded]; gives the identifier and
    the place of the archive.  [filename] is [file.filename] and [body]
    what [file.read()] gives. *)
Definition receive_upload (name filename : string) (body : list Byte.byte)
  : M (string * path) :=
  if negb (endswith (lower filename) ".zip")
  then raise (HTTPException 400 "Please upload a .zip file")
  else
    let* export_id := uuid4 in
    let export_dir :=
      path_join (path_join (path_join STORAGE_DIR "exports") export_id) "source" in
    on_files (mkdir_p export_dir);;
    let zip_path := path_join export_dir "export.zip" in
    on_files (write_file zip_path body);;
    get_conn;;
    let* rel := lift (relative_to zip_path STORAGE_DIR) in
    execute (insert_export (ExportRow export_id name "uploaded" (join "/" rel) None));;
    commit;;
    close;;
    ret (export_id, zip_path).

(** [upload_export]; the value returned is the URL redirected to. *)
Definition upload_export (name filename : string) (body : list Byte.byte) : M string :=
  let* stored := receive_upload name filename body in
  parse_export (fst stored) (snd stored);;
  ret ("/exports/" +:+ fst stored).

End Routes.

(* ------------------------------------------------------------------ *)
(** ** Vocabulary of the further statements *)

(** What may follow a character of [[a-z0-9]] in a slug: more of them,
    or one dash that such a character follows. *)
Fixpoint slug_tail (s : string) : bool :=
  match s with
  | EmptyString => true
  | String c s' =>
      if is_slug_char c then slug_tail s'
      else (is_dash c &&
            match s' with
            | String c' s'' => is_slug_char c' && slug_tail s''
            | EmptyString => false
            end)%bool
  end.

(** A well-formed slug: not empty, made of [[a-z0-9]] and dashes, with
    no dash at either end and no two dashes in a row. *)
Definition is_slug (s : string) : bool :=
  match s with
  | String c s' => (is_slug_char c && slug_tail s')%bool
  | EmptyString => false
  end.

(** Every dash of [s] is followed by nothing or by a character of
    [[a-z0-9]], and [s] holds no other character. *)
Fixpoint dashes_single (s : string) : bool :=
  match s with
  | EmptyString => true
  | String c s' =>
      if is_slug_char c then dashes_single s'
      else (is_dash c &&
            match s' with
            | String c' _ => is_slug_char c'
            | EmptyString => true
            end && dashes_single s')%bool
  end.

(** [s] is empty or starts with a character of [[a-z0-9]]. *)
Definition head_slug (s : string) : bool :=
  match s with
  | String c _ => is_slug_char c
  | EmptyString => true
  end.


Definition is_dict (v : json) : bool :=
  match v with JObj _ => true | _ => false end.

(** A node of the mapping that line 261 can read: a dict, or a value
    that counts as false and is replaced by the empty dict. *)
Definition node_ok (nd : json) : bool := (negb (truthy nd) || is_dict nd)%bool.

(** The [message] payload of such a node. *)
Definition node_message (nd : json) : json :=
  match nd with
  | JObj items => default JNull (assoc "message" items)
  | _ => JNull
  end.


(** The asset identifier is listed in [file_map] under a file name that
    occurs in [lowered]. *)
Definition mentioned (file_map : list (string * list string)) (lowered asset_id : string)
  : bool :=
  existsb (fun entry => (contains (fst entry) lowered && mem asset_id (snd entry))%bool)
          file_map.

(** The row with its null link columns set to the conversation and the
    message. *)
Definition linked (conv_id msg_id : string) (a : asset_row) : asset_row :=
  AssetRow (as_id a) (as_export_id a)
    (coalesce (as_conversation_id a) conv_id)
    (coalesce (as_message_id a) msg_id)
    (as_asset_type a) (as_original_name a) (as_storage_path a)
    (as_byte_size a) (as_checksum_sha256 a).

(** The identifiers of the rows whose file name is [k] once lower-cased,
    in the order of the rows. *)
Definition ids_named (k : string) (rows : list asset_row) : list string :=
  as_id <$> List.filter (fun a => String.eqb (lower (as_original_name a)) k) rows.

(** A row as the registration loop inserts it for export [export_id]:
    unlinked, and of the kind its file name gives. *)
Definition fresh_asset (export_id : string) (a : asset_row) : Prop :=
  as_export_id a = export_id /\
  as_conversation_id a = None /\ as_message_id a = None /\
  classify_asset (as_original_name a) = Some (as_asset_type a).

(** The row as a rename of category [category_id] to [name] leaves it. *)
Definition renamed (name category_id : string) (c : category_row) : category_row :=
  if String.eqb (cat_id c) category_id
  then CategoryRow (cat_id c) (cat_export_id c) name (slugify name) 0
  else c.

(** Category [category_id] is a row of [categories] in export
    [export_id]. *)
Definition category_in (category_id export_id : string) (d : database) : Prop :=
  exists c, c ∈ categories d /\ cat_id c = category_id /\ cat_export_id c = export_id.

(** A category of export [export_id] other than [category_id] has the
    slug already. *)
Definition slug_in_use (export_id slug category_id : string) (d : database) : bool :=
  existsb (fun c =>
    (negb (String.eqb (cat_id c) category_id) &&
     String.eqb (cat_export_id c) export_id && String.eqb (cat_slug c) slug)%bool)
    (categories d).

(** Every table but [categories] is the same. *)
Definition only_categories (d d' : database) : Prop :=
  exports d' = exports d /\ conversations d' = conversations d /\
  messages d' = messages d /\ assets d' = assets d /\
  conversation_categories d' = conversation_categories d.

(** Conversation [conversation_id] is a row of [conversations] in
    export [export_id]. *)
Definition conversation_in (conversation_id export_id : string) (d : database) : Prop :=
  exists c, c ∈ conversations d /\ cv_id c = conversation_id /\ cv_export_id c = export_id.

(** The temporary directory that a run starting in [st] draws. *)
Definition workspace_of `{Env} (st : state) : path :=
  TMP_DIR ++ ["tmp" +:+ pretty (next_uuid st)].

(** The state in which the body of the [with] block starts. *)
Definition in_workspace `{Env} (st : state) : state :=
  State (committed st) (conn st) (<[workspace_of st := FDir]> (files st))
        (S (next_uuid st)).

(** No earlier row of the tables that ingestion fills is lost or
    changed, the link columns of [assets] left aside, and [exports]
    keeps its rows in number and identifier. *)
Definition grows (d d' : database) : Prop :=
  ex_id <$> exports d' = ex_id <$> exports d /\
  conversations d `prefix_of` conversations d' /\
  messages d `prefix_of` messages d' /\
  as_id <$> assets d `prefix_of` as_id <$> assets d' /\
  categories d `prefix_of` categories d' /\
  conversation_categories d `prefix_of` conversation_categories d'.

(** A file lies where the directory of the exports should be. *)
Definition demo_blocked_state : state :=
  State demo_db demo_db
        (<[ ["srv"; "brain"; "storage"; "exports"] := FFile [] ]> demo_files) 0.

(** A manifest whose second conversation is no dict. *)
Definition demo_broken_env : Env :=
  demo_env demo_members (Ok (JArr [demo_conversation; JStr "broken"])).

(** A computation that leaves the file system as it is. *)
Definition quiet {A} (c : M A) : Prop := forall st, files (snd (c st)) = files st.

(** The directory of export [export_id] in permanent storage. *)
Definition export_dir_of `{Env} (export_id : string) : path :=
  path_join (path_join STORAGE_DIR "exports") export_id.

(** Where the archive of export [export_id] is stored. *)
Definition zip_path_of `{Env} (export_id : string) : path :=
  path_join (path_join (export_dir_of export_id) "source") "export.zip".

(** The row of [exports] for an upload stored under [export_id]. *)
Definition upload_row `{Env} (export_id name status : string)
    (error_message : option string) : export_row :=
  ExportRow export_id name status
    (join "/" (drop (length STORAGE_DIR) (zip_path_of export_id))) error_message.

(** The rows of [conversation_categories] are told apart by
    (conversation, category), the primary key of the table. *)
Definition edge_key (e : edge_row) : string * string :=
  (cc_conversation_id e, cc_category_id e).

Definition unique_edges (d : database) : Prop :=
  NoDup (edge_key <$> conversation_categories d).

(** The two uniqueness constraints of the schema on what the code
    inserts without drawing a new identifier: [UNIQUE(export_id, slug)]
    on [categories] and the primary key of [conversation_categories]. *)
Definition constraints (d : database) : Prop := unique_slugs d /\ unique_edges d.

Definition keeps_constraints (d d' : database) : Prop := constraints d -> constraints d'.


(** The tables [conversations] and [messages] are the same. *)
Definition same_rows (d d' : database) : Prop :=
  conversations d' = conversations d /\ messages d' = messages d.

(** No component of the name of a member that is unpacked is
    [conversations.json]. *)
Definition no_manifest (ms : list zip_member) : Prop :=
  Forall (fun m => escapes (zm_filename m) = false ->
                   "conversations.json" ∉ path_parts (zm_filename m)) ms.

(** An archive with a picture and no manifest, at any depth. *)
Definition demo_picture_env : Env :=
  demo_env [ZipMember "media/photo.png" (Ok [Byte.x89; Byte.x50]);
            ZipMember "../conversations.json" (Ok [])] (Ok demo_payload).

Definition is_str (v : json) : bool :=
  match v with JStr _ => true | _ => false end.

(* ================================================================== *)
(** * Properties *)

Section Properties.
Context {env : Env}.

(** ** slugify *)

Example slugify_rule_name : slugify "Housing Court  Case!" = "housing-court-case".
Proof. reflexivity. Qed.

Lemma lower_char_not_slug c :
  is_alnum c = false -> is_slug_char (lower_char c) = false.
Proof.
  unfold is_alnum, lower_char. intros H.
  apply orb_false_iff in H as [Hu Hs]. by rewrite Hu.
Qed.

Lemma sub_runs_no_alnum s :
  no_alnum s = true ->
  sub_runs true (lower s) = "" /\
  (sub_runs false (lower s) = "" \/ sub_runs false (lower s) = "-").
Proof.
  induction s as [|c s IH]; simpl; [by auto|].
  intros H. apply andb_true_iff in H as [Hc Hs].
  apply negb_true_iff in Hc. rewrite (lower_char_not_slug c Hc).
  destruct (IH Hs) as [IH1 IH2]. rewrite IH1. auto.
Qed.

Lemma slugify_not_empty text : slugify text <> "".
Proof.
  unfold slugify.
  destruct (strip_chars is_dash (sub_runs false (lower text))); simpl; discriminate.
Qed.

Lemma slugify_no_alnum text : no_alnum text = true -> slugify text = "category".
Proof.
  intros H. unfold slugify.
  destruct (sub_runs_no_alnum text H) as [_ [-> | ->]]; reflexivity.
Qed.

Example classify_asset_examples :
  classify_asset "Photo.PNG" = Some "image" /\
  classify_asset "voice.m4a" = Some "audio" /\
  classify_asset "chat.html" = None /\
  classify_asset "archive.tar.gz" = Some "file" /\
  classify_asset ".json" = Some "file" /\
  classify_asset "README" = Some "file".
Proof. repeat split. Qed.

(** ** ensure_category *)

Lemma ensure_category_unfold export_id name is_system st :
  ensure_category export_id name is_system st =
  match select_category export_id (slugify name) (conn st) with
  | Some id => (Ok id, st)
  | None =>
      (Ok (uuid_str (next_uuid st)),
       State (committed st)
             (insert_category
                (CategoryRow (uuid_str (next_uuid st)) export_id name
                             (slugify name) is_system) (conn st))
             (files st) (S (next_uuid st)))
  end.
Proof.
  unfold ensure_category, bind, query.
  destruct (select_category export_id (slugify name) (conn st)); reflexivity.
Qed.

Lemma select_category_None export_id slug d :
  select_category export_id slug d = None ->
  (export_id, slug) ∉ slug_key <$> categories d.
Proof.
  unfold select_category. intros H Hin.
  apply list_elem_of_fmap in Hin as (c & Hc & Hin).
  destruct (List.find _ _) eqn:Hf; [discriminate|].
  apply list_elem_of_In in Hin.
  pose proof (find_none _ _ Hf c Hin) as Hn. simpl in Hn.
  unfold slug_key in Hc. injection Hc as -> ->.
  by rewrite !String.eqb_refl in Hn.
Qed.

Lemma select_category_inserted export_id slug d row :
  select_category export_id slug d = None ->
  cat_export_id row = export_id -> cat_slug row = slug ->
  select_category export_id slug (insert_category row d) = Some (cat_id row).
Proof.
  unfold select_category. simpl. intros H He Hs.
  destruct (List.find _ (categories d)) eqn:Hf; [discriminate|].
  induction (categories d) as [|c l IH]; simpl in *.
  - by rewrite He, Hs, !String.eqb_refl.
  - destruct (String.eqb (cat_export_id c) export_id && String.eqb (cat_slug c) slug)%bool;
      [discriminate|]. by apply IH.
Qed.

Lemma ensure_category_twice export_id name1 name2 sys1 sys2 st :
  slugify name1 = slugify name2 ->
  exists id st1,
    ensure_category export_id name1 sys1 st = (Ok id, st1) /\
    ensure_category export_id name2 sys2 st1 = (Ok id, st1).
Proof.
  intros Heq. rewrite (ensure_category_unfold export_id name1).
  destruct (select_category export_id (slugify name1) (conn st)) as [id|] eqn:Hsel.
  - exists id, st. split; [done|].
    rewrite ensure_category_unfold, <- Heq. by rewrite Hsel.
  - eexists _, _. split; [done|].
    rewrite ensure_category_unfold, <- Heq. simpl.
    by rewrite (select_category_inserted _ _ _ _ Hsel).
Qed.

(** C8: within one export, ensuring a category under a name whose slug
    equals that of a category ensured just before gives the identifier
    of that category and leaves the table as it is; ensuring a category
    whose slug is new adds exactly one row, which carries that slug; and
    the rows stay told apart by (export, slug). *)
Theorem ensure_category_by_slug export_id name1 name2 sys1 sys2 st :
  slugify name1 = slugify name2 ->
  exists id st1,
    ensure_category export_id name1 sys1 st = (Ok id, st1) /\
    ensure_category export_id name2 sys2 st1 = (Ok id, st1) /\
    select_category export_id (slugify name2) (conn st1) = Some id /\
    (select_category export_id (slugify name1) (conn st) = None ->
     exists row,
       categories (conn st1) = categories (conn st) ++ [row] /\
       cat_id row = id /\ slug_key row = (export_id, slugify name1)) /\
    (is_Some (select_category export_id (slugify name1) (conn st)) -> st1 = st) /\
    (unique_slugs (conn st) -> unique_slugs (conn st1)).
Proof.
  intros Heq.
  destruct (ensure_category_twice export_id name1 name2 sys1 sys2 st Heq)
    as (id & st1 & H1 & H2).
  exists id, st1. split; [done|]. split; [done|].
  rewrite ensure_category_unfold in H1.
  destruct (select_category export_id (slugify name1) (conn st)) as [id0|] eqn:Hsel.
  - injection H1 as <- <-. rewrite <- Heq.
    split; [done|]. split; [discriminate|]. split; [done|]. done.
  - injection H1 as <- <-. simpl. rewrite <- Heq.
    split; [by rewrite (select_category_inserted _ _ _ _ Hsel)|].
    split.
    + intros _. eexists. split; [reflexivity|]. done.
    + split; [intros [? ?]; discriminate|].
      unfold unique_slugs. simpl. rewrite fmap_app. intros Hnd.
      apply NoDup_app. split; [done|]. split.
      * intros k Hk Hk'. apply list_elem_of_singleton in Hk'. subst k.
        by apply (select_category_None _ _ _ Hsel).
      * apply NoDup_singleton.
Qed.

Lemma ensure_category_by_slug_witness :
  exists id st1,
    ensure_category "e1" "Cat Pictures" 0 demo_state = (Ok id, st1) /\
    ensure_category "e1" "cat--pictures!" 0 st1 = (Ok id, st1) /\
    select_category "e1" (slugify "cat--pictures!") (conn st1) = Some id /\
    (select_category "e1" (slugify "Cat Pictures") (conn demo_state) = None ->
     exists row,
       categories (conn st1) = categories (conn demo_state) ++ [row] /\
       cat_id row = id /\ slug_key row = ("e1", slugify "Cat Pictures")) /\
    (is_Some (select_category "e1" (slugify "Cat Pictures") (conn demo_state)) ->
     st1 = demo_state) /\
    (unique_slugs (conn demo_state) -> unique_slugs (conn st1)).
Proof.
  apply (ensure_category_by_slug "e1" "Cat Pictures" "cat--pictures!" 0%Z 0%Z demo_state).
  reflexivity.
Defined.

(** C10: slug derivation never returns the empty string; a name without
    any letter or digit gets the slug [category], so that two such names
    ensured in one export give one and the same category. *)
Theorem slugify_fallback :
  (forall text, slugify text <> "") /\
  (forall export_id name1 name2 sys1 sys2 st,
     no_alnum name1 = true -> no_alnum name2 = true ->
     slugify name1 = "category" /\ slugify name2 = "category" /\
     exists id st1,
       ensure_category export_id name1 sys1 st = (Ok id, st1) /\
       ensure_category export_id name2 sys2 st1 = (Ok id, st1)).
Proof.
  split; [apply slugify_not_empty|].
  intros export_id name1 name2 sys1 sys2 st H1 H2.
  pose proof (slugify_no_alnum _ H1) as E1.
  pose proof (slugify_no_alnum _ H2) as E2.
  split; [done|]. split; [done|].
  apply ensure_category_twice. by rewrite E1, E2.
Qed.

Lemma slugify_fallback_witness :
  slugify "" <> "" /\
  slugify "?!" = "category" /\ slugify " -- " = "category" /\
  exists id st1,
    ensure_category "e1" "?!" 0 demo_state = (Ok id, st1) /\
    ensure_category "e1" " -- " 0 st1 = (Ok id, st1).
Proof.
  split; [apply (proj1 slugify_fallback)|].
  apply (proj2 slugify_fallback "e1" "?!" " -- " 0%Z 0%Z demo_state); reflexivity.
Defined.

(** ** move_conversation *)

Lemma edges_of_moved conv_id l e :
  cc_conversation_id e = conv_id ->
  List.filter (fun x => String.eqb (cc_conversation_id x) conv_id)
    (List.filter (fun x => negb (String.eqb (cc_conversation_id x) conv_id)) l ++ [e])
  = [e].
Proof.
  intros He. rewrite List.filter_app. simpl. rewrite He, String.eqb_refl.
  induction l as [|x l IH]; simpl; [done|].
  destruct (String.eqb (cc_conversation_id x) conv_id) eqn:Hx; simpl; [done|].
  by rewrite Hx.
Qed.

Lemma insert_after_delete conv_id target l :
  existsb (same_edge_key conv_id target)
    (List.filter (fun x => negb (String.eqb (cc_conversation_id x) conv_id)) l) = false.
Proof.
  induction l as [|x l IH]; simpl; [done|].
  destruct (String.eqb (cc_conversation_id x) conv_id) eqn:Hx; simpl; [done|].
  unfold same_edge_key at 1. by rewrite Hx.
Qed.

(** What a move does once the conversation is found and a target
    category identifier is at hand: nothing checks that the identifier
    names a category. *)
Lemma move_to_category_id export_id conversation_id target st :
  is_Some (select_conversation conversation_id export_id (committed st)) ->
  str_empty target = false ->
  exists st',
    move_conversation export_id conversation_id (Some target) None st
      = (Ok ("/exports/" +:+ export_id), st') /\
    conversation_categories (committed st') =
      edges_of_others conversation_id (committed st) ++
      [manual_edge conversation_id target] /\
    categories (committed st') = categories (committed st).
Proof.
  intros [x Hx] Ht.
  unfold move_conversation, bind, get_conn, query, execute, commit, close, ret.
  simpl. rewrite Hx. simpl. rewrite Ht. simpl.
  eexists. split; [reflexivity|]. simpl.
  unfold edges_of_others. by rewrite insert_after_delete.
Qed.

Lemma select_category_Some export_id slug d id :
  select_category export_id slug d = Some id ->
  exists c, c ∈ categories d /\ cat_id c = id /\ slug_key c = (export_id, slug).
Proof.
  unfold select_category. destruct (List.find _ _) as [c|] eqn:Hf; [|discriminate].
  intros [= <-]. apply find_some in Hf as [Hin Hc].
  apply andb_true_iff in Hc as [He Hs].
  apply String.eqb_eq in He, Hs.
  exists c. split; [by apply list_elem_of_In|]. split; [done|].
  unfold slug_key. by rewrite He, Hs.
Qed.

(** C9: a move of an existing conversation that supplies neither a
    category identifier nor a new name fails with the validation error
    and leaves the database and the files as they were; any other move
    deletes the edges of the conversation and inserts one, so that the
    conversation ends with exactly one edge, of provenance [manual].
    (The rows of [categories] carry non-empty identifiers, as all that
    [uuid4] gives are.) *)
Theorem move_conversation_outcome export_id conversation_id category_id new_category st :
  is_Some (select_conversation conversation_id export_id (committed st)) ->
  Forall (fun c => str_empty (cat_id c) = false) (categories (committed st)) ->
  let r := fst (move_conversation export_id conversation_id category_id new_category st) in
  let st' := snd (move_conversation export_id conversation_id category_id new_category st) in
  if (supplied category_id || supplied new_category)%bool then
    exists target,
      r = Ok ("/exports/" +:+ export_id) /\
      conversation_categories (committed st') =
        edges_of_others conversation_id (committed st) ++
        [manual_edge conversation_id target] /\
      edges_of conversation_id (committed st') = [manual_edge conversation_id target] /\
      cc_source (manual_edge conversation_id target) = "manual"
  else
    r = Raise (HTTPException 400 "Category is required") /\
    committed st' = committed st /\ files st' = files st.
Proof.
  intros [x Hx] Hids. simpl.
  unfold move_conversation, bind, get_conn, query, commit, close, ret.
  simpl. rewrite Hx.
  destruct (supplied new_category) eqn:Hn.
  - rewrite orb_true_r.
    rewrite ensure_category_unfold. simpl.
    destruct (select_category export_id (slugify (default "" new_category)) (committed st))
      as [id|] eqn:Hsel; simpl.
    + apply select_category_Some in Hsel as (c & Hin & <- & _).
      rewrite Forall_forall in Hids. rewrite (Hids c Hin). simpl.
      exists (cat_id c). split; [done|].
      unfold edges_of, edges_of_others. simpl. rewrite insert_after_delete.
      split; [done|]. split; [|done]. by apply edges_of_moved.
    + exists (uuid_str (next_uuid st)). split; [done|].
      unfold edges_of, edges_of_others. simpl. rewrite insert_after_delete.
      split; [done|]. split; [|done]. by apply edges_of_moved.
  - rewrite orb_false_r. simpl.
    destruct (supplied category_id) eqn:Hc; simpl.
    + destruct category_id as [target|]; [|discriminate]. simpl.
      exists target. split; [done|].
      unfold edges_of, edges_of_others. simpl. rewrite insert_after_delete.
      split; [done|]. split; [|done]. by apply edges_of_moved.
    + done.
Qed.

Lemma move_conversation_outcome_witness :
  (exists target,
     fst (move_conversation "e1" "c1" None (Some "Pets") demo_state) = Ok "/exports/e1" /\
     conversation_categories
       (committed (snd (move_conversation "e1" "c1" None (Some "Pets") demo_state))) =
       edges_of_others "c1" (committed demo_state) ++ [manual_edge "c1" target] /\
     edges_of "c1"
       (committed (snd (move_conversation "e1" "c1" None (Some "Pets") demo_state))) =
       [manual_edge "c1" target] /\
     cc_source (manual_edge "c1" target) = "manual") /\
  (fst (move_conversation "e1" "c1" None (Some "") demo_state)
     = Raise (HTTPException 400 "Category is required") /\
   committed (snd (move_conversation "e1" "c1" None (Some "") demo_state))
     = committed demo_state /\
   files (snd (move_conversation "e1" "c1" None (Some "") demo_state))
     = files demo_state).
Proof.
  split.
  - apply (move_conversation_outcome "e1" "c1" None (Some "Pets") demo_state).
    + by eexists.
    + repeat constructor.
  - apply (move_conversation_outcome "e1" "c1" None (Some "") demo_state).
    + by eexists.
    + repeat constructor.
Defined.

(** C2: a move that names a category identifier held by no row of
    [categories] is carried out all the same: the edges of the
    conversation are deleted and an edge to the unknown identifier is
    committed. *)
Theorem move_conversation_unknown_category :
  category_id_known "ghost" demo_db = false /\
  fst (move_conversation "e1" "c1" (Some "ghost") None demo_state) = Ok "/exports/e1" /\
  edges_of "c1" (committed demo_state) =
    [EdgeRow "c1" "k1" "auto" (Some 1%Q); EdgeRow "c1" "k2" "auto" (Some 1%Q)] /\
  edges_of "c1" (committed (snd (move_conversation "e1" "c1" (Some "ghost") None demo_state))) =
    [EdgeRow "c1" "ghost" "manual" None].
Proof. repeat split. Qed.

(** ** Relations kept by the pipeline *)

Section Keeps.
Context (Rdb : database -> database -> Prop) `{!PreOrder Rdb}.

Lemma keeps_ret {A} (a : A) : keeps Rdb (ret a).
Proof. intros st. reflexivity. Qed.

Lemma keeps_raise {A} (e : exn) : keeps Rdb (@raise A e).
Proof. intros st. reflexivity. Qed.

Lemma keeps_lift {A} (r : result A) : keeps Rdb (lift r).
Proof. intros st. reflexivity. Qed.

Lemma keeps_query {A} (g : database -> A) : keeps Rdb (query g).
Proof. intros st. reflexivity. Qed.

Lemma keeps_read_files {A} (g : fs -> A) : keeps Rdb (read_files g).
Proof. intros st. reflexivity. Qed.

Lemma keeps_uuid4 : keeps Rdb uuid4.
Proof. intros st. reflexivity. Qed.

Lemma keeps_on_files g : keeps Rdb (on_files g).
Proof. intros st. unfold on_files. destruct (g (files st)); reflexivity. Qed.

Lemma keeps_execute g : (forall d, Rdb d (g d)) -> keeps Rdb (execute g).
Proof. intros H st. apply H. Qed.

Lemma keeps_bind {A B} (c : M A) (k : A -> M B) :
  keeps Rdb c -> (forall a, keeps Rdb (k a)) -> keeps Rdb (bind c k).
Proof.
  intros Hc Hk st. unfold bind. specialize (Hc st).
  destruct (c st) as [[a|e] st']; simpl in *; [|done].
  etransitivity; [exact Hc|apply Hk].
Qed.

Lemma keeps_for_each {A} (l : list A) body :
  (forall x, keeps Rdb (body x)) -> keeps Rdb (for_each l body).
Proof.
  intros Hb. induction l as [|x l IH]; simpl; [apply keeps_ret|].
  apply keeps_bind; [apply Hb|done].
Qed.

Lemma keeps_for_fold {A S} (l : list A) (acc : S) body :
  (forall s x, keeps Rdb (body s x)) -> keeps Rdb (for_fold l acc body).
Proof.
  intros Hb. revert acc. induction l as [|x l IH]; intros acc; simpl; [apply keeps_ret|].
  apply keeps_bind; [apply Hb|done].
Qed.

Lemma keeps_try_finally {A} (c : M A) f :
  keeps Rdb c -> keeps Rdb f -> keeps Rdb (try_finally c f).
Proof.
  intros Hc Hf st. unfold try_finally. specialize (Hc st).
  destruct (c st) as [r st']. specialize (Hf st'). simpl in *.
  destruct (f st') as [[?|?] st'']; simpl in *; by etransitivity.
Qed.

Ltac keeps_step :=
  match goal with
  | |- keeps _ (ret _) => apply keeps_ret
  | |- keeps _ (raise _) => apply keeps_raise
  | |- keeps _ (lift _) => apply keeps_lift
  | |- keeps _ (query _) => apply keeps_query
  | |- keeps _ (read_files _) => apply keeps_read_files
  | |- keeps _ uuid4 => apply keeps_uuid4
  | |- keeps _ (on_files _) => apply keeps_on_files
  | |- keeps _ (execute _) => apply keeps_execute
  | |- keeps _ (bind _ _) => apply keeps_bind; [|intros ?]
  | |- keeps _ (for_each _ _) => apply keeps_for_each; intros ?
  | |- keeps _ (for_fold _ _ _) => apply keeps_for_fold; intros ? ?
  | |- keeps _ (if ?b then _ else _) => destruct b
  | |- keeps _ (match ?x with _ => _ end) => destruct x
  end.

Lemma keeps_ensure_category export_id name is_system :
  (forall r d, Rdb d (insert_category r d)) ->
  keeps Rdb (ensure_category export_id name is_system).
Proof.
  intros Hc. unfold ensure_category. repeat keeps_step. apply Hc.
Qed.

Lemma keeps_categorize export_id conv_id text :
  (forall r d, Rdb d (insert_category r d)) ->
  (forall e d, Rdb d (insert_or_ignore_edge e d)) ->
  keeps Rdb (categorize export_id conv_id text).
Proof.
  intros Hc He. unfold categorize, apply_rule.
  repeat (keeps_step || apply (keeps_ensure_category _ _ _ Hc)); apply He.
Qed.

Context `{!Tolerates Rdb}.

Lemma keeps_safe_extract zip_path extract_to :
  keeps Rdb (safe_extract zip_path extract_to).
Proof.
  unfold safe_extract. repeat keeps_step.
  intros st. destruct (extract_members _ _ _) as [[?|] ?]; reflexivity.
Qed.

Lemma keeps_link_assets conv_id msg_id lowered file_map :
  keeps Rdb (link_assets conv_id msg_id lowered file_map).
Proof.
  unfold link_assets. repeat keeps_step. apply tol_link_asset.
Qed.

Lemma keeps_ingest_message export_id conv_id file_map texts msg :
  keeps Rdb (ingest_message export_id conv_id file_map texts msg).
Proof.
  unfold ingest_message.
  repeat (keeps_step || apply keeps_link_assets); apply tol_insert_message.
Qed.

Lemma keeps_ingest_conversation export_id file_map conv :
  keeps Rdb (ingest_conversation export_id file_map conv).
Proof.
  unfold ingest_conversation.
  repeat (keeps_step || apply keeps_ingest_message
          || apply (keeps_categorize _ _ _ tol_insert_category tol_insert_edge));
    apply tol_insert_conversation.
Qed.

Lemma keeps_register_file export_id tmp_path conv_file extracted_dir file_map file :
  keeps Rdb (register_file export_id tmp_path conv_file extracted_dir file_map file).
Proof.
  unfold register_file. repeat keeps_step. apply tol_insert_asset.
Qed.

Lemma keeps_register_assets export_id tmp_path conv_file extracted_dir :
  keeps Rdb (register_assets export_id tmp_path conv_file extracted_dir).
Proof.
  unfold register_assets. repeat keeps_step. apply keeps_register_file.
Qed.

End Keeps.

(** ** parse_export: the outcome recorded *)

#[local] Instance same_exports_preorder : PreOrder same_exports.
Proof.
  split; [by intros d|]. intros d1 d2 d3 H1 H2. unfold same_exports in *. congruence.
Qed.

#[local] Instance same_exports_tolerates : Tolerates same_exports.
Proof. split; reflexivity. Qed.

Lemma mark_outcome_after_status export_id status status' err (l : list export_row) :
  mark_outcome export_id status err <$>
    (exports (update_export_status status' export_id
                (Database l [] [] [] [] [])))
  = mark_outcome export_id status err <$> l.
Proof.
  simpl. rewrite <- list_fmap_compose. apply list_fmap_ext. intros _ r _. simpl.
  unfold mark_outcome. destruct (String.eqb (ex_id r) export_id) eqn:E; simpl; by rewrite E.
Qed.

Lemma exports_update_status status export_id d :
  exports (update_export_status status export_id d) =
  exports (update_export_status status export_id (Database (exports d) [] [] [] [] [])).
Proof. reflexivity. Qed.

Lemma with_temporary_directory_run {A} (body : path -> M A) st :
  with_temporary_directory body st =
  let p := TMP_DIR ++ ["tmp" +:+ pretty (next_uuid st)] in
  let run := body p (State (committed st) (conn st) (<[p := FDir]> (files st))
                           (S (next_uuid st))) in
  (fst run,
   State (committed (snd run)) (conn (snd run)) (rmtree p (files (snd run)))
         (next_uuid (snd run))).
Proof.
  unfold with_temporary_directory, bind, mkdtemp, try_finally, cleanup. simpl.
  destruct (body _ _) as [r st']. reflexivity.
Qed.

(** What the body of the [with] block leaves in [exports]: on success
    the row marked [ready], committed; on an exception nothing yet. *)
Lemma ingest_exports export_id zip_path extracted_dir tmp_path st :
  match ingest export_id zip_path extracted_dir tmp_path st with
  | (Ok _, st') =>
      exports (committed st') = mark_outcome export_id "ready" None <$> exports (conn st)
  | (Raise _, st') => exports (conn st') = exports (conn st)
  end.
Proof.
  unfold ingest, bind.
  pose proof (keeps_safe_extract same_exports zip_path tmp_path st) as H1.
  destruct (safe_extract zip_path tmp_path st) as [[[]|e] s1]; simpl in H1; [|done].
  unfold read_files at 1. simpl.
  destruct (find_manifest tmp_path (files s1)) as [conv_file|]; [|done].
  destruct (read_bytes conv_file (files s1)) as [b|e]; [|done].
  destruct (json_load b) as [payload|e]; [|done].
  destruct payload; try done.
  pose proof (keeps_register_assets same_exports export_id tmp_path conv_file
                extracted_dir s1) as H2.
  destruct (register_assets _ _ _ _ s1) as [[file_map|e] s2]; simpl in H2;
    [|unfold same_exports in *; congruence].
  pose proof (keeps_for_each same_exports l (ingest_conversation export_id file_map)
                (keeps_ingest_conversation same_exports export_id file_map) s2) as H3.
  destruct (for_each l _ s2) as [[[]|e] s3]; simpl in H3;
    [|unfold same_exports in *; congruence].
  simpl. unfold same_exports in *. by rewrite H3, H2, H1.
Qed.

Lemma parse_export_unfold export_id zip_path st :
  parse_export export_id zip_path st =
  match begin_processing export_id st with
  | (Ok extracted_dir, st1) =>
      try_finally
        (try_except
           (with_temporary_directory (ingest export_id zip_path extracted_dir))
           (record_failure export_id))
        close st1
  | (Raise e, st1) => (Raise e, st1)
  end.
Proof. reflexivity. Qed.

(** C1: once the export is marked [processing] and its directories are
    made, [parse_export] returns what the body of the [with] block
    returns, re-raising the very exception the body raised; when the body
    raised, the row of the export is committed with status [failed] and
    the text of the exception as its error message; when it did not, with
    status [ready] and no error message.  Every other row of [exports] is
    as it was. *)
Theorem parse_export_records_outcome export_id zip_path st extracted_dir st1 :
  begin_processing export_id st = (Ok extracted_dir, st1) ->
  let body :=
    fst (with_temporary_directory (ingest export_id zip_path extracted_dir) st1) in
  let run := parse_export export_id zip_path st in
  fst run = body /\
  exports (committed (snd run)) =
    match body with
    | Raise exc => mark_outcome export_id "failed" (Some (str_exc exc))
    | Ok _ => mark_outcome export_id "ready" None
    end <$> exports (committed st).
Proof.
  intros Hb. cbv zeta.
  assert (exports (conn st1) =
          exports (update_export_status "processing" export_id
                     (Database (exports (committed st)) [] [] [] [] []))) as Hst1.
  { revert Hb. unfold begin_processing, bind, get_conn, execute, commit, on_files, ret.
    simpl. destruct (mkdir_p _ _); [|discriminate]. simpl.
    destruct (mkdir_p _ _); [|discriminate]. by intros [= _ <-]. }
  rewrite parse_export_unfold, Hb.
  unfold try_finally, try_except, close.
  rewrite with_temporary_directory_run. cbv zeta.
  pose proof (ingest_exports export_id zip_path extracted_dir
    (TMP_DIR ++ ["tmp" +:+ pretty (next_uuid st1)])
    (State (committed st1) (conn st1)
       (<[TMP_DIR ++ ["tmp" +:+ pretty (next_uuid st1)] := FDir]> (files st1))
       (S (next_uuid st1)))) as Hi.
  destruct (ingest _ _ _ _ _) as [[[]|exc] s2]; simpl in Hi |- *.
  - split; [done|]. rewrite Hi, Hst1. apply mark_outcome_after_status.
  - split; [done|]. rewrite Hi, Hst1.
    apply (mark_outcome_after_status export_id "failed").
Qed.

End Properties.

Lemma parse_export_records_outcome_witness :
  (fst (@parse_export demo_bare_env "e1" demo_zip_path demo_state)
     = Raise (ValueError "Missing conversations.json in ZIP export") /\
   exports (committed (snd (@parse_export demo_bare_env "e1" demo_zip_path demo_state)))
     = [ExportRow "e1" "my export" "failed" "exports/e1/source/export.zip"
          (Some "Missing conversations.json in ZIP export")]) /\
  (fst (@parse_export demo_full_env "e1" demo_zip_path demo_state) = Ok tt /\
   exports (committed (snd (@parse_export demo_full_env "e1" demo_zip_path demo_state)))
     = [ExportRow "e1" "my export" "ready" "exports/e1/source/export.zip" None]).
Proof.
  split.
  - assert (@begin_processing demo_bare_env "e1" demo_state =
            (Ok demo_extracted_dir, snd (@begin_processing demo_bare_env "e1" demo_state)))
      as Hb by (vm_cast_no_check (eq_refl (@begin_processing demo_bare_env "e1" demo_state))).
    pose proof (@parse_export_records_outcome demo_bare_env "e1" demo_zip_path
                  demo_state demo_extracted_dir _ Hb) as H.
    vm_cast_no_check H.
  - assert (@begin_processing demo_full_env "e1" demo_state =
            (Ok demo_extracted_dir, snd (@begin_processing demo_full_env "e1" demo_state)))
      as Hb by (vm_cast_no_check (eq_refl (@begin_processing demo_full_env "e1" demo_state))).
    pose proof (@parse_export_records_outcome demo_full_env "e1" demo_zip_path
                  demo_state demo_extracted_dir _ Hb) as H.
    vm_cast_no_check H.
Defined.

(** ** Linking: the first mention wins *)

Section Linking.
Context {env : Env}.

Lemma fills_refl {A} (o : option A) : fills o o.
Proof. by intros x. Qed.

Lemma fills_coalesce {A} (o : option A) x : fills o (coalesce o x).
Proof. intros y ->. reflexivity. Qed.

Lemma link_kept_refl a : link_kept a a.
Proof. unfold link_kept. repeat split; apply fills_refl. Qed.

Lemma link_kept_trans a b c : link_kept a b -> link_kept b c -> link_kept a c.
Proof.
  unfold link_kept, fills.
  intros (?&?&Hc&Hm&?&?&?&?&?) (?&?&Hc'&Hm'&?&?&?&?&?).
  repeat split; try congruence; eauto.
Qed.

#[local] Instance links_kept_preorder : PreOrder links_kept.
Proof.
  split.
  - intros d i a Ha. exists a. split; [done|apply link_kept_refl].
  - intros d1 d2 d3 H12 H23 i a Ha.
    destruct (H12 i a Ha) as (a2 & Ha2 & K12).
    destruct (H23 i a2 Ha2) as (a3 & Ha3 & K23).
    exists a3. split; [done|]. by eapply link_kept_trans.
Qed.

Lemma links_kept_same_assets d d' : assets d' = assets d -> links_kept d d'.
Proof.
  intros E i a Ha. exists a. rewrite E. split; [done|apply link_kept_refl].
Qed.

#[local] Instance links_kept_tolerates : Tolerates links_kept.
Proof.
  split; intros; try (by apply links_kept_same_assets).
  - (* a row is appended *)
    intros i a Ha. exists a. split; [|apply link_kept_refl].
    simpl. by apply lookup_app_l_Some.
  - (* the link columns are coalesced *)
    intros i x Hx. simpl. rewrite list_lookup_fmap, Hx. simpl.
    eexists. split; [reflexivity|].
    destruct (String.eqb (as_id x) a); [|apply link_kept_refl].
    unfold link_kept. simpl. repeat split; apply fills_coalesce.
Qed.

(** C5: an asset row whose conversation or message column is set keeps
    that value through the statement that links it, through the handling
    of any message and through the whole conversation loop, whatever the
    messages mention; no other column of the row changes either. *)
Theorem linking_first_mention_wins export_id file_map st i a :
  assets (conn st) !! i = Some a ->
  (forall conv_id msg_id asset_id,
     exists a', assets (link_asset conv_id msg_id asset_id (conn st)) !! i = Some a' /\
                link_kept a a') /\
  (forall conv_id texts msg,
     exists a',
       assets (conn (snd (ingest_message export_id conv_id file_map texts msg st))) !! i
         = Some a' /\ link_kept a a') /\
  (forall convs,
     exists a',
       assets (conn (snd (for_each convs (ingest_conversation export_id file_map) st))) !! i
         = Some a' /\ link_kept a a').
Proof.
  intros Ha. split; [|split].
  - intros conv_id msg_id asset_id.
    by apply (tol_link_asset (Rdb := links_kept) conv_id msg_id asset_id (conn st)).
  - intros conv_id texts msg.
    by apply (keeps_ingest_message links_kept export_id conv_id file_map texts msg st).
  - intros convs.
    apply (keeps_for_each links_kept convs (ingest_conversation export_id file_map)
             (keeps_ingest_conversation links_kept export_id file_map) st i a Ha).
Qed.

End Linking.

Lemma linking_first_mention_wins_witness :
  exists a',
    assets (conn (snd (for_each demo_conversations
                         (@ingest_conversation demo_full_env "e1" demo_file_map)
                         demo_linked_state))) !! 0%nat = Some a' /\
    link_kept demo_linked_asset a'.
Proof.
  apply (@linking_first_mention_wins demo_full_env "e1" demo_file_map
           demo_linked_state 0%nat demo_linked_asset).
  reflexivity.
Defined.

Example linking_example :
  (fun a => (as_id a, as_conversation_id a, as_message_id a)) <$>
    assets (conn (snd (for_each demo_conversations
                         (@ingest_conversation demo_full_env "e1" demo_file_map)
                         demo_linked_state)))
  = [("a1", Some "c1", Some "m1"); ("a2", Some "uuid-10", Some "uuid-11")].
Proof. vm_compute. reflexivity. Qed.

(** ** The order of the messages *)

Section MessageOrder.
Context {env : Env}.






(** Missing and unconvertible timestamps get the key [+inf], below
    which no key lies. *)
Lemma nothing_above_PInf k : flt PInf k = false.
Proof. by destruct k. Qed.

Lemma sort_key_missing msg :
  py_get msg "create_time" = Ok JNull -> sort_key msg = Ok PInf.
Proof. unfold sort_key. by intros ->. Qed.

Lemma sort_key_unconvertible msg ct :
  py_get msg "create_time" = Ok ct -> py_float ct = None -> sort_key msg = Ok PInf.
Proof. unfold sort_key. intros -> H. rewrite H. by destruct ct. Qed.










(** C3: with the timestamps 2, NaN, 1 in a mapping, the three messages
    are persisted in that very order, the message of time 2 before the
    message of time 1; without the NaN message the two others are
    persisted in ascending order. *)
Theorem nan_timestamp_breaks_order :
  sort_key (demo_timed_message (JFloat NaN) "nan") = Ok NaN /\
  messages (conn demo_state) = [] /\
  fst (ingest_conversation "e1" [] demo_nan_conversation demo_state) = Ok tt /\
  ms_content_text <$>
    messages (conn (snd (ingest_conversation "e1" [] demo_nan_conversation demo_state)))
  = ["two"; "nan"; "one"] /\
  ms_content_text <$>
    messages (conn (snd (ingest_conversation "e1" [] demo_plain_conversation demo_state)))
  = ["one"; "two"].
Proof. repeat split; vm_compute; reflexivity. Qed.

End MessageOrder.

(** ** Automatic categorization *)

Section Categorizer.

Lemma uuid_str_inj a b : uuid_str a = uuid_str b -> a = b.
Proof.
  unfold uuid_str. simpl. intros H. injection H as H.
  by apply (inj pretty).
Qed.

Lemma select_category_stable export_id slug d d' extra id :
  select_category export_id slug d = Some id ->
  categories d' = categories d ++ extra ->
  select_category export_id slug d' = Some id.
Proof.
  unfold select_category. intros H ->.
  induction (categories d) as [|c l IH]; simpl in *; [discriminate|].
  destruct (String.eqb (cat_export_id c) export_id && String.eqb (cat_slug c) slug)%bool;
    [done|]. by apply IH.
Qed.

Lemma rows_same_id (l : list category_row) c1 c2 :
  NoDup (cat_id <$> l) -> c1 ∈ l -> c2 ∈ l -> cat_id c1 = cat_id c2 -> c1 = c2.
Proof.
  induction l as [|c l IH]; simpl; intros Hnd H1 H2 Heq.
  - by apply elem_of_nil in H1.
  - apply NoDup_cons in Hnd as [Hc Hnd].
    apply elem_of_cons in H1 as [->|H1]; apply elem_of_cons in H2 as [->|H2].
    + done.
    + exfalso. apply Hc. rewrite Heq. by apply list_elem_of_fmap_2.
    + exfalso. apply Hc. rewrite <- Heq. by apply list_elem_of_fmap_2.
    + by apply IH.
Qed.

Lemma ensure_category_ok export_id name is_system st :
  cats_ok st ->
  exists id st1 extra c,
    ensure_category export_id name is_system st = (Ok id, st1) /\
    categories (conn st1) = categories (conn st) ++ extra /\
    conversation_categories (conn st1) = conversation_categories (conn st) /\
    cats_ok st1 /\
    select_category export_id (slugify name) (conn st1) = Some id /\
    c ∈ categories (conn st1) /\ cat_id c = id /\ cat_slug c = slugify name.
Proof.
  intros [Hnd Hfresh]. rewrite ensure_category_unfold.
  destruct (select_category export_id (slugify name) (conn st)) as [id|] eqn:Hsel.
  - destruct (select_category_Some _ _ _ _ Hsel) as (c & Hin & Hid & Hkey).
    exists id, st, [], c. rewrite app_nil_r.
    repeat split; try done. by injection Hkey.
  - set (row := CategoryRow (uuid_str (next_uuid st)) export_id name (slugify name)
                            is_system).
    eexists _, _, [row], row. split; [reflexivity|]. simpl.
    split; [reflexivity|]. split; [reflexivity|].
    split; [|split; [|split; [|by split]]].
    + unfold cats_ok, category_ids in *. simpl. rewrite fmap_app. simpl. split.
      * apply NoDup_app. split; [done|]. split; [|apply NoDup_singleton].
        intros x Hx Hx'. apply list_elem_of_singleton in Hx'. subst x.
        by apply (Hfresh (next_uuid st)).
      * intros k Hk Hin. apply elem_of_app in Hin as [Hin|Hin].
        -- apply (Hfresh k); [lia|done].
        -- apply list_elem_of_singleton in Hin. apply uuid_str_inj in Hin. lia.
    + by apply select_category_inserted.
    + apply elem_of_app. right. apply list_elem_of_singleton. reflexivity.
Qed.

Lemma no_edge_yet conv_id seen d c slug :
  tracked conv_id seen d ->
  NoDup (cat_id <$> categories d) ->
  c ∈ categories d -> cat_slug c = slug -> slug ∉ seen ->
  existsb (same_edge_key conv_id (cat_id c)) (conversation_categories d) = false.
Proof.
  intros Ht Hnd Hc Hs Hseen.
  apply not_true_iff_false. intros Hex.
  apply existsb_exists in Hex as (edge & Hin & Hkey).
  apply andb_true_iff in Hkey as [Hk1 Hk2].
  apply String.eqb_eq in Hk1, Hk2.
  destruct (Ht edge (proj2 (list_elem_of_In _ _) Hin) Hk1) as (c' & Hc' & Hid & Hslug).
  assert (c' = c) as -> by (apply (rows_same_id (categories d)); congruence).
  apply Hseen. by rewrite <- Hs.
Qed.

Lemma rules_loop export_id conv_id text rules :
  forall seen matched st,
    NoDup (seen ++ (rule_slug <$> rules)) ->
    cats_ok st ->
    tracked conv_id seen (conn st) ->
    exists st' new extra,
      for_fold rules matched (apply_rule export_id conv_id text) st
        = (Ok (matched || existsb (rule_matches text) rules)%bool, st') /\
      categories (conn st') = categories (conn st) ++ extra /\
      conversation_categories (conn st') = conversation_categories (conn st) ++ new /\
      Forall2 (edge_of_rule export_id conv_id (conn st'))
              (List.filter (rule_matches text) rules) new /\
      cats_ok st'.
Proof.
  induction rules as [|rule rules IH]; intros seen matched st Hnd Hok Ht.
  - exists st, [], []. simpl. rewrite orb_false_r, !app_nil_r.
    repeat split; try done; try apply Hok.
  - assert (NoDup ((seen ++ [rule_slug rule]) ++ (rule_slug <$> rules))) as Hnd'
      by (by rewrite <- app_assoc).
    assert (rule_slug rule ∉ seen) as Hnew.
    { intros Hin. apply NoDup_app in Hnd as (_ & Hd & _).
      apply (Hd _ Hin). simpl. by left. }
    cbn [for_fold List.filter existsb]. unfold bind at 1, apply_rule at 1.
    destruct (rule_matches text rule) eqn:Hm.
    + destruct (ensure_category_ok export_id (fst rule) 1 st Hok)
        as (id & st1 & extra1 & c & He & Hcat & Hedges & Hok1 & Hsel & Hc & Hid & Hslug).
      unfold bind, execute, ret. rewrite He. simpl.
      assert (existsb (same_edge_key conv_id id) (conversation_categories (conn st1)) = false)
        as Hex.
      { rewrite <- Hid. apply (no_edge_yet conv_id seen (conn st1) c (rule_slug rule)).
        - intros edge Hin Hconv. rewrite Hedges in Hin.
          destruct (Ht edge Hin Hconv) as (c' & Hc' & Hid' & Hs').
          exists c'. rewrite Hcat. split; [|done]. apply elem_of_app. by left.
        - apply Hok1.
        - done.
        - done.
        - done. }
      set (st2 := State (committed st1)
                    (insert_or_ignore_edge (auto_edge conv_id id) (conn st1))
                    (files st1) (next_uuid st1)).
      assert (conversation_categories (conn st2) =
              conversation_categories (conn st) ++ [auto_edge conv_id id]) as Hedges2.
      { unfold st2. simpl. rewrite Hex. by rewrite Hedges. }
      assert (categories (conn st2) = categories (conn st1)) as Hcat2 by reflexivity.
      destruct (IH (seen ++ [rule_slug rule]) true st2 Hnd') as
        (st' & new & extra & Hrun & Hcat' & Hedges' & Hall & Hok').
      { unfold cats_ok, category_ids in *. by rewrite Hcat2. }
      { intros edge Hin Hconv. rewrite Hedges2 in Hin.
        apply elem_of_app in Hin as [Hin|Hin].
        - destruct (Ht edge Hin Hconv) as (c' & Hc' & Hid' & Hs').
          exists c'. rewrite Hcat2, Hcat. split; [apply elem_of_app; by left|].
          split; [done|]. apply elem_of_app. by left.
        - apply list_elem_of_singleton in Hin. subst edge.
          exists c. rewrite Hcat2. split; [done|]. split; [done|].
          apply elem_of_app. right. rewrite Hslug. by apply list_elem_of_singleton. }
      exists st', (auto_edge conv_id id :: new), (extra1 ++ extra).
      split; [by rewrite Hrun, orb_true_r|].
      split; [by rewrite Hcat', Hcat2, Hcat, app_assoc|].
      split; [by rewrite Hedges', Hedges2, <- app_assoc|].
      split; [|done].
      constructor; [|done].
      exists id. split; [|done].
      apply (select_category_stable _ _ (conn st1) _ extra); [done|].
      by rewrite Hcat', Hcat2.
    + unfold ret. simpl.
      destruct (IH (seen ++ [rule_slug rule]) matched st Hnd' Hok) as
        (st' & new & extra & Hrun & Hcat' & Hedges' & Hall & Hok').
      { intros edge Hin Hconv. destruct (Ht edge Hin Hconv) as (c' & Hc' & Hid' & Hs').
        exists c'. split; [done|]. split; [done|]. apply elem_of_app. by left. }
      exists st', new, extra. by rewrite Hrun.
Qed.

Lemma edges_of_none conv_id d cat :
  edges_of conv_id d = [] ->
  existsb (same_edge_key conv_id cat) (conversation_categories d) = false.
Proof.
  unfold edges_of. induction (conversation_categories d) as [|e l IH]; simpl; [done|].
  unfold same_edge_key at 1.
  destruct (String.eqb (cc_conversation_id e) conv_id); [discriminate|]. done.
Qed.

Lemma edges_of_app conv_id (old new : list edge_row) :
  List.filter (fun e => String.eqb (cc_conversation_id e) conv_id) old = [] ->
  Forall (fun e => cc_conversation_id e = conv_id) new ->
  List.filter (fun e => String.eqb (cc_conversation_id e) conv_id) (old ++ new) = new.
Proof.
  intros Ho Hn. rewrite List.filter_app, Ho. simpl.
  induction Hn as [|e l He Hl IH]; simpl; [done|].
  by rewrite He, String.eqb_refl, IH.
Qed.

Lemma edges_of_rules_conv export_id conv_id d rules new :
  Forall2 (edge_of_rule export_id conv_id d) rules new ->
  Forall (fun e => cc_conversation_id e = conv_id) new.
Proof.
  induction 1 as [|r e rs es (id & _ & ->) _ IH]; constructor; done.
Qed.

Lemma rule_slugs_distinct : NoDup ([] ++ (rule_slug <$> CATEGORY_RULES)).
Proof.
  apply (bool_decide_unpack _). by vm_compute.
Qed.

(** When the conversation has no edge yet, automatic categorization
    succeeds and leaves it with a non-empty set of edges: one edge of
    provenance [auto] and confidence 1.0 for each rule that matches the
    text, to the category of that rule's slug; or, when no rule matches,
    exactly one edge, to the category [uncategorized].  The edges of
    other conversations are untouched. *)
Lemma categorize_run export_id conv_id text st :
  edges_of conv_id (conn st) = [] ->
  cats_ok st ->
  let st' := snd (categorize export_id conv_id text st) in
  fst (categorize export_id conv_id text st) = Ok tt /\
  categorized export_id conv_id text (conn st') /\
  edges_of_others conv_id (conn st') = edges_of_others conv_id (conn st).
Proof.
  intros Hnone Hok. cbv zeta.
  destruct (rules_loop export_id conv_id text CATEGORY_RULES [] false st
              rule_slugs_distinct Hok)
    as (st1 & new & extra & Hrun & Hcat & Hedges & Hall & Hok1).
  { intros edge Hin Hconv. exfalso.
    assert (edge ∈ edges_of conv_id (conn st)) as Hin'.
    { apply list_elem_of_In, filter_In. split; [by apply list_elem_of_In|].
      by rewrite Hconv, String.eqb_refl. }
    rewrite Hnone in Hin'. by apply elem_of_nil in Hin'. }
  pose proof (edges_of_rules_conv _ _ _ _ _ Hall) as Hconv.
  assert (edges_of conv_id (conn st1) = new) as Hnew.
  { unfold edges_of. rewrite Hedges. by apply edges_of_app. }
  assert (edges_of_others conv_id (conn st1) = edges_of_others conv_id (conn st))
    as Hothers.
  { unfold edges_of_others. rewrite Hedges, List.filter_app.
    replace (List.filter _ new) with (@nil edge_row); [by rewrite app_nil_r|].
    clear -Hconv. induction Hconv as [|e l He Hl IH]; simpl; [done|].
    by rewrite He, String.eqb_refl. }
  rewrite orb_false_l in Hrun. unfold categorized.
  destruct (existsb (rule_matches text) CATEGORY_RULES) eqn:Hany;
    unfold categorize, bind; rewrite Hrun; cbv beta iota.
  - simpl. split; [done|]. split; [|done]. rewrite Hnew. split; [|done].
    intros ->. apply Forall2_nil_inv_r in Hall.
    apply existsb_exists in Hany as (rule & Hin & Hm).
    assert (In rule (List.filter (rule_matches text) CATEGORY_RULES)) as Hin'
      by (apply filter_In; by split).
    by rewrite Hall in Hin'.
  - destruct (ensure_category_ok export_id "uncategorized" 1 st1 Hok1)
      as (id & st2 & extra2 & c & He & Hcat2 & Hedges2 & Hok2 & Hsel & _).
    rewrite He. unfold execute. simpl.
    assert (new = []) as ->.
    { destruct new as [|e new]; [done|]. exfalso.
      apply Forall2_cons_inv_r in Hall as (rule & rules & _ & _ & Hf).
      assert (In rule (List.filter (rule_matches text) CATEGORY_RULES)) as Hin
        by (rewrite Hf; by left).
      apply filter_In in Hin as [Hin Hm].
      assert (existsb (rule_matches text) CATEGORY_RULES = true) as Hex
        by (apply existsb_exists; by exists rule).
      congruence. }
    rewrite app_nil_r in Hedges.
    assert (edges_of conv_id (conn st2) = []) as Hnone2.
    { unfold edges_of. by rewrite Hedges2, Hedges. }
    unfold edges_of, edges_of_others. simpl.
    rewrite (edges_of_none conv_id (conn st2) id Hnone2).
    rewrite !List.filter_app. simpl. rewrite String.eqb_refl. simpl.
    fold (edges_of conv_id (conn st2)). rewrite Hnone2. simpl.
    split; [done|]. split.
    + split; [done|]. exists id. split; [|done]. exact Hsel.
    + rewrite app_nil_r. by rewrite Hedges2, Hedges.
Qed.

End Categorizer.

(** ** A conversation, from the manifest to its categories *)

Section Conversation.
Context {env : Env}.

Lemma only_assets_refl st : only_assets st st.
Proof. by repeat split. Qed.

Lemma only_assets_trans st1 st2 st3 :
  only_assets st1 st2 -> only_assets st2 st3 -> only_assets st1 st3.
Proof.
  unfold only_assets. intros (?&?&?&?&?&?&?&?) (?&?&?&?&?&?&?&?).
  repeat split; congruence.
Qed.

Lemma bind_run {A B} (c : M A) (k : A -> M B) st a st1 :
  c st = (Ok a, st1) -> bind c k st = k a st1.
Proof. unfold bind. by intros ->. Qed.

Lemma link_ids_run conv_id msg_id (ids : list string) :
  forall st,
    fst (for_each ids (fun asset_id => execute (link_asset conv_id msg_id asset_id)) st)
      = Ok tt /\
    only_assets st
      (snd (for_each ids (fun asset_id =>
              execute (link_asset conv_id msg_id asset_id)) st)).
Proof.
  induction ids as [|id ids IH]; intros st; cbn [for_each].
  - split; [done|apply only_assets_refl].
  - rewrite (bind_run _ _ st tt
               (State (committed st) (link_asset conv_id msg_id id (conn st))
                      (files st) (next_uuid st)) eq_refl).
    destruct (IH (State (committed st) (link_asset conv_id msg_id id (conn st))
                    (files st) (next_uuid st))) as [H1 H2].
    split; [done|]. eapply only_assets_trans; [|exact H2]. by repeat split.
Qed.

Lemma link_assets_run conv_id msg_id lowered file_map :
  forall st,
    fst (link_assets conv_id msg_id lowered file_map st) = Ok tt /\
    only_assets st (snd (link_assets conv_id msg_id lowered file_map st)).
Proof.
  unfold link_assets.
  induction file_map as [|entry file_map IH]; intros st; cbn [for_each].
  - split; [done|apply only_assets_refl].
  - destruct (contains (fst entry) lowered).
    + destruct (link_ids_run conv_id msg_id (snd entry) st) as [H1 H2].
      destruct (for_each (snd entry) _ st) as [r st1] eqn:Hrun.
      simpl in H1, H2. subst r.
      rewrite (bind_run _ _ st tt st1 Hrun).
      destruct (IH st1) as [H3 H4]. split; [done|].
      by eapply only_assets_trans.
    + rewrite (bind_run _ _ st tt st eq_refl). apply IH.
Qed.

Lemma blob_texts_cons row rows :
  blob_texts (row :: rows) = blob_texts [row] ++ blob_texts rows.
Proof.
  unfold blob_texts. simpl. by destruct (negb (str_empty (ms_content_text row))).
Qed.

Lemma ingest_message_run export_id conv_id file_map texts msg st texts' st' :
  ingest_message export_id conv_id file_map texts msg st = (Ok texts', st') ->
  exists row,
    row_of_message conv_id msg row /\
    messages (conn st') = messages (conn st) ++ [row] /\
    texts' = texts ++ blob_texts [row] /\
    categories (conn st') = categories (conn st) /\
    conversation_categories (conn st') = conversation_categories (conn st) /\
    next_uuid st' = S (next_uuid st).
Proof.
  unfold ingest_message, bind, lift, uuid4, execute, ret.
  destruct (message_text msg) as [text|e] eqn:Htext; [|discriminate].
  destruct (message_role msg) as [role|e]; [|discriminate].
  destruct (py_get msg "create_time") as [ct|e]; [|discriminate].
  destruct (bind_param 4 role) as [role_v|e]; [|discriminate]. simpl.
  set (row := MessageRow (uuid_str (next_uuid st)) export_id conv_id role_v text
                         (parse_iso_or_none ct)).
  set (st1 := State (committed st) (insert_message row (conn st)) (files st)
                    (S (next_uuid st))).
  destruct (str_empty text) eqn:Hempty.
  - intros [= <- <-]. exists row. split; [by split|]. split; [done|].
    split; [|done]. unfold blob_texts. simpl. rewrite Hempty. simpl.
    by rewrite app_nil_r.
  - destruct (link_assets_run conv_id (uuid_str (next_uuid st)) (lower text) file_map st1)
      as [H1 (_ & _ & Hn & _ & _ & Hm & Hc & He)].
    destruct (link_assets _ _ _ _ st1) as [r st2]. simpl in H1, Hn, Hm, Hc, He. subst r.
    intros [= <- <-]. exists row. split; [by split|].
    split; [by rewrite Hm|]. split; [|by rewrite Hc, He, Hn].
    unfold blob_texts. simpl. by rewrite Hempty.
Qed.

Lemma message_loop_run export_id conv_id file_map ordered :
  forall texts st texts' st',
    for_fold ordered texts (ingest_message export_id conv_id file_map) st
      = (Ok texts', st') ->
    exists rows,
      Forall2 (row_of_message conv_id) ordered rows /\
      messages (conn st') = messages (conn st) ++ rows /\
      texts' = texts ++ blob_texts rows /\
      categories (conn st') = categories (conn st) /\
      conversation_categories (conn st') = conversation_categories (conn st) /\
      next_uuid st <= next_uuid st'.
Proof.
  induction ordered as [|msg ordered IH]; intros texts st texts' st'; simpl.
  - intros [= <- <-]. exists []. rewrite !app_nil_r. by repeat split.
  - unfold bind.
    destruct (ingest_message export_id conv_id file_map texts msg st)
      as [[texts1|e] st1] eqn:Hstep; [|discriminate].
    intros Hrest.
    destruct (ingest_message_run _ _ _ _ _ _ _ _ Hstep)
      as (row & Hrow & Hm & Ht & Hc & He & Hn).
    destruct (IH _ _ _ _ Hrest) as (rows & Hrows & Hm' & Ht' & Hc' & He' & Hn').
    exists (row :: rows). split; [by constructor|].
    split; [by rewrite Hm', Hm, <- app_assoc|].
    split; [by rewrite Ht', Ht, (blob_texts_cons row rows), app_assoc|].
    split; [congruence|]. split; [congruence|]. lia.
Qed.

#[local] Instance same_messages_preorder : PreOrder same_messages.
Proof.
  split; [by intros d|]. intros d1 d2 d3 H1 H2. unfold same_messages in *. congruence.
Qed.

(** C4: a conversation that is ingested without an exception, its
    identifier being the one [uuid4] draws first, ends with a non-empty
    set of category edges.  Its messages are persisted in the order of
    the sorted mapping; its text blob is the title and the non-empty
    message texts, joined by newlines and lower-cased; each rule that
    matches the blob yields one edge of provenance [auto] and confidence
    1.0, to the category of the rule's slug; when no rule matches there
    is exactly one edge, to the category [uncategorized]. *)
Theorem ingest_conversation_categorized export_id file_map conv st st' :
  cats_ok st ->
  fresh_edges st ->
  ingest_conversation export_id file_map conv st = (Ok tt, st') ->
  let conv_id := uuid_str (next_uuid st) in
  exists title0 title mapping values nodes ordered rows,
    py_get conv "title" = Ok title0 /\
    py_or title0 (JStr "Untitled") = JStr title /\
    py_get conv "mapping" = Ok mapping /\
    py_values (py_or mapping (JObj [])) = Ok values /\
    collect_messages values = Ok nodes /\
    sorted_nodes nodes = Ok ordered /\
    Forall2 (row_of_message conv_id) ordered rows /\
    messages (conn st') = messages (conn st) ++ rows /\
    categorized export_id conv_id
      (lower (join newline (title :: blob_texts rows))) (conn st').
Proof.
  intros Hok Hfresh Hrun. cbv zeta.
  unfold ingest_conversation, bind, uuid4, lift, execute in Hrun.
  destruct (py_get conv "id") as [external_id|e]; [|discriminate].
  destruct (py_get conv "title") as [title0|e]; [|discriminate].
  destruct (py_get conv "create_time") as [create_time|e]; [|discriminate].
  destruct (bind_param 3 external_id) as [external_v|e]; [|discriminate].
  destruct (bind_param 4 (py_or title0 (JStr "Untitled"))) as [title_v|e]; [|discriminate].
  destruct (py_get conv "mapping") as [mapping|e]; [|discriminate].
  destruct (py_values (py_or mapping (JObj []))) as [values|e] eqn:Hvalues;
    [|discriminate].
  destruct (collect_messages values) as [nodes|e] eqn:Hnodes; [|discriminate].
  destruct (sorted_nodes nodes) as [ordered|e] eqn:Hordered; [|discriminate].
  cbn [conn committed files next_uuid] in Hrun.
  match type of Hrun with
  | context [for_fold ordered [] _ ?s] => set (st1 := s) in Hrun
  end.
  destruct (for_fold ordered [] _ st1) as [[texts|e] st2] eqn:Hloop; [|discriminate].
  destruct (message_loop_run _ _ _ _ _ _ _ _ Hloop)
    as (rows & Hrows & Hm & Ht & Hc & He & Hn).
  rewrite app_nil_l in Ht. subst texts.
  destruct (conversation_blob (py_or title0 (JStr "Untitled")) (blob_texts rows))
    as [text|e] eqn:Hblob; [|discriminate].
  unfold conversation_blob in Hblob.
  destruct (py_or title0 (JStr "Untitled")) as [| | | |title| |] eqn:Htitle;
    try discriminate.
  assert (text = lower (join newline (title :: blob_texts rows))) as Htext
    by congruence.
  clear Hblob.
  assert (edges_of (uuid_str (next_uuid st)) (conn st2) = []) as Hnone.
  { unfold edges_of. rewrite He. apply (Hfresh (next_uuid st)). lia. }
  assert (cats_ok st2) as Hok2.
  { destruct Hok as [Hnd Hf]. unfold cats_ok, category_ids in *. rewrite Hc.
    split; [done|]. intros k Hk. apply Hf. simpl in Hn. lia. }
  destruct (categorize_run export_id (uuid_str (next_uuid st)) text st2 Hnone Hok2)
    as (Hres & Hcat & _).
  pose proof (keeps_categorize same_messages export_id (uuid_str (next_uuid st)) text
                ltac:(by intros) ltac:(by intros) st2) as Hmsg.
  rewrite Hrun in Hres, Hcat, Hmsg. cbn [fst snd] in Hcat, Hmsg.
  exists title0, title, mapping, values, nodes, ordered, rows.
  repeat (split; [done|]). split; [|by rewrite <- Htext].
  unfold same_messages in Hmsg. by rewrite Hmsg, Hm.
Qed.

End Conversation.

Lemma demo_state_cats_ok : cats_ok demo_state.
Proof.
  split.
  - apply (bool_decide_unpack _). by vm_compute.
  - intros k _ Hin. unfold category_ids, uuid_str in Hin. simpl in Hin.
    apply elem_of_cons in Hin as [Hin|Hin]; [discriminate|].
    apply elem_of_cons in Hin as [Hin|Hin]; [discriminate|].
    by apply elem_of_nil in Hin.
Defined.

Lemma demo_state_fresh_edges : fresh_edges demo_state.
Proof. intros k _. reflexivity. Defined.

Lemma ingest_conversation_categorized_witness :
  exists title0 title mapping values nodes ordered rows,
    py_get demo_conversation "title" = Ok title0 /\
    py_or title0 (JStr "Untitled") = JStr title /\
    py_get demo_conversation "mapping" = Ok mapping /\
    py_values (py_or mapping (JObj [])) = Ok values /\
    collect_messages values = Ok nodes /\
    @sorted_nodes demo_full_env nodes = Ok ordered /\
    Forall2 (@row_of_message demo_full_env (uuid_str (next_uuid demo_state))) ordered rows /\
    messages (conn (snd (@ingest_conversation demo_full_env "e1" [] demo_conversation
                           demo_state)))
      = messages (conn demo_state) ++ rows /\
    categorized "e1" (uuid_str (next_uuid demo_state))
      (lower (join newline (title :: blob_texts rows)))
      (conn (snd (@ingest_conversation demo_full_env "e1" [] demo_conversation
                    demo_state))).
Proof.
  apply (@ingest_conversation_categorized demo_full_env "e1" [] demo_conversation
           demo_state).
  - apply demo_state_cats_ok.
  - apply demo_state_fresh_edges.
  - vm_cast_no_check
      (eq_refl (@ingest_conversation demo_full_env "e1" [] demo_conversation demo_state)).
Defined.

Example ingest_conversation_example :
  edges_of "uuid-0"
    (conn (snd (@ingest_conversation demo_full_env "e1" [] demo_conversation demo_state)))
  = [EdgeRow "uuid-0" "k1" "auto" (Some 1%Q)] /\
  (fun m => (ms_role m, ms_content_text m)) <$>
    messages (conn (snd (@ingest_conversation demo_full_env "e1" [] demo_conversation
                           demo_state)))
  = [(SText "user", "My dog needs a vet checkup, see Photo.PNG")].
Proof. split; vm_compute; reflexivity. Qed.

Example categorize_examples :
  edges_of "c9" (conn (snd (categorize "e1" "c9" "my dog ate at a restaurant" demo_state)))
  = [EdgeRow "c9" "k1" "auto" (Some 1%Q); EdgeRow "c9" "k2" "auto" (Some 1%Q)] /\
  edges_of "c9" (conn (snd (categorize "e1" "c9" "nothing of note" demo_state)))
  = [EdgeRow "c9" "uuid-0" "auto" (Some 1%Q)] /\
  select_category "e1" "uncategorized"
    (conn (snd (categorize "e1" "c9" "nothing of note" demo_state))) = Some "uuid-0".
Proof. repeat split. Qed.

(** ** The file system and safe_extract *)

Section Extraction.

Lemma node_at_nonempty (f : fs) q : q <> [] -> node_at f q = f !! q.
Proof. by destruct q. Qed.

Lemma on_way_nonempty pre rest q : on_way pre rest q -> q <> [].
Proof.
  intros (a & b & Ha & _ & ->) Hq. apply app_eq_nil in Hq as [_ ?]. done.
Qed.

Lemma on_way_cons pre c rest q :
  on_way pre (c :: rest) q <-> q = pre ++ [c] \/ on_way (pre ++ [c]) rest q.
Proof.
  split.
  - intros (a & b & Ha & Hr & ->). destruct a as [|x a]; [done|].
    simpl in Hr. injection Hr as <- ->.
    destruct a as [|y a]; [by left|]. right.
    exists (y :: a), b. split; [done|]. split; [done|].
    by rewrite <- app_assoc.
  - intros [->|(a & b & Ha & -> & ->)].
    + exists [c], rest. by repeat split.
    + exists (c :: a), b. split; [done|]. split; [done|]. by rewrite <- app_assoc.
Qed.

Lemma not_on_way_self pre rest : ~ on_way pre rest pre.
Proof.
  intros (a & b & Ha & _ & Hq). apply Ha.
  rewrite <- (app_nil_r pre) in Hq at 1. by apply app_inv_head in Hq.
Qed.

Lemma on_way_prefix pre rest q : on_way pre rest q -> q `prefix_of` pre ++ rest.
Proof.
  intros (a & b & _ & -> & ->). exists b. by rewrite app_assoc.
Qed.

(** What a successful [mkdir_from] leaves: directories at the places on
    its way, every other place and every place that held a node as it
    was. *)
Lemma mkdir_from_ok full rest :
  forall pre (f f' : fs),
    mkdir_from full pre rest f = Ok f' ->
    (forall q, on_way pre rest q -> f' !! q = Some FDir) /\
    (forall q, ~ on_way pre rest q -> f' !! q = f !! q) /\
    (forall q, is_Some (f !! q) -> f' !! q = f !! q).
Proof.
  induction rest as [|c rest IH]; intros pre f f' Hm; simpl in Hm.
  - injection Hm as <-. split; [|done].
    intros q (a & b & Ha & Hr & _). symmetry in Hr.
    apply app_eq_nil in Hr as [? _]. done.
  - destruct (f !! (pre ++ [c])) as [[|content]|] eqn:Hp.
    + destruct (IH _ _ _ Hm) as (H1 & H2 & H3).
      split; [|split].
      * intros q Hq. apply on_way_cons in Hq as [->|Hq]; [|by apply H1].
        rewrite H2; [done|apply not_on_way_self].
      * intros q Hq. apply H2. intros Hq'. apply Hq, on_way_cons. by right.
      * done.
    + by destruct rest.
    + destruct (IH _ _ _ Hm) as (H1 & H2 & H3).
      split; [|split].
      * intros q Hq. apply on_way_cons in Hq as [->|Hq]; [|by apply H1].
        rewrite H2; [|apply not_on_way_self]. apply lookup_insert_eq.
      * intros q Hq.
        assert (q <> pre ++ [c]) as Hne
          by (intros ->; apply Hq, on_way_cons; by left).
        rewrite H2; [by rewrite lookup_insert_ne|].
        intros Hq'. apply Hq, on_way_cons. by right.
      * intros q Hq.
        assert (q <> pre ++ [c]) as Hne.
        { intros ->. rewrite Hp in Hq. by destruct Hq. }
        rewrite H3; [by rewrite lookup_insert_ne|].
        by rewrite lookup_insert_ne.
Qed.

Lemma mkdir_from_succeeds full rest :
  forall pre (f : fs),
    (forall q, on_way pre rest q -> is_file f q = false) ->
    exists f', mkdir_from full pre rest f = Ok f'.
Proof.
  induction rest as [|c rest IH]; intros pre f Hclear; simpl; [by eexists|].
  assert (is_file f (pre ++ [c]) = false) as Hc
    by (apply Hclear, on_way_cons; by left).
  unfold is_file in Hc. rewrite node_at_nonempty in Hc
    by (intros H; apply app_eq_nil in H as [_ ?]; done).
  destruct (f !! (pre ++ [c])) as [[|content]|] eqn:Hp; [|done|].
  - apply IH. intros q Hq. apply Hclear, on_way_cons. by right.
  - apply IH. intros q Hq.
    assert (q <> pre ++ [c]) as Hne by (intros ->; by apply (not_on_way_self _ _ Hq)).
    unfold is_file. rewrite node_at_nonempty by (by eapply on_way_nonempty).
    rewrite lookup_insert_ne by done.
    specialize (Hclear q). unfold is_file in Hclear.
    rewrite node_at_nonempty in Hclear by (by eapply on_way_nonempty).
    apply Hclear, on_way_cons. by right.
Qed.

Lemma on_way_root p q : on_way [] p q <-> q <> [] /\ q `prefix_of` p.
Proof.
  split.
  - intros Hq. split; [by eapply on_way_nonempty|]. by apply on_way_prefix in Hq.
  - intros [Hne [b ->]]. by exists q, b.
Qed.

Lemma is_dir_after_mkdir_p (p : path) (f f' : fs) : mkdir_p p f = Ok f' -> is_dir f' p = true.
Proof.
  intros Hm. destruct (mkdir_from_ok _ _ _ _ _ Hm) as (H1 & _).
  unfold is_dir. destruct p as [|c p]; [done|].
  rewrite node_at_nonempty by done.
  rewrite H1; [done|]. apply on_way_root. by split.
Qed.

Lemma removelast_prefix (l : path) : removelast l `prefix_of` l.
Proof.
  destruct l as [|x l]; [done|].
  exists [List.last (x :: l) ""]. by apply app_removelast_last.
Qed.

Lemma strict_prefix_removelast (q l : path) :
  q `prefix_of` l -> q <> l -> q `prefix_of` removelast l.
Proof.
  intros [k ->] Hne.
  destruct k as [|x k] using rev_ind; [by rewrite app_nil_r in Hne|].
  rewrite app_assoc, removelast_last. by exists k.
Qed.

Lemma removelast_shorter (l : path) : l <> [] -> removelast l <> l.
Proof.
  intros Hl He. apply (f_equal length) in He.
  rewrite (app_removelast_last "" Hl) in He at 2.
  rewrite length_app in He. simpl in He. lia.
Qed.

Lemma write_file_ok (t : path) (b : list Byte.byte) (f f' : fs) :
  write_file t b f = Ok f' -> f' = <[t := FFile b]> f /\ is_dir f t = false.
Proof.
  unfold write_file, is_dir.
  destruct (node_at f t) as [[|?]|]; [done| |];
    destruct (node_at f (parent t)) as [[|?]|]; try done; by intros [= <-].
Qed.

Lemma dir_chain_is_dir (f : fs) (dest : path) : dir_chain f dest -> is_dir f dest = true.
Proof.
  intros Hc. unfold is_dir. destruct dest as [|c d]; [done|].
  rewrite node_at_nonempty by done. by rewrite Hc.
Qed.

(** Making directories towards a place below [dest] changes nothing
    outside [dest]. *)
Lemma mkdir_p_confined (dest q rest : path) (f f' : fs) :
  dir_chain f dest ->
  q `prefix_of` dest ++ rest ->
  mkdir_p q f = Ok f' ->
  dir_chain f' dest /\ forall p, ~ dest `prefix_of` p -> f' !! p = f !! p.
Proof.
  intros Hc Hq Hm. destruct (mkdir_from_ok _ _ _ _ _ Hm) as (H1 & H2 & H3).
  split.
  - intros x Hx Hpre. rewrite H3; [by apply Hc|]. rewrite (Hc x Hx Hpre). by eexists.
  - intros p Hp.
    destruct (decide (p <> [] /\ p `prefix_of` q)) as [Hw|Hw];
      [|apply H2; by rewrite on_way_root].
    destruct Hw as [Hne Hpq].
    assert (p `prefix_of` dest ++ rest) as Hpd by (by etransitivity).
    destruct (prefix_weak_total p dest (dest ++ rest) Hpd) as [Hpre|Hpre];
      [by apply prefix_app_r| |done].
    rewrite H3; [done|]. rewrite (Hc p Hne Hpre). by eexists.
Qed.

Lemma write_file_confined (dest t : path) (b : list Byte.byte) (f f' : fs) :
  dir_chain f dest ->
  dest `prefix_of` t ->
  write_file t b f = Ok f' ->
  dir_chain f' dest /\ forall p, ~ dest `prefix_of` p -> f' !! p = f !! p.
Proof.
  intros Hc Ht Hw. apply write_file_ok in Hw as [-> Hnd].
  assert (t <> dest) as Hne by (intros ->; by rewrite dir_chain_is_dir in Hnd).
  split.
  - intros x Hx Hpre.
    assert (x <> t) as Hxt.
    { intros ->. apply Hne. by apply (anti_symm prefix). }
    rewrite lookup_insert_ne by done. by apply Hc.
  - intros p Hp. rewrite lookup_insert_ne; [done|]. by intros ->.
Qed.

Lemma path_join_relative dest filename :
  escapes filename = false -> path_join dest filename = dest ++ path_parts filename.
Proof.
  unfold escapes, path_join. intros H. apply orb_false_iff in H as [-> _]. done.
Qed.

Lemma extract_member_confined (dest : path) (m : zip_member) (f : fs) :
  dir_chain f dest ->
  dir_chain (snd (extract_member dest m f)) dest /\
  forall p, ~ dest `prefix_of` p -> snd (extract_member dest m f) !! p = f !! p.
Proof.
  intros Hc. unfold extract_member.
  destruct (escapes (zm_filename m)) eqn:He; [done|].
  rewrite (path_join_relative _ _ He).
  set (target := dest ++ path_parts (zm_filename m)).
  destruct (mkdir_p (parent target) f) as [f1|e] eqn:Hm1; [|done].
  destruct (mkdir_p_confined dest (parent target) (path_parts (zm_filename m)) f f1 Hc
              (removelast_prefix target) Hm1) as [Hc1 Ho1].
  destruct (ends_with_slash (zm_filename m)).
  - destruct (mkdir_p target f1) as [f2|e] eqn:Hm2; [|done]. simpl.
    destruct (mkdir_p_confined dest target (path_parts (zm_filename m)) f1 f2 Hc1
                ltac:(done) Hm2) as [Hc2 Ho2].
    split; [done|]. intros p Hp. by rewrite Ho2, Ho1.
  - destruct (zm_data m) as [b|e]; [|done].
    destruct (write_file target b f1) as [f2|e] eqn:Hw; [|done]. simpl.
    destruct (write_file_confined dest target b f1 f2 Hc1 ltac:(by exists (path_parts (zm_filename m))) Hw) as [Hc2 Ho2].
    split; [done|]. intros p Hp. by rewrite Ho2, Ho1.
Qed.

Lemma extract_members_confined dest ms :
  forall f : fs,
    dir_chain f dest ->
    forall p, ~ dest `prefix_of` p -> snd (extract_members dest ms f) !! p = f !! p.
Proof.
  induction ms as [|m ms IH]; intros f Hc p Hp; simpl; [done|].
  destruct (extract_member_confined dest m f Hc) as [Hc1 Ho1].
  destruct (extract_member dest m f) as [[e|] f1]; simpl in *; [by apply Ho1|].
  rewrite IH; [by apply Ho1|done|done].
Qed.

Lemma extract_members_skips dest ms :
  forall f : fs,
    extract_members dest ms f = extract_members dest (List.filter kept_member ms) f.
Proof.
  induction ms as [|m ms IH]; intros f; simpl; [done|].
  unfold kept_member at 1. destruct (escapes (zm_filename m)) eqn:He; simpl.
  - unfold extract_member. rewrite He. apply IH.
  - destruct (extract_member dest m f) as [[e|] f1]; [done|apply IH].
Qed.

(** A member that does not escape is extracted when no file lies on
    the way to its target and the target is not of the other kind. *)
Lemma extract_member_effect (dest : path) (m : zip_member) (f : fs) :
  escapes (zm_filename m) = false ->
  let target := dest ++ path_parts (zm_filename m) in
  way_clear f target ->
  if ends_with_slash (zm_filename m) then
    is_file f target = false ->
    fst (extract_member dest m f) = None /\
    is_dir (snd (extract_member dest m f)) target = true
  else
    forall b, zm_data m = Ok b ->
    is_dir f target = false ->
    fst (extract_member dest m f) = None /\
    snd (extract_member dest m f) !! target = Some (FFile b).
Proof.
  intros He target Hclear. unfold extract_member. rewrite He.
  rewrite (path_join_relative _ _ He). fold target.
  destruct (mkdir_from_succeeds (parent target) (parent target) [] f) as [f1 Hm1].
  { intros q Hq. apply on_way_root in Hq as [Hne Hq].
    apply Hclear; [etransitivity; [exact Hq|apply removelast_prefix]|].
    intros ->. apply prefix_length in Hq.
    destruct target as [|c t] using rev_ind; [done|].
    unfold parent in Hq. rewrite removelast_last, length_app in Hq. simpl in Hq. lia. }
  fold (mkdir_p (parent target) f) in Hm1. rewrite Hm1.
  destruct (mkdir_from_ok _ _ _ _ _ Hm1) as (H1 & H2 & H3).
  assert (target <> [] -> f1 !! target = f !! target) as Hsame.
  { intros Hne. apply H2. intros Hw. apply on_way_root in Hw as [_ Hw].
    apply prefix_length in Hw. unfold parent in Hw.
    rewrite (app_removelast_last "" Hne) in Hw at 1.
    rewrite length_app in Hw. simpl in Hw. lia. }
  destruct (ends_with_slash (zm_filename m)).
  - intros Hnf.
    destruct (mkdir_from_succeeds target target [] f1) as [f2 Hm2].
    { intros q Hq. apply on_way_root in Hq as [Hne Hq].
      destruct (decide (q = target)) as [->|Hqt].
      - unfold is_file in *. rewrite node_at_nonempty in * by done.
        by rewrite Hsame.
      - unfold is_file. rewrite node_at_nonempty by done.
        rewrite H1; [done|]. apply on_way_root. split; [done|].
        by apply strict_prefix_removelast. }
    fold (mkdir_p target f1) in Hm2. rewrite Hm2. simpl.
    split; [done|]. by apply is_dir_after_mkdir_p in Hm2.
  - intros b -> Hnd.
    assert (target <> []) as Hne by (intros E; by rewrite E in Hnd).
    unfold write_file.
    unfold is_dir in Hnd. rewrite node_at_nonempty in * by done.
    rewrite Hsame by done.
    assert (node_at f1 (parent target) = Some FDir) as ->.
    { destruct (parent target) as [|c t] eqn:Hp; [done|].
      rewrite node_at_nonempty by done. apply H1. apply on_way_root. by split. }
    destruct (f !! target) as [[|?]|]; [done| |]; simpl;
      (split; [done|apply lookup_insert_eq]).
Qed.

End Extraction.

Section SafeExtract.
Context {env : Env}.

(** C7: a member whose name is absolute or has a [..] component is
    skipped: it raises nothing, writes nothing, and the extraction goes
    as if the archive did not hold it.  Whatever the archive holds, and
    whether or not the extraction raises, no place outside the
    destination changes.  Every other member is extracted below the
    destination, a directory made or the content written, when no file
    lies on the way to its place and that place is not taken by a node
    of the other kind. *)
Theorem safe_extract_confined (zip_path dest : path) (st : state) :
  dir_chain (files st) dest ->
  (forall p, ~ dest `prefix_of` p ->
     files (snd (safe_extract zip_path dest st)) !! p = files st !! p) /\
  (forall m (f : fs), escapes (zm_filename m) = true -> extract_member dest m f = (None, f)) /\
  (forall ms (f : fs),
     extract_members dest ms f = extract_members dest (List.filter kept_member ms) f) /\
  (forall m (f : fs),
     escapes (zm_filename m) = false ->
     let target := dest ++ path_parts (zm_filename m) in
     dest `prefix_of` target /\
     (way_clear f target ->
      if ends_with_slash (zm_filename m) then
        is_file f target = false ->
        fst (extract_member dest m f) = None /\
        is_dir (snd (extract_member dest m f)) target = true
      else
        forall b, zm_data m = Ok b ->
        is_dir f target = false ->
        fst (extract_member dest m f) = None /\
        snd (extract_member dest m f) !! target = Some (FFile b))).
Proof.
  intros Hc. split; [|split; [|split]].
  - intros p Hp. unfold safe_extract, bind, read_files, lift. simpl.
    destruct (read_bytes zip_path (files st)) as [b|e]; [|done].
    destruct (zipfile_open b) as [ms|e]; [|done].
    pose proof (extract_members_confined dest ms (files st) Hc p Hp) as H.
    by destruct (extract_members dest ms (files st)) as [[e|] f'].
  - intros m f He. unfold extract_member. by rewrite He.
  - intros ms f. apply extract_members_skips.
  - intros m f He. split; [by eexists|].
    apply (extract_member_effect dest m f He).
Qed.

End SafeExtract.

Lemma demo_tmp_dir_chain : dir_chain (files demo_tmp_state) demo_tmp.
Proof.
  intros q Hne [k Hk]. unfold demo_tmp in Hk.
  destruct q as [|a [|b [|c q]]]; [done| | |discriminate].
  - injection Hk as <- _. reflexivity.
  - injection Hk as <- <- _. reflexivity.
Defined.

Lemma demo_way_clear :
  way_clear (files demo_tmp_state) (demo_tmp ++ path_parts "media/photo.png").
Proof.
  intros q [k Hk] Hne. vm_compute in Hk.
  destruct q as [|a [|b [|c [|d q]]]].
  - reflexivity.
  - injection Hk as <- _. reflexivity.
  - injection Hk as <- <- _. reflexivity.
  - injection Hk as <- <- <- _. reflexivity.
  - exfalso. apply Hne. injection Hk as <- <- <- <- Hk.
    destruct q; [reflexivity|discriminate].
Defined.

Lemma safe_extract_confined_witness :
  files (snd (@safe_extract demo_full_env demo_zip_path demo_tmp demo_tmp_state))
    !! ["etc"; "passwd"] = files demo_tmp_state !! ["etc"; "passwd"] /\
  extract_member demo_tmp (ZipMember "../evil.png" (Ok [Byte.x00])) (files demo_tmp_state)
    = (None, files demo_tmp_state) /\
  (fst (extract_member demo_tmp (ZipMember "media/photo.png" (Ok [Byte.x89; Byte.x50]))
          (files demo_tmp_state)) = None /\
   snd (extract_member demo_tmp (ZipMember "media/photo.png" (Ok [Byte.x89; Byte.x50]))
          (files demo_tmp_state)) !! (demo_tmp ++ path_parts "media/photo.png")
     = Some (FFile [Byte.x89; Byte.x50])).
Proof.
  pose proof (@safe_extract_confined demo_full_env demo_zip_path demo_tmp demo_tmp_state
                demo_tmp_dir_chain) as (H1 & H2 & _ & H4).
  split; [|split].
  - apply H1. intros [k Hk]. discriminate.
  - by apply H2.
  - destruct (H4 (ZipMember "media/photo.png" (Ok [Byte.x89; Byte.x50]))
                (files demo_tmp_state) eq_refl) as [_ H5].
    apply (H5 demo_way_clear [Byte.x89; Byte.x50] eq_refl eq_refl).
Defined.

Example safe_extract_example :
  let st' := snd (@safe_extract demo_full_env demo_zip_path demo_tmp demo_tmp_state) in
  fst (@safe_extract demo_full_env demo_zip_path demo_tmp demo_tmp_state) = Ok tt /\
  files st' !! ["tmp"; "tmp0"; "media"; "photo.png"] = Some (FFile [Byte.x89; Byte.x50]) /\
  files st' !! ["tmp"; "tmp0"; "conversations.json"] = Some (FFile []) /\
  files st' !! ["tmp"; "tmp0"; "media"] = Some FDir /\
  files st' !! ["tmp"; "evil.png"] = None /\
  files st' !! ["etc"; "passwd"] = None /\
  length (rglob demo_tmp (files st')) = 3.
Proof. cbv zeta. repeat split; vm_compute; reflexivity. Qed.

(** ** Registration of the assets *)

Section Registration.
Context {env : Env}.

Lemma register_file_run export_id (tmp_path conv_file extracted_dir : path) fm
    (file : path) st :
  register_file export_id tmp_path conv_file extracted_dir fm file st =
  if (negb (is_file (files st) file) || bool_decide (file = conv_file))%bool
  then (Ok fm, st)
  else
    let target := target_of tmp_path extracted_dir file in
    match mkdir_p (parent target) (files st) with
    | Raise e => (Raise e, st)
    | Ok f1 =>
        match copy2 file target f1 with
        | Raise e => (Raise e, State (committed st) (conn st) f1 (next_uuid st))
        | Ok f2 =>
            match classify_asset (basename file) with
            | None => (Ok fm, State (committed st) (conn st) f2 (next_uuid st))
            | Some asset_type =>
                match read_bytes file f2 with
                | Raise e => (Raise e, State (committed st) (conn st) f2 (next_uuid st))
                | Ok b =>
                    match relative_to target STORAGE_DIR with
                    | Raise e =>
                        (Raise e, State (committed st) (conn st) f2 (S (next_uuid st)))
                    | Ok storage =>
                        (Ok (file_map_add (lower (basename file))
                               (uuid_str (next_uuid st)) fm),
                         State (committed st)
                           (insert_asset
                              (AssetRow (uuid_str (next_uuid st)) export_id None None
                                 asset_type (basename file) (join "/" storage)
                                 (length b) (sha256_hexdigest b))
                              (conn st))
                           f2 (S (next_uuid st)))
                    end
                end
            end
        end
    end.
Proof.
  unfold register_file, bind, read_files, on_files, lift, ret, uuid4, execute, target_of.
  simpl.
  destruct (negb (is_file (files st) file) || bool_decide (file = conv_file))%bool;
    [by destruct st|].
  destruct (mkdir_p _ (files st)) as [f1|e]; [|done]. simpl.
  destruct (copy2 file _ f1) as [f2|e]; [|done]. simpl.
  destruct (classify_asset (basename file)); [|done]. simpl.
  destruct (read_bytes file f2); [|done]. simpl.
  destruct (relative_to _ STORAGE_DIR); done.
Qed.

Section Loop.
Variables (export_id : string) (tmp_path conv_file extracted_dir : path).
Variables (f0 : fs) (assets0 : list asset_row).
Hypothesis Hdisj1 : ~ tmp_path `prefix_of` extracted_dir.
Hypothesis Hdisj2 : ~ extracted_dir `prefix_of` tmp_path.
Hypothesis Htree : tree_shaped f0.

Lemma apart (q r : path) :
  tmp_path `prefix_of` q -> q `prefix_of` extracted_dir ++ r -> False.
Proof.
  intros Hq Hr.
  destruct (prefix_weak_total q extracted_dir (extracted_dir ++ r) Hr) as [H|H];
    [by apply prefix_app_r| |].
  - apply Hdisj1. by etransitivity.
  - destruct (prefix_weak_total tmp_path extracted_dir q Hq H); done.
Qed.

Lemma below_tmp (k : path) :
  tmp_path `prefix_of` k -> k = tmp_path ++ drop (length tmp_path) k.
Proof. intros [r ->]. by rewrite drop_app_length. Qed.

Lemma target_of_inj (k1 k2 : path) :
  tmp_path `prefix_of` k1 -> tmp_path `prefix_of` k2 ->
  target_of tmp_path extracted_dir k1 = target_of tmp_path extracted_dir k2 -> k1 = k2.
Proof.
  intros H1 H2 Ht. unfold target_of in Ht. apply app_inv_head in Ht.
  rewrite (below_tmp k1 H1), (below_tmp k2 H2). by rewrite Ht.
Qed.

Lemma target_of_prefix (k1 k2 : path) :
  tmp_path `prefix_of` k1 -> tmp_path `prefix_of` k2 ->
  target_of tmp_path extracted_dir k1 `prefix_of` target_of tmp_path extracted_dir k2 ->
  k1 `prefix_of` k2.
Proof.
  intros H1 H2 Ht. unfold target_of in Ht. apply prefix_app_inv in Ht.
  rewrite (below_tmp k1 H1), (below_tmp k2 H2). by apply prefix_app.
Qed.

Lemma registered_mono (done done' : list path) (f f' : fs) (a : asset_row) :
  (forall k, k ∈ done -> k ∈ done') ->
  (forall q, is_Some (f !! q) -> f' !! q = f !! q) ->
  registered tmp_path extracted_dir f0 done f a ->
  registered tmp_path extracted_dir f0 done' f' a.
Proof.
  intros Hd Hf (k & b & rest & Hk & Hpre & Hat & H0 & Hrest).
  exists k, b, rest. split; [by apply Hd|]. split; [done|].
  split; [|done]. rewrite <- Hat. apply Hf. rewrite Hat. by eexists.
Qed.

Lemma reg_inv_mono (done done' : list path) (st : state) :
  (forall k, k ∈ done -> k ∈ done') ->
  reg_inv tmp_path extracted_dir f0 assets0 done st ->
  reg_inv tmp_path extracted_dir f0 assets0 done' st.
Proof.
  intros Hd (I1 & I2 & new & Hnew & Hall).
  split; [done|]. split; [done|]. exists new. split; [done|].
  eapply Forall_impl; [exact Hall|]. intros a. by apply registered_mono.
Qed.

Lemma register_file_inv (done : list path) (fm : list (string * list string))
    (file : path) (st : state) :
  reg_inv tmp_path extracted_dir f0 assets0 done st ->
  tmp_path `prefix_of` file -> file <> tmp_path -> file ∉ done ->
  reg_inv tmp_path extracted_dir f0 assets0 (done ++ [file])
    (snd (register_file export_id tmp_path conv_file extracted_dir fm file st)).
Proof.
  intros Hinv Hpre Hne Hnd.
  assert (forall k, k ∈ done -> k ∈ done ++ [file]) as Hmono
    by (intros k Hk; apply elem_of_app; by left).
  rewrite register_file_run.
  destruct (negb (is_file (files st) file) || bool_decide (file = conv_file))%bool
    eqn:Hskip; [by apply (reg_inv_mono done)|].
  apply orb_false_iff in Hskip as [Hisf _]. apply negb_false_iff in Hisf.
  destruct Hinv as (I1 & I2 & new & Hnew & Hall).
  set (target := target_of tmp_path extracted_dir file). cbv zeta.
  assert (file <> []) as Hfile.
  { intros ->. apply prefix_nil_inv in Hpre. congruence. }
  assert (exists b, f0 !! file = Some (FFile b)) as [b Hb].
  { unfold is_file in Hisf. rewrite node_at_nonempty in Hisf by done.
    rewrite (I1 file Hpre) in Hisf.
    destruct (f0 !! file) as [[|b]|]; try done. by exists b. }
  assert (is_file f0 file = true) as Hisf0.
  { unfold is_file. rewrite node_at_nonempty by done. by rewrite Hb. }
  assert (extracted_dir `prefix_of` target) as Hbelow by (by eexists).
  assert (target <> extracted_dir) as Htne.
  { unfold target, target_of. intros E.
    rewrite <- (app_nil_r extracted_dir) in E at 2. apply app_inv_head in E.
    apply Hne. rewrite (below_tmp file Hpre), E. apply app_nil_r. }
  assert (target <> []) as Htnil.
  { intros E. rewrite E in Hbelow. apply prefix_nil_inv in Hbelow. congruence. }
  assert (parent target <> target) as Hparent by (by apply removelast_shorter).
  destruct (mkdir_p (parent target) (files st)) as [f1|e] eqn:Hm1;
    [|by apply (reg_inv_mono done); [|split; [|split; [|exists new]]]].
  destruct (mkdir_from_ok _ _ _ _ _ Hm1) as (M1 & M2 & M3).
  assert (forall q, tmp_path `prefix_of` q -> f1 !! q = f0 !! q) as J1.
  { intros q Hq. rewrite <- (I1 q Hq).
    destruct (decide (q <> [] /\ q `prefix_of` parent target)) as [[_ Hw]|Hw];
      [|apply M2; by rewrite on_way_root].
    exfalso. apply (apart q (drop (length tmp_path) file) Hq).
    etransitivity; [exact Hw|apply removelast_prefix]. }
  assert (forall q, extracted_dir `prefix_of` q -> q <> extracted_dir ->
            f1 !! q = Some FDir ->
            exists k, is_Some (f0 !! k) /\ tmp_path `prefix_of` k /\
                      q `prefix_of` target_of tmp_path extracted_dir k /\
                      q <> target_of tmp_path extracted_dir k) as J2.
  { intros q Hq Hqe Hd. destruct (files st !! q) as [n|] eqn:Hold.
    - rewrite M3 in Hd by (rewrite Hold; by eexists).
      apply I2; [done|done|congruence].
    - exists file. split; [rewrite Hb; by eexists|]. split; [done|].
      destruct (decide (q <> [] /\ q `prefix_of` parent target)) as [[_ Hw]|Hw].
      + split; [etransitivity; [exact Hw|apply removelast_prefix]|].
        intros ->. apply Hparent. apply (anti_symm prefix); [apply removelast_prefix|done].
      + rewrite M2 in Hd by (by rewrite on_way_root). congruence. }
  assert (read_bytes file f1 = Ok b) as Hrd1.
  { unfold read_bytes. rewrite node_at_nonempty by done. by rewrite (J1 file Hpre), Hb. }
  assert (is_dir f1 target = false) as Hnd1.
  { unfold is_dir. rewrite node_at_nonempty by done.
    destruct (f1 !! target) as [[|?]|] eqn:Ht; try done. exfalso.
    destruct (J2 target Hbelow Htne Ht) as (k & Hk & Hkpre & Hkp & Hkne).
    assert (file `prefix_of` k) as Hfk by (by apply target_of_prefix).
    assert (k <> file) as Hkf by (by intros ->).
    rewrite (Htree file k Hisf0 Hfk Hkf) in Hk. by destruct Hk. }
  unfold copy2. rewrite Hrd1, Hnd1.
  destruct (write_file target b f1) as [f2|e] eqn:Hw.
  2: { simpl. split; [done|]. split; [done|]. exists new. split; [done|].
       eapply Forall_impl; [exact Hall|]. intros a. by apply registered_mono. }
  apply write_file_ok in Hw as [-> _].
  assert (forall q, tmp_path `prefix_of` q ->
            <[target := FFile b]> f1 !! q = f0 !! q) as K1.
  { intros q Hq. rewrite lookup_insert_ne; [by apply J1|].
    intros <-. by apply (apart target (drop (length tmp_path) file) Hq). }
  assert (forall q, extracted_dir `prefix_of` q -> q <> extracted_dir ->
            <[target := FFile b]> f1 !! q = Some FDir ->
            exists k, is_Some (f0 !! k) /\ tmp_path `prefix_of` k /\
                      q `prefix_of` target_of tmp_path extracted_dir k /\
                      q <> target_of tmp_path extracted_dir k) as K2.
  { intros q Hq Hqe Hd. destruct (decide (q = target)) as [->|Hqt].
    - rewrite lookup_insert_eq in Hd. discriminate.
    - rewrite lookup_insert_ne in Hd by done. by apply J2. }
  assert (Forall (registered tmp_path extracted_dir f0 (done ++ [file])
                    (<[target := FFile b]> f1)) new) as K3.
  { eapply Forall_impl; [exact Hall|].
    intros a (k & b' & rest & Hk & Hkpre & Hat & Hk0 & Hrest).
    exists k, b', rest. split; [by apply Hmono|]. split; [done|]. split; [|done].
    rewrite lookup_insert_ne.
    - rewrite <- Hat. apply M3. rewrite Hat. by eexists.
    - intros E. apply target_of_inj in E; [|done|done]. by subst. }
  destruct (classify_asset (basename file)) as [asset_type|];
    [|by split; [|split; [|exists new]]].
  assert (read_bytes file (<[target := FFile b]> f1) = Ok b) as ->.
  { unfold read_bytes. rewrite node_at_nonempty by done. by rewrite (K1 file Hpre), Hb. }
  unfold relative_to.
  destruct (bool_decide (STORAGE_DIR `prefix_of` target)) eqn:Hst;
    [|by split; [|split; [|exists new]]].
  apply bool_decide_eq_true in Hst.
  split; [done|]. split; [done|]. simpl.
  eexists (new ++ [_]). split; [by rewrite Hnew, app_assoc|].
  apply Forall_app. split; [done|]. constructor; [|done].
  exists file, b, (drop (length STORAGE_DIR) target).
  split; [apply elem_of_app; right; by apply list_elem_of_singleton|].
  split; [done|]. split; [apply lookup_insert_eq|]. split; [done|].
  split; [|done]. destruct Hst as [r Hr]. fold target. rewrite Hr.
  by rewrite drop_app_length.
Qed.

Lemma register_loop_inv (todo : list path) :
  forall (done : list path) (fm : list (string * list string)) (st : state),
    reg_inv tmp_path extracted_dir f0 assets0 done st ->
    Forall (fun k => tmp_path `prefix_of` k /\ k <> tmp_path) todo ->
    NoDup (done ++ todo) ->
    reg_inv tmp_path extracted_dir f0 assets0 (done ++ todo)
      (snd (for_fold todo fm
              (register_file export_id tmp_path conv_file extracted_dir) st)).
Proof.
  induction todo as [|file todo IH]; intros done fm st Hinv Hall Hnd; simpl.
  - by rewrite app_nil_r.
  - apply Forall_cons in Hall as [[Hpre Hne] Hall].
    assert (file ∉ done) as Hfresh.
    { intros Hin. apply NoDup_app in Hnd as (_ & Hd & _).
      apply (Hd _ Hin). by left. }
    pose proof (register_file_inv done fm file st Hinv Hpre Hne Hfresh) as Hstep.
    unfold bind.
    destruct (register_file export_id tmp_path conv_file extracted_dir fm file st)
      as [[fm'|e] st1]; simpl in Hstep |- *.
    + rewrite (cons_middle file done todo), app_assoc.
      apply IH; [done|done|]. by rewrite <- app_assoc.
    + apply (reg_inv_mono (done ++ [file])); [|done].
      intros k Hk. rewrite (cons_middle file done todo), app_assoc.
      apply elem_of_app. by left.
Qed.

End Loop.

Lemma registered_matches (tmp_path extracted_dir : path) (f0 : fs)
    (done : list path) (f : fs) (a : asset_row) :
  registered tmp_path extracted_dir f0 done f a -> asset_matches_file f a.
Proof.
  intros (k & b & rest & _ & _ & Hat & _ & Ht & Hrest).
  exists rest, b. split; [apply Hrest|]. split; [by rewrite <- Ht|]. apply Hrest.
Qed.

Lemma rglob_below (root : path) (f : fs) :
  Forall (fun k => root `prefix_of` k /\ k <> root) (rglob root f) /\
  NoDup (rglob root f).
Proof.
  unfold rglob. split.
  - apply Forall_forall. intros k Hk. by apply list_elem_of_filter in Hk as [? _].
  - apply NoDup_filter, NoDup_fst_map_to_list.
Qed.

(** The rows the registration loop adds, and the files it leaves. *)
Lemma register_assets_inv export_id (tmp_path conv_file extracted_dir : path) (st : state) :
  ~ tmp_path `prefix_of` extracted_dir ->
  ~ extracted_dir `prefix_of` tmp_path ->
  tree_shaped (files st) ->
  empty_below (files st) extracted_dir ->
  reg_inv tmp_path extracted_dir (files st) (assets (conn st))
    (rglob tmp_path (files st))
    (snd (register_assets export_id tmp_path conv_file extracted_dir st)).
Proof.
  intros Hd1 Hd2 Htree Hempty.
  unfold register_assets, bind, read_files. cbn [fst snd].
  destruct (rglob_below tmp_path (files st)) as [Hall Hnd].
  apply (register_loop_inv export_id tmp_path conv_file extracted_dir (files st)
           (assets (conn st)) Hd1 Hd2 Htree (rglob tmp_path (files st)) [] [] st);
    [|done|done].
  split; [done|]. split.
  - intros q Hq Hne Hdir. by rewrite (Hempty q Hq Hne) in Hdir.
  - exists []. by rewrite app_nil_r.
Qed.

(** C6: in a workspace that is a tree and lies apart from the export's
    [extracted] directory, which holds nothing yet, every asset row the
    registration loop inserts describes the copy in permanent storage:
    its storage path leads, from the storage directory, to a file whose
    SHA-256 is the stored checksum and whose length is the stored size.
    Those bytes are the ones of the workspace file the row was
    registered for. *)
Theorem registered_assets_match_files export_id (tmp_path conv_file extracted_dir : path)
    (st : state) :
  ~ tmp_path `prefix_of` extracted_dir ->
  ~ extracted_dir `prefix_of` tmp_path ->
  tree_shaped (files st) ->
  empty_below (files st) extracted_dir ->
  let st' := snd (register_assets export_id tmp_path conv_file extracted_dir st) in
  exists new,
    assets (conn st') = assets (conn st) ++ new /\
    Forall (asset_matches_file (files st')) new /\
    Forall (registered tmp_path extracted_dir (files st) (rglob tmp_path (files st))
              (files st')) new.
Proof.
  intros Hd1 Hd2 Htree Hempty. cbv zeta.
  destruct (register_assets_inv export_id tmp_path conv_file extracted_dir st
              Hd1 Hd2 Htree Hempty) as (_ & _ & new & Hnew & Hall).
  exists new. split; [done|]. split; [|done].
  eapply Forall_impl; [exact Hall|]. intros a. apply registered_matches.
Qed.

End Registration.

Lemma nothing_below_sound (f : fs) (p q : path) :
  nothing_below f p = true -> p `prefix_of` q -> q <> p -> f !! q = None.
Proof.
  intros Hc Hpre Hne. destruct (f !! q) as [n|] eqn:Hq; [|done]. exfalso.
  unfold nothing_below in Hc. rewrite forallb_forall in Hc.
  apply elem_of_map_to_list, list_elem_of_In in Hq.
  specialize (Hc _ Hq). simpl in Hc.
  apply orb_true_iff in Hc as [Hc|Hc].
  - apply negb_true_iff, bool_decide_eq_false in Hc. done.
  - apply bool_decide_eq_true in Hc. done.
Qed.

Lemma empty_below_check_sound (f : fs) (dir : path) :
  empty_below_check f dir = true -> empty_below f dir.
Proof. intros Hc q Hq Hne. by apply (nothing_below_sound f dir q). Qed.

Lemma tree_shaped_check_sound (f : fs) : tree_shaped_check f = true -> tree_shaped f.
Proof.
  intros Hc p q Hp Hpre Hne. unfold is_file in Hp.
  destruct p as [|c p]; [done|]. rewrite node_at_nonempty in Hp by done.
  destruct (f !! (c :: p)) as [[|b]|] eqn:Hf; try done.
  unfold tree_shaped_check in Hc. rewrite forallb_forall in Hc.
  apply elem_of_map_to_list, list_elem_of_In in Hf.
  specialize (Hc _ Hf). simpl in Hc.
  by apply (nothing_below_sound f (c :: p) q).
Qed.

Lemma registered_assets_match_files_witness :
  exists new,
    assets (conn (snd (@register_assets demo_full_env "e1" demo_tmp demo_manifest
                         demo_extracted_dir demo_extracted_state)))
      = assets (conn demo_extracted_state) ++ new /\
    Forall (@asset_matches_file demo_full_env
              (files (snd (@register_assets demo_full_env "e1" demo_tmp demo_manifest
                             demo_extracted_dir demo_extracted_state)))) new /\
    Forall (@registered demo_full_env demo_tmp demo_extracted_dir
              (files demo_extracted_state)
              (rglob demo_tmp (files demo_extracted_state))
              (files (snd (@register_assets demo_full_env "e1" demo_tmp demo_manifest
                             demo_extracted_dir demo_extracted_state)))) new.
Proof.
  apply (@registered_assets_match_files demo_full_env "e1" demo_tmp demo_manifest
           demo_extracted_dir demo_extracted_state).
  - intros [k Hk]. discriminate.
  - intros [k Hk]. discriminate.
  - apply tree_shaped_check_sound. vm_compute. reflexivity.
  - apply empty_below_check_sound. vm_compute. reflexivity.
Defined.

Example register_assets_example :
  let st' := snd (@register_assets demo_full_env "e1" demo_tmp demo_manifest
                    demo_extracted_dir demo_extracted_state) in
  assets (conn st') =
    [AssetRow "uuid-1" "e1" None None "image" "photo.png"
       "exports/e1/extracted/media/photo.png" 2 "sha-2"] /\
  files st' !! (["srv"; "brain"; "storage"] ++
                ["exports"; "e1"; "extracted"; "media"; "photo.png"])
    = Some (FFile [Byte.x89; Byte.x50]).
Proof. cbv zeta. split; vm_compute; reflexivity. Qed.

(* ================================================================== *)
(** * Further properties *)

(** ** The shape of a slug *)

Section SlugShape.

Lemma dash_not_slug c : is_dash c = true -> is_slug_char c = false.
Proof.
  unfold is_dash. intros H. apply Ascii.eqb_eq in H. by subst c.
Qed.

Lemma slug_not_dash c : is_slug_char c = true -> is_dash c = false.
Proof.
  intros H. destruct (is_dash c) eqn:Hd; [|done].
  apply dash_not_slug in Hd. congruence.
Qed.

Lemma sub_runs_head l : head_slug (sub_runs true l) = true.
Proof.
  induction l as [|c l IH]; simpl; [done|].
  destruct (is_slug_char c) eqn:Hc; [by simpl|done].
Qed.

Lemma sub_runs_single b l : dashes_single (sub_runs b l) = true.
Proof.
  revert b. induction l as [|c l IH]; intros b; simpl; [done|].
  destruct (is_slug_char c) eqn:Hc.
  - simpl. by rewrite Hc.
  - destruct b; [done|]. simpl.
    pose proof (sub_runs_head l) as Hh. unfold head_slug in Hh.
    rewrite IH. destruct (sub_runs true l); [done|]. by rewrite Hh.
Qed.

Lemma lstrip_dashes r :
  dashes_single r = true ->
  dashes_single (lstrip is_dash r) = true /\ head_slug (lstrip is_dash r) = true.
Proof.
  destruct r as [|c r]; simpl; [done|].
  destruct (is_slug_char c) eqn:Hc.
  - intros H. rewrite (slug_not_dash c Hc). simpl. by rewrite Hc.
  - intros H. apply andb_true_iff in H as [H Hs]. apply andb_true_iff in H as [Hd Hh].
    rewrite Hd. destruct r as [|c' r]; [done|]. simpl.
    rewrite (slug_not_dash c' Hh). by split.
Qed.

Lemma rstrip_dashes x :
  dashes_single x = true ->
  slug_tail (rstrip is_dash x) = true /\
  (head_slug x = true -> x <> "" -> is_slug (rstrip is_dash x) = true).
Proof.
  induction x as [|c x IH]; [done|]. intros H. cbn [dashes_single] in H.
  cbn [rstrip]. destruct (is_slug_char c) eqn:Hc.
  - destruct (IH H) as [IH1 _]. rewrite (slug_not_dash c Hc). cbn [andb].
    cbn [slug_tail is_slug]. by rewrite Hc.
  - apply andb_true_iff in H as [H Hs]. apply andb_true_iff in H as [Hd Hh].
    destruct (IH Hs) as [IH1 IH2]. rewrite Hd. cbn [andb]. split.
    + destruct (str_empty (rstrip is_dash x)) eqn:He; [done|].
      cbn [slug_tail]. rewrite Hc, Hd. cbn [andb].
      assert (x <> "") as Hx by (intros ->; done).
      assert (head_slug x = true) as Hhx by (by destruct x).
      specialize (IH2 Hhx Hx). unfold is_slug in IH2.
      by destruct (rstrip is_dash x).
    + intros Hhead. simpl in Hhead. congruence.
Qed.

Lemma lower_slug_chars s : dashes_single s = true -> lower s = s.
Proof.
  induction s as [|c s IH]; [done|]. cbn [dashes_single lower].
  assert (is_upper c = false -> lower_char c = c) as Hl
    by (unfold lower_char; by intros ->).
  destruct (is_slug_char c) eqn:Hc.
  - intros H. rewrite IH by done. rewrite Hl; [done|].
    unfold is_slug_char, is_upper, in_range in *.
    apply orb_true_iff in Hc as [Hc|Hc]; apply andb_true_iff in Hc as [H1 H2];
      apply N.leb_le in H1; apply N.leb_le in H2; apply andb_false_iff;
      rewrite !N.leb_gt; lia.
  - intros H. apply andb_true_iff in H as [H Hs]. apply andb_true_iff in H as [Hd _].
    rewrite IH by done. rewrite Hl; [done|].
    unfold is_dash in Hd. apply Ascii.eqb_eq in Hd. by subst c.
Qed.

Lemma slug_tail_single s : slug_tail s = true -> dashes_single s = true.
Proof.
  assert (forall n s, String.length s <= n -> slug_tail s = true ->
                      dashes_single s = true) as H.
  { clear s. induction n as [|n IH]; intros s Hn Hs.
    - destruct s; [done|]. simpl in Hn. lia.
    - destruct s as [|c s]; [done|]. simpl in Hn. cbn [slug_tail] in Hs.
      cbn [dashes_single]. destruct (is_slug_char c) eqn:Hc.
      + apply IH; [lia|done].
      + apply andb_true_iff in Hs as [Hd Hs]. rewrite Hd.
        destruct s as [|c' s]; [done|].
        apply andb_true_iff in Hs as [Hc' Hs]. rewrite Hc'. cbn [andb].
        cbn [dashes_single]. rewrite Hc'. apply IH; [simpl in Hn; lia|done]. }
  by apply (H (String.length s)).
Qed.

Lemma slug_tail_fixed s :
  slug_tail s = true -> sub_runs false s = s /\ rstrip is_dash s = s.
Proof.
  assert (forall n s, String.length s <= n -> slug_tail s = true ->
                      sub_runs false s = s /\ rstrip is_dash s = s) as H.
  { clear s. induction n as [|n IH]; intros s Hn Hs.
    - destruct s; [done|]. simpl in Hn. lia.
    - destruct s as [|c s]; [done|]. simpl in Hn. cbn [slug_tail] in Hs.
      cbn [sub_runs rstrip]. destruct (is_slug_char c) eqn:Hc.
      + destruct (IH s ltac:(lia) Hs) as [-> ->].
        by rewrite (slug_not_dash c Hc).
      + apply andb_true_iff in Hs as [Hd Hs].
        destruct s as [|c' s]; [done|].
        apply andb_true_iff in Hs as [Hc' Hs].
        destruct (IH s ltac:(simpl in Hn; lia) Hs) as [E1 E2].
        unfold is_dash in Hd. apply Ascii.eqb_eq in Hd. subst c. cbn.
        by rewrite Hc', E1, E2, (slug_not_dash c' Hc'). }
  by apply (H (String.length s)).
Qed.

(** X1: whatever the text, its slug is well formed: not empty, made of
    [[a-z0-9]] and single dashes, with no dash at either end; and a
    well-formed slug is its own slug, so that deriving the slug twice
    changes nothing. *)
Theorem slugify_well_formed text :
  is_slug (slugify text) = true /\
  (is_slug text = true -> slugify text = text) /\
  slugify (slugify text) = slugify text.
Proof.
  assert (is_slug (slugify text) = true) as Hshape.
  { unfold slugify, strip_chars.
    destruct (lstrip_dashes _ (sub_runs_single false (lower text))) as [Hs Hh].
    destruct (rstrip_dashes _ Hs) as [_ Hr].
    destruct (lstrip is_dash (sub_runs false (lower text))) as [|c x] eqn:Hx; [done|].
    specialize (Hr Hh ltac:(done)).
    by destruct (rstrip is_dash (String c x)). }
  assert (forall t, is_slug t = true -> slugify t = t) as Hfix.
  { intros t Ht. destruct t as [|c t]; [done|]. unfold is_slug in Ht.
    apply andb_true_iff in Ht as [Hc Ht].
    assert (dashes_single (String c t) = true) as Hd
      by (cbn [dashes_single]; rewrite Hc; by apply slug_tail_single).
    destruct (slug_tail_fixed t Ht) as [E1 E2].
    unfold slugify, strip_chars. rewrite (lower_slug_chars _ Hd).
    cbn [sub_runs]. rewrite Hc, E1. cbn [lstrip]. rewrite (slug_not_dash c Hc).
    cbn [rstrip]. by rewrite E2, (slug_not_dash c Hc). }
  split; [done|]. split; [apply Hfix|]. by apply Hfix.
Qed.

End SlugShape.

Lemma slugify_well_formed_witness :
  is_slug (slugify "a-b") = true /\
  (is_slug "a-b" = true -> slugify "a-b" = "a-b") /\
  slugify (slugify "a-b") = slugify "a-b".
Proof.
  apply (slugify_well_formed "a-b").
Defined.

Example is_slug_examples :
  is_slug "housing-court-case" = true /\ is_slug "a--b" = false /\
  is_slug "-a" = false /\ is_slug "a-" = false /\ is_slug "A" = false /\
  is_slug "" = false /\ slugify "  Caf? & Bar -- 24/7 " = "caf-bar-24-7".
Proof. repeat split. Qed.

(** ** classify_asset: the extension decides *)

Section Extension.

Lemma rev_app_app a b acc :
  String.rev_app (a +:+ b) acc = String.rev_app b (String.rev_app a acc).
Proof. revert acc. induction a as [|c a IH]; intros acc; simpl; [done|apply IH]. Qed.


Lemma string_app_nil_r s : s +:+ "" = s.
Proof.
  induction s as [|c s IH]; [done|].
  change (String c (s +:+ "") = String c s). by rewrite IH.
Qed.




Lemma str_empty_lower e : str_empty (lower e) = str_empty e.
Proof. by destruct e. Qed.






End Extension.



(** ** The messages of a mapping and their order *)

Section Mapping.
Context {env : Env}.

Lemma collect_messages_ok values :
  Forall (fun nd => node_ok nd = true) values ->
  collect_messages values = Ok (List.filter truthy (node_message <$> values)).
Proof.
  induction 1 as [|nd values Hnd _ IH]; [done|].
  cbn [collect_messages fmap list_fmap List.filter]. rewrite IH.
  assert (py_get (py_or nd (JObj [])) "message" = Ok (node_message nd)) as ->; [|done].
  unfold node_ok in Hnd. unfold py_or.
  destruct (truthy nd) eqn:Ht; [by destruct nd|].
  destruct nd as [| | | | | |items]; try done.
  by destruct items.
Qed.

(** X4: the messages taken from a mapping are the non-empty [message]
    payloads of its nodes, in the order of the mapping, as long as
    every node is a dict or counts as false; the first node that is
    neither ends the collection with the [AttributeError] of its
    missing [get]. *)
Theorem collect_messages_spec values :
  (Forall (fun nd => node_ok nd = true) values ->
   collect_messages values = Ok (List.filter truthy (node_message <$> values))) /\
  (forall good nd rest,
     values = good ++ nd :: rest ->
     Forall (fun x => node_ok x = true) good ->
     node_ok nd = false ->
     collect_messages values = Raise (no_attribute nd "get")) /\
  (forall nodes,
     collect_messages values = Ok nodes ->
     Forall (fun nd => node_ok nd = true) values /\
     Forall (fun m => truthy m = true) nodes).
Proof.
  split; [apply collect_messages_ok|]. split.
  - intros good nd rest -> Hgood Hnd. induction Hgood as [|x good Hx _ IH].
    + cbn [app collect_messages]. unfold node_ok in Hnd.
      apply orb_false_iff in Hnd as [Ht Hd]. apply negb_false_iff in Ht.
      unfold py_or. rewrite Ht. by destruct nd.
    + cbn [app collect_messages]. rewrite IH.
      pose proof (collect_messages_ok [x] (Forall_cons_2 _ _ _ Hx (Forall_nil_2 _))) as H1.
      cbn [collect_messages] in H1.
      by destruct (py_get (py_or x (JObj [])) "message").
  - induction values as [|nd values IH]; intros nodes Hrun.
    + injection Hrun as <-. by split.
    + cbn [collect_messages] in Hrun.
      destruct (py_get (py_or nd (JObj [])) "message") as [message|e] eqn:Hget; [|done].
      destruct (collect_messages values) as [rest|e]; [|done].
      destruct (IH rest eq_refl) as [Hv Hr]. injection Hrun as <-. split.
      * constructor; [|done]. unfold node_ok, py_or in *.
        destruct (truthy nd); [|done]. by destruct nd.
      * destruct (truthy message) eqn:Ht; [by constructor|done].
Qed.





End Mapping.


(** ** Linking: the assets a message mentions *)

Section Mentions.
Context {env : Env}.

Lemma linked_twice conv_id msg_id a :
  linked conv_id msg_id (linked conv_id msg_id a) = linked conv_id msg_id a.
Proof.
  unfold linked. simpl.
  by destruct (as_conversation_id a), (as_message_id a).
Qed.

Lemma link_ids_effect conv_id msg_id (ids : list string) :
  forall st,
    assets (conn (snd (for_each ids (fun asset_id =>
                         execute (link_asset conv_id msg_id asset_id)) st)))
    = (fun a => if mem (as_id a) ids then linked conv_id msg_id a else a)
        <$> assets (conn st).
Proof.
  induction ids as [|id ids IH]; intros st; cbn [for_each].
  - simpl. by rewrite list_fmap_id.
  - rewrite (bind_run _ _ st tt
               (State (committed st) (link_asset conv_id msg_id id (conn st))
                      (files st) (next_uuid st)) eq_refl).
    rewrite IH. simpl. rewrite <- list_fmap_compose.
    apply list_fmap_ext. intros _ a _. simpl. unfold mem. cbn [existsb].
    destruct (String.eqb (as_id a) id) eqn:Hid; [|done].
    fold (linked conv_id msg_id a). cbn [orb].
    change (as_id (linked conv_id msg_id a)) with (as_id a).
    destruct (existsb _ ids); [apply linked_twice|done].
Qed.

Lemma link_assets_effect conv_id msg_id lowered file_map :
  forall st,
    assets (conn (snd (link_assets conv_id msg_id lowered file_map st)))
    = (fun a => if mentioned file_map lowered (as_id a)
                then linked conv_id msg_id a else a) <$> assets (conn st).
Proof.
  unfold link_assets.
  induction file_map as [|entry file_map IH]; intros st; cbn [for_each].
  - simpl. by rewrite list_fmap_id.
  - unfold mentioned. cbn [existsb].
    destruct (contains (fst entry) lowered) eqn:Hc; cbn [andb orb].
    + pose proof (link_ids_run conv_id msg_id (snd entry) st) as [H1 _].
      pose proof (link_ids_effect conv_id msg_id (snd entry) st) as H2.
      destruct (for_each (snd entry) _ st) as [r st1] eqn:Hrun.
      simpl in H1, H2. subst r.
      rewrite (bind_run _ _ st tt st1 Hrun), IH, H2.
      rewrite <- list_fmap_compose. apply list_fmap_ext. intros _ a _. simpl.
      fold (mentioned file_map lowered (as_id a)).
      destruct (mem (as_id a) (snd entry)); cbn [orb]; [|done].
      change (as_id (linked conv_id msg_id a)) with (as_id a).
      destruct (mentioned file_map lowered (as_id a)); [apply linked_twice|done].
    + rewrite (bind_run _ _ st tt st eq_refl). apply IH.
Qed.

(** X6: a message that is persisted links every asset that [file_map]
    lists under a file name occurring in the lower-cased text of the
    message, and no other: the null link columns of such a row are set
    to the conversation and to the new message, every other row of
    [assets] stays as it is; a message without text links nothing.  An
    unlinked asset that is mentioned then points to this message. *)
Theorem ingest_message_links export_id conv_id file_map texts msg st texts' st' :
  ingest_message export_id conv_id file_map texts msg st = (Ok texts', st') ->
  exists text,
    message_text msg = Ok text /\
    let msg_id := uuid_str (next_uuid st) in
    let hit a := (negb (str_empty text) && mentioned file_map (lower text) (as_id a))%bool in
    assets (conn st') =
      (fun a => if hit a then linked conv_id msg_id a else a) <$> assets (conn st) /\
    (forall i a,
       assets (conn st) !! i = Some a -> hit a = true ->
       as_conversation_id a = None -> as_message_id a = None ->
       exists a',
         assets (conn st') !! i = Some a' /\
         as_conversation_id a' = Some conv_id /\ as_message_id a' = Some msg_id).
Proof.
  intros Hrun.
  assert (exists text,
    message_text msg = Ok text /\
    assets (conn st') =
      (fun a => if (negb (str_empty text) &&
                    mentioned file_map (lower text) (as_id a))%bool
                then linked conv_id (uuid_str (next_uuid st)) a else a)
        <$> assets (conn st)) as (text & Htext & Hassets).
  { revert Hrun. unfold ingest_message, bind, lift, uuid4, execute, ret.
    destruct (message_text msg) as [text|e] eqn:Htext; [|discriminate].
    destruct (message_role msg) as [role|e]; [|discriminate].
    destruct (py_get msg "create_time") as [ct|e]; [|discriminate].
    destruct (bind_param 4 role) as [role_v|e]; [|discriminate]. simpl.
    set (row := MessageRow (uuid_str (next_uuid st)) export_id conv_id role_v text
                           (parse_iso_or_none ct)).
    set (st1 := State (committed st) (insert_message row (conn st)) (files st)
                      (S (next_uuid st))).
    exists text. split; [done|]. revert Hrun.
    destruct (str_empty text) eqn:Hempty; cbn [negb andb].
    - intros [= <- <-]. simpl. by rewrite list_fmap_id.
    - pose proof (link_assets_effect conv_id (uuid_str (next_uuid st)) (lower text)
                    file_map st1) as Heff.
      destruct (link_assets_run conv_id (uuid_str (next_uuid st)) (lower text) file_map st1)
        as [H1 _].
      destruct (link_assets _ _ _ _ st1) as [r st2]. simpl in H1, Heff. subst r.
      intros [= <- <-]. exact Heff. }
  exists text. split; [done|]. cbv zeta. split; [done|].
  intros i a Hi Hhit Hc Hm. rewrite Hassets, list_lookup_fmap, Hi. simpl.
  rewrite Hhit. eexists. split; [done|]. unfold linked. simpl. by rewrite Hc, Hm.
Qed.

End Mentions.

Lemma ingest_message_links_witness :
  exists text,
    @message_text demo_full_env demo_message = Ok text /\
    let msg_id := uuid_str (next_uuid demo_linked_state) in
    let hit a :=
      (negb (str_empty text) && mentioned demo_file_map (lower text) (as_id a))%bool in
    assets (conn (snd (@ingest_message demo_full_env "e1" "c7" demo_file_map []
                         demo_message demo_linked_state))) =
      (fun a => if hit a then linked "c7" msg_id a else a)
        <$> assets (conn demo_linked_state) /\
    (forall i a,
       assets (conn demo_linked_state) !! i = Some a -> hit a = true ->
       as_conversation_id a = None -> as_message_id a = None ->
       exists a',
         assets (conn (snd (@ingest_message demo_full_env "e1" "c7" demo_file_map []
                              demo_message demo_linked_state))) !! i = Some a' /\
         as_conversation_id a' = Some "c7" /\ as_message_id a' = Some msg_id).
Proof.
  apply (@ingest_message_links demo_full_env "e1" "c7" demo_file_map [] demo_message
           demo_linked_state
           (fst (let r := @ingest_message demo_full_env "e1" "c7" demo_file_map []
                            demo_message demo_linked_state in
                 (match fst r with Ok t => t | Raise _ => [] end, snd r)))).
  vm_cast_no_check (eq_refl (@ingest_message demo_full_env "e1" "c7" demo_file_map []
                               demo_message demo_linked_state)).
Defined.

(** ** Registration: the index of file names *)

Section FileMap.
Context {env : Env}.

Lemma assoc_file_map_add k name id (fm : list (string * list string)) :
  assoc k (file_map_add name id fm) =
  if String.eqb k name then Some (default [] (assoc name fm) ++ [id]) else assoc k fm.
Proof.
  induction fm as [|[k' ids] fm IH]; cbn [file_map_add assoc].
  - by destruct (String.eqb k name).
  - destruct (String.eqb k' name) eqn:Hk'; cbn [assoc].
    + apply String.eqb_eq in Hk'. subst k'. rewrite String.eqb_refl.
      by destruct (String.eqb k name).
    + rewrite IH. destruct (String.eqb k name) eqn:Hk; [|done].
      apply String.eqb_eq in Hk. subst k.
      by rewrite String.eqb_sym, Hk'.
Qed.

Lemma keys_file_map_add name id (fm : list (string * list string)) :
  NoDup (fst <$> fm) ->
  NoDup (fst <$> file_map_add name id fm) /\
  forall k, k ∈ fst <$> file_map_add name id fm -> k = name \/ k ∈ fst <$> fm.
Proof.
  induction fm as [|[k' ids] fm IH]; cbn [file_map_add fmap list_fmap fst]; intros Hnd.
  - split; [apply NoDup_singleton|]. intros k Hk. left. by apply list_elem_of_singleton in Hk.
  - apply NoDup_cons in Hnd as [Hk' Hnd]. destruct (String.eqb k' name) eqn:Heq.
    + cbn [fmap list_fmap fst]. split; [by apply NoDup_cons|]. intros k Hk. by right.
    + destruct (IH Hnd) as [IH1 IH2]. cbn [fmap list_fmap fst]. split.
      * apply NoDup_cons. split; [|done]. intros Hin.
        destruct (IH2 k' Hin) as [->|Hin']; [|done].
        by rewrite String.eqb_refl in Heq.
      * intros k Hk. apply elem_of_cons in Hk as [->|Hk].
        -- right. apply elem_of_cons. by left.
        -- destruct (IH2 k Hk) as [->|Hin]; [by left|]. right. apply elem_of_cons. by right.
Qed.

Lemma register_file_step export_id (tmp_path conv_file extracted_dir : path) fm
    (file : path) st fm1 st1 :
  register_file export_id tmp_path conv_file extracted_dir fm file st = (Ok fm1, st1) ->
  (fm1 = fm /\ conn st1 = conn st /\ next_uuid st1 = next_uuid st) \/
  (exists a,
     fm1 = file_map_add (lower (as_original_name a)) (as_id a) fm /\
     assets (conn st1) = assets (conn st) ++ [a] /\
     as_id a = uuid_str (next_uuid st) /\ next_uuid st1 = S (next_uuid st) /\
     fresh_asset export_id a).
Proof.
  rewrite register_file_run.
  destruct (negb _ || _)%bool; [intros [= <- <-]; by left|]. cbv zeta.
  destruct (mkdir_p _ _) as [f1|e]; [|discriminate].
  destruct (copy2 _ _ f1) as [f2|e]; [|discriminate].
  destruct (classify_asset (basename file)) as [asset_type|] eqn:Hclass;
    [|intros [= <- <-]; by left].
  destruct (read_bytes file f2) as [b|e]; [|discriminate].
  destruct (relative_to _ _) as [storage|e]; [|discriminate].
  intros [= <- <-]. right.
  exists (AssetRow (uuid_str (next_uuid st)) export_id None None asset_type
            (basename file) (join "/" storage) (length b) (sha256_hexdigest b)).
  by repeat split.
Qed.

Lemma register_loop_file_map export_id (tmp_path conv_file extracted_dir : path)
    (todo : list path) :
  forall fm0 st fm st',
    for_fold todo fm0 (register_file export_id tmp_path conv_file extracted_dir) st
      = (Ok fm, st') ->
    NoDup (fst <$> fm0) ->
    exists new,
      assets (conn st') = assets (conn st) ++ new /\
      Forall (fresh_asset export_id) new /\
      Forall (fun a => exists n, as_id a = uuid_str n /\
                                 next_uuid st <= n < next_uuid st') new /\
      NoDup (as_id <$> new) /\
      next_uuid st <= next_uuid st' /\
      NoDup (fst <$> fm) /\
      (forall k, default [] (assoc k fm) = default [] (assoc k fm0) ++ ids_named k new) /\
      (forall k, k ∈ fst <$> fm ->
                 k ∈ fst <$> fm0 \/ exists a, a ∈ new /\ lower (as_original_name a) = k).
Proof.
  induction todo as [|file todo IH]; intros fm0 st fm st' Hrun Hnd; cbn [for_fold] in Hrun.
  - injection Hrun as <- <-. exists []. rewrite !app_nil_r.
    repeat split; try done; [constructor| |by left]. intros k. by rewrite app_nil_r.
  - unfold bind in Hrun.
    destruct (register_file _ _ _ _ fm0 file st) as [[fm1|e] st1] eqn:Hstep; [|done].
    apply register_file_step in Hstep as [(-> & Hc & Hn)|(a & -> & Ha & Hid & Hn & Hfresh)].
    + destruct (IH _ _ _ _ Hrun Hnd) as (new & H1 & H2 & H3 & H4 & H5 & H6 & H7 & H8).
      exists new. rewrite Hc, Hn in *. by repeat split.
    + destruct (keys_file_map_add (lower (as_original_name a)) (as_id a) fm0 Hnd)
        as [Hnd1 Hkeys].
      destruct (IH _ _ _ _ Hrun Hnd1) as (new & H1 & H2 & H3 & H4 & H5 & H6 & H7 & H8).
      exists (a :: new). rewrite H1, Ha, <- app_assoc. split; [done|].
      split; [by constructor|].
      split; [|split; [|split; [lia|split; [done|split]]]].
      * constructor; [exists (next_uuid st); split; [done|lia]|].
        eapply Forall_impl; [exact H3|]. intros a' (n & ? & ?). exists n. split; [done|lia].
      * cbn [fmap list_fmap]. apply NoDup_cons. split; [|done].
        intros Hin. apply list_elem_of_fmap in Hin as (a' & Hid' & Hin).
        rewrite Forall_forall in H3. destruct (H3 a' Hin) as (n & Hn' & Hrange).
        rewrite Hid, Hn' in Hid'. apply uuid_str_inj in Hid'. lia.
      * intros k. rewrite H7, assoc_file_map_add. unfold ids_named.
        cbn [List.filter]. rewrite (String.eqb_sym k).
        destruct (String.eqb (lower (as_original_name a)) k) eqn:Hk.
        -- apply String.eqb_eq in Hk. subst k. cbn [default fmap list_fmap].
           unfold id. by rewrite <- app_assoc.
        -- done.
      * intros k Hk. destruct (H8 k Hk) as [Hin|(a' & Hin & Hname)].
        -- destruct (Hkeys k Hin) as [->|Hin0]; [|by left].
           right. exists a. split; [apply elem_of_cons; by left|done].
        -- right. exists a'. split; [apply elem_of_cons; by right|done].
Qed.

(** X7: when the registration loop ends without an exception, the index
    it hands to the linking step lists, under each lower-cased file
    name, the identifiers of exactly the asset rows it has added for
    files of that name, in the order of their registration; no name
    occurs twice in it and each is the lower-cased name of a file
    registered; the rows added belong to the export, are not linked
    yet, carry pairwise distinct identifiers and the kind their file
    name gives. *)
Theorem register_assets_file_map export_id (tmp_path conv_file extracted_dir : path)
    st fm st' :
  register_assets export_id tmp_path conv_file extracted_dir st = (Ok fm, st') ->
  exists new,
    assets (conn st') = assets (conn st) ++ new /\
    Forall (fresh_asset export_id) new /\
    NoDup (as_id <$> new) /\
    NoDup (fst <$> fm) /\
    (forall k, default [] (assoc k fm) = ids_named k new) /\
    (forall k, k ∈ fst <$> fm -> exists a, a ∈ new /\ lower (as_original_name a) = k).
Proof.
  unfold register_assets, bind, read_files. intros Hrun.
  assert (NoDup (fst <$> ([] : list (string * list string)))) as Hnil by constructor.
  destruct (register_loop_file_map _ _ _ _ _ _ _ _ _ Hrun Hnil)
    as (new & H1 & H2 & _ & H4 & _ & H6 & H7 & H8).
  exists new. do 4 (split; [done|]). split; [exact H7|].
  intros k Hk. destruct (H8 k Hk) as [Hin|Ha]; [|done]. by apply elem_of_nil in Hin.
Qed.

End FileMap.

Lemma register_assets_file_map_witness :
  exists new,
    assets (conn (snd (@register_assets demo_full_env "e1" demo_tmp demo_manifest
                         demo_extracted_dir demo_extracted_state)))
      = assets (conn demo_extracted_state) ++ new /\
    Forall (fresh_asset "e1") new /\
    NoDup (as_id <$> new) /\
    NoDup (fst <$> [("photo.png", ["uuid-1"])]) /\
    (forall k, default [] (assoc k [("photo.png", ["uuid-1"])]) = ids_named k new) /\
    (forall k, k ∈ fst <$> [("photo.png", ["uuid-1"])] ->
               exists a, a ∈ new /\ lower (as_original_name a) = k).
Proof.
  apply (@register_assets_file_map demo_full_env "e1" demo_tmp demo_manifest
           demo_extracted_dir demo_extracted_state [("photo.png", ["uuid-1"])]).
  vm_cast_no_check (eq_refl (@register_assets demo_full_env "e1" demo_tmp demo_manifest
                               demo_extracted_dir demo_extracted_state)).
Defined.

(** ** rename_category *)

Section Rename.

Lemma select_category_row_None category_id export_id d :
  select_category_row category_id export_id d = None <->
  ~ category_in category_id export_id d.
Proof.
  unfold select_category_row, category_in. split.
  - intros Hf (c & Hin & Hid & Hex).
    apply list_elem_of_In in Hin.
    pose proof (find_none _ _ Hf c Hin) as Hc. simpl in Hc.
    subst. by rewrite !String.eqb_refl in Hc.
  - intros Hno. destruct (List.find _ _) as [c|] eqn:Hf; [|done].
    apply find_some in Hf as [Hin Hc]. apply andb_true_iff in Hc as [H1 H2].
    apply String.eqb_eq in H1, H2. exfalso. apply Hno. exists c.
    by rewrite <- list_elem_of_In in Hin.
Qed.

Lemma rename_rows_others name slug category_id (todo : list category_row) :
  forall seen,
    Forall (fun c => cat_id c <> category_id) todo ->
    rename_rows name slug category_id seen todo = Some (seen ++ todo).
Proof.
  induction todo as [|c todo IH]; intros seen Hall; cbn [rename_rows].
  - by rewrite app_nil_r.
  - apply Forall_cons in Hall as [Hc Hall].
    apply String.eqb_neq in Hc. rewrite Hc, (IH _ Hall). by rewrite <- app_assoc.
Qed.

Lemma rename_rows_one name slug category_id (l1 l2 : list category_row) c :
  Forall (fun c => cat_id c <> category_id) l1 ->
  Forall (fun c => cat_id c <> category_id) l2 ->
  cat_id c = category_id ->
  forall seen,
    rename_rows name slug category_id seen (l1 ++ c :: l2) =
    if slug_taken (cat_export_id c) slug (seen ++ l1 ++ l2) then None
    else Some (seen ++ l1 ++ CategoryRow (cat_id c) (cat_export_id c) name slug 0 :: l2).
Proof.
  intros H1 H2 Hc. induction H1 as [|c1 l1 Hc1 _ IH]; intros seen; cbn [app rename_rows].
  - rewrite Hc, String.eqb_refl. destruct (slug_taken _ _ _); [done|].
    rewrite (rename_rows_others _ _ _ _ _ H2). by rewrite <- app_assoc.
  - apply String.eqb_neq in Hc1. rewrite Hc1, IH. by rewrite <- !app_assoc.
Qed.

Lemma rows_split_by_id (l : list category_row) c :
  NoDup (cat_id <$> l) -> c ∈ l ->
  exists l1 l2,
    l = l1 ++ c :: l2 /\
    Forall (fun c' => cat_id c' <> cat_id c) l1 /\
    Forall (fun c' => cat_id c' <> cat_id c) l2.
Proof.
  intros Hnd Hin. apply list_elem_of_split in Hin as (l1 & l2 & ->).
  exists l1, l2. split; [done|].
  rewrite fmap_app, fmap_cons in Hnd. apply NoDup_app in Hnd as (_ & Hd & Hnd).
  apply NoDup_cons in Hnd as [Hn2 _].
  split; apply Forall_forall; intros c' Hc' Heq.
  - apply (Hd (cat_id c')); [by apply list_elem_of_fmap_2|].
    rewrite Heq. apply elem_of_cons. by left.
  - apply Hn2. rewrite <- Heq. by apply list_elem_of_fmap_2.
Qed.

Lemma renamed_split name category_id (l1 l2 : list category_row) c :
  Forall (fun c => cat_id c <> category_id) l1 ->
  Forall (fun c => cat_id c <> category_id) l2 ->
  cat_id c = category_id ->
  renamed name category_id <$> (l1 ++ c :: l2) =
  l1 ++ CategoryRow (cat_id c) (cat_export_id c) name (slugify name) 0 :: l2.
Proof.
  intros H1 H2 Hc.
  assert (forall l, Forall (fun c => cat_id c <> category_id) l ->
                    renamed name category_id <$> l = l) as Hsame.
  { intros l Hl. induction Hl as [|c' l Hc' _ IH]; [done|].
    cbn [fmap list_fmap]. fold (fmap (M:=list) (renamed name category_id) l). rewrite IH.
    unfold renamed. apply String.eqb_neq in Hc'. by rewrite Hc'. }
  rewrite fmap_app, fmap_cons, (Hsame _ H1), (Hsame _ H2).
  unfold renamed at 1. by rewrite Hc, String.eqb_refl.
Qed.

Lemma slug_taken_others export_id slug category_id (l1 l2 : list category_row) c d :
  categories d = l1 ++ c :: l2 ->
  Forall (fun c => cat_id c <> category_id) l1 ->
  Forall (fun c => cat_id c <> category_id) l2 ->
  cat_id c = category_id ->
  slug_in_use export_id slug category_id d = slug_taken export_id slug (l1 ++ l2).
Proof.
  intros Hd H1 H2 Hc. unfold slug_in_use, slug_taken. rewrite Hd.
  assert (forall l, Forall (fun c => cat_id c <> category_id) l ->
            existsb (fun c => (negb (String.eqb (cat_id c) category_id) &&
                               String.eqb (cat_export_id c) export_id &&
                               String.eqb (cat_slug c) slug)%bool) l =
            existsb (fun c => (String.eqb (cat_export_id c) export_id &&
                               String.eqb (cat_slug c) slug)%bool) l) as Hsame.
  { intros l Hl. induction Hl as [|c' l Hc' _ IH]; [done|].
    cbn [existsb]. rewrite IH. apply String.eqb_neq in Hc'. by rewrite Hc'. }
  rewrite !existsb_app. cbn [existsb]. rewrite (Hsame _ H1), (Hsame _ H2).
  by rewrite Hc, String.eqb_refl.
Qed.

Lemma rename_category_run export_id category_id name st c :
  NoDup (cat_id <$> categories (committed st)) ->
  c ∈ categories (committed st) -> cat_id c = category_id -> cat_export_id c = export_id ->
  rename_category export_id category_id name st =
  if slug_in_use export_id (slugify name) category_id (committed st)
  then (Raise (IntegrityError
                 "UNIQUE constraint failed: categories.export_id, categories.slug"),
        State (committed st) (committed st) (files st) (next_uuid st))
  else
    let d := with_categories (fmap (renamed name category_id)) (committed st) in
    (Ok ("/exports/" +:+ export_id), State d d (files st) (next_uuid st)).
Proof.
  intros Hnd Hin Hid Hex.
  assert (category_in category_id export_id (committed st)) as Hcat by (by exists c).
  destruct (rows_split_by_id _ c Hnd Hin) as (l1 & l2 & Hsplit & H1 & H2).
  rewrite Hid in H1, H2.
  rewrite (slug_taken_others export_id (slugify name) category_id l1 l2 c _ Hsplit H1 H2 Hid).
  assert (update_category name (slugify name) category_id (committed st) =
          if slug_taken export_id (slugify name) (l1 ++ l2)
          then Raise (IntegrityError
                        "UNIQUE constraint failed: categories.export_id, categories.slug")
          else Ok (with_categories (fmap (renamed name category_id)) (committed st)))
    as Hupd.
  { unfold update_category.
    rewrite Hsplit, (rename_rows_one _ _ _ l1 l2 c H1 H2 Hid []). cbn [app].
    rewrite Hex. destruct (slug_taken export_id (slugify name) (l1 ++ l2)); [done|].
    unfold with_categories.
    rewrite Hsplit, (renamed_split name category_id l1 l2 c H1 H2 Hid). by rewrite Hex. }
  destruct (select_category_row category_id export_id (committed st)) as [row|] eqn:Hsel;
    [|by apply select_category_row_None in Hsel].
  unfold rename_category, bind, get_conn, query, execute_checked, commit, close, ret.
  revert Hupd. generalize (update_category name (slugify name) category_id).
  intros upd Hupd. simpl. rewrite Hsel. simpl. rewrite Hupd.
  by destruct (slug_taken export_id (slugify name) (l1 ++ l2)).
Qed.

(** X8: renaming a category that is no row of the export, be it
    unknown or a category of another export, is answered with 404;
    nothing is written. *)
Theorem rename_category_not_found export_id category_id name st :
  ~ category_in category_id export_id (committed st) ->
  let run := rename_category export_id category_id name st in
  fst run = Raise (HTTPException 404 "Category not found") /\
  committed (snd run) = committed st /\ files (snd run) = files st.
Proof.
  intros Hno. apply select_category_row_None in Hno. cbv zeta.
  unfold rename_category, bind, get_conn, query. simpl. by rewrite Hno.
Qed.

(** X9: renaming a category of the export to a name whose slug no other
    category of the export has succeeds: the row takes the name and its
    slug and counts as edited by the user from then on, it keeps its
    identifier, and so the conversations filed under it; every other
    row and table is as before; the category is found under the new
    slug, and slugs stay unique within each export. *)
Theorem rename_category_renames export_id category_id name st :
  NoDup (cat_id <$> categories (committed st)) ->
  category_in category_id export_id (committed st) ->
  slug_in_use export_id (slugify name) category_id (committed st) = false ->
  let run := rename_category export_id category_id name st in
  fst run = Ok ("/exports/" +:+ export_id) /\
  categories (committed (snd run)) =
    renamed name category_id <$> categories (committed st) /\
  only_categories (committed st) (committed (snd run)) /\
  files (snd run) = files st /\
  select_category export_id (slugify name) (committed (snd run)) = Some category_id /\
  (unique_slugs (committed st) -> unique_slugs (committed (snd run))).
Proof.
  intros Hnd (c & Hin & Hid & Hex) Hfree. cbv zeta.
  rewrite (rename_category_run _ _ _ _ c Hnd Hin Hid Hex), Hfree. cbv zeta. simpl.
  split; [done|]. split; [done|]. split; [done|]. split; [done|].
  destruct (rows_split_by_id _ c Hnd Hin) as (l1 & l2 & Hsplit & H1 & H2).
  rewrite Hid in H1, H2.
  rewrite (slug_taken_others export_id (slugify name) category_id l1 l2 c _ Hsplit H1 H2 Hid)
    in Hfree.
  unfold slug_taken in Hfree. rewrite existsb_app in Hfree.
  apply orb_false_iff in Hfree as [Hf1 Hf2].
  assert (categories (with_categories (fmap (renamed name category_id)) (committed st)) =
          l1 ++ CategoryRow category_id export_id name (slugify name) 0 :: l2) as Hnew.
  { unfold with_categories. simpl.
    by rewrite Hsplit, (renamed_split name category_id l1 l2 c H1 H2 Hid), Hid, Hex. }
  assert (forall l, existsb (fun c => (String.eqb (cat_export_id c) export_id &&
                                       String.eqb (cat_slug c) (slugify name))%bool) l = false ->
                    (export_id, slugify name) ∉ slug_key <$> l) as Hkeys.
  { intros l Hl Hk. apply list_elem_of_fmap in Hk as (c' & Hk & Hc').
    unfold slug_key in Hk. injection Hk as Hk1 Hk2.
    rewrite <- not_true_iff_false in Hl. apply Hl. apply existsb_exists.
    exists c'. split; [by apply list_elem_of_In|].
    by rewrite <- Hk1, <- Hk2, !String.eqb_refl. }
  split.
  - unfold select_category. rewrite Hnew.
    assert (forall l, existsb (fun c => (String.eqb (cat_export_id c) export_id &&
                                         String.eqb (cat_slug c) (slugify name))%bool) l = false ->
              forall rest, List.find (fun c => (String.eqb (cat_export_id c) export_id &&
                                      String.eqb (cat_slug c) (slugify name))%bool) (l ++ rest)
                           = List.find (fun c => (String.eqb (cat_export_id c) export_id &&
                                      String.eqb (cat_slug c) (slugify name))%bool) rest) as Hfind.
    { induction l as [|c' l IH]; intros Hl rest; [done|]. cbn [existsb] in Hl.
      apply orb_false_iff in Hl as [Hc' Hl]. cbn [app List.find]. rewrite Hc'. by apply IH. }
    rewrite (Hfind _ Hf1). cbn [List.find]. simpl. by rewrite !String.eqb_refl.
  - unfold unique_slugs. rewrite Hnew, Hsplit, !fmap_app, !fmap_cons.
    intros Hu. apply NoDup_app in Hu as (Hu1 & Hu2 & Hu3).
    apply NoDup_cons in Hu3 as [_ Hu3].
    apply NoDup_app. split; [done|]. split.
    + intros k Hk1 Hk2. apply elem_of_cons in Hk2 as [->|Hk2].
      * by apply (Hkeys l1 Hf1).
      * apply (Hu2 k Hk1). apply elem_of_cons. by right.
    + apply NoDup_cons. split; [|done]. unfold slug_key at 1. simpl. by apply Hkeys.
Qed.

(** X10: renaming a category of the export to a name whose slug another
    category of the export has already is refused by the database: the
    request ends with an [IntegrityError] about the unique pair of
    export and slug, and nothing is written. *)
Theorem rename_category_collision export_id category_id name st :
  NoDup (cat_id <$> categories (committed st)) ->
  category_in category_id export_id (committed st) ->
  slug_in_use export_id (slugify name) category_id (committed st) = true ->
  let run := rename_category export_id category_id name st in
  fst run = Raise (IntegrityError
                     "UNIQUE constraint failed: categories.export_id, categories.slug") /\
  committed (snd run) = committed st /\ files (snd run) = files st.
Proof.
  intros Hnd (c & Hin & Hid & Hex) Hused. cbv zeta.
  by rewrite (rename_category_run _ _ _ _ c Hnd Hin Hid Hex), Hused.
Qed.

End Rename.

Lemma demo_db_category_ids : NoDup (cat_id <$> categories (committed demo_state)).
Proof.
  apply (bool_decide_unpack _). by vm_compute.
Defined.

Lemma demo_db_dog_category : category_in "k1" "e1" (committed demo_state).
Proof.
  exists (CategoryRow "k1" "e1" "dog" "dog" 1).
  split; [apply elem_of_cons; by left|by split].
Defined.

Lemma rename_category_not_found_witness :
  let run := rename_category "e2" "k1" "Pets" demo_state in
  fst run = Raise (HTTPException 404 "Category not found") /\
  committed (snd run) = committed demo_state /\ files (snd run) = files demo_state.
Proof.
  apply (rename_category_not_found "e2" "k1" "Pets" demo_state).
  by apply select_category_row_None.
Defined.

Lemma rename_category_renames_witness :
  let run := rename_category "e1" "k1" "Puppies & Co" demo_state in
  fst run = Ok ("/exports/" +:+ "e1") /\
  categories (committed (snd run)) =
    renamed "Puppies & Co" "k1" <$> categories (committed demo_state) /\
  only_categories (committed demo_state) (committed (snd run)) /\
  files (snd run) = files demo_state /\
  select_category "e1" (slugify "Puppies & Co") (committed (snd run)) = Some "k1" /\
  (unique_slugs (committed demo_state) -> unique_slugs (committed (snd run))).
Proof.
  apply (rename_category_renames "e1" "k1" "Puppies & Co" demo_state
           demo_db_category_ids demo_db_dog_category).
  reflexivity.
Defined.

Lemma rename_category_collision_witness :
  let run := rename_category "e1" "k1" "Restaurant!" demo_state in
  fst run = Raise (IntegrityError
                     "UNIQUE constraint failed: categories.export_id, categories.slug") /\
  committed (snd run) = committed demo_state /\ files (snd run) = files demo_state.
Proof.
  apply (rename_category_collision "e1" "k1" "Restaurant!" demo_state
           demo_db_category_ids demo_db_dog_category).
  reflexivity.
Defined.

Example rename_category_examples :
  categories (committed (snd (rename_category "e1" "k1" "Puppies & Co"
                                demo_state)))
  = [CategoryRow "k1" "e1" "Puppies & Co" "puppies-co" 0;
     CategoryRow "k2" "e1" "restaurant" "restaurant" 1] /\
  fst (rename_category "e1" "k1" "DOG" demo_state) = Ok "/exports/e1" /\
  fst (rename_category "e1" "k9" "Pets" demo_state)
  = Raise (HTTPException 404 "Category not found").
Proof. repeat split. Qed.

(** ** move_conversation: the conversation asked for, the category named *)

Section Move.

Lemma select_conversation_None conversation_id export_id d :
  select_conversation conversation_id export_id d = None <->
  ~ conversation_in conversation_id export_id d.
Proof.
  unfold select_conversation, conversation_in. split.
  - intros Hf (c & Hin & Hid & Hex).
    destruct (List.find _ _) as [c'|] eqn:Hfind; [done|].
    apply list_elem_of_In in Hin.
    pose proof (find_none _ _ Hfind c Hin) as Hc. simpl in Hc.
    subst. by rewrite !String.eqb_refl in Hc.
  - intros Hno. destruct (List.find _ _) as [c|] eqn:Hf; [|done].
    apply find_some in Hf as [Hin Hc]. apply andb_true_iff in Hc as [H1 H2].
    apply String.eqb_eq in H1, H2. exfalso. apply Hno. exists c.
    by rewrite <- list_elem_of_In in Hin.
Qed.

Lemma edges_of_others_moved conv_id (l : list edge_row) e :
  cc_conversation_id e = conv_id ->
  List.filter (fun x => negb (String.eqb (cc_conversation_id x) conv_id))
    (List.filter (fun x => negb (String.eqb (cc_conversation_id x) conv_id)) l ++ [e])
  = List.filter (fun x => negb (String.eqb (cc_conversation_id x) conv_id)) l.
Proof.
  intros He. rewrite List.filter_app. cbn [List.filter].
  rewrite He, String.eqb_refl. cbn [negb]. rewrite app_nil_r.
  induction l as [|x l IH]; [done|]. cbn [List.filter].
  destruct (negb (String.eqb (cc_conversation_id x) conv_id)) eqn:Hx; [|done].
  cbn [List.filter]. by rewrite Hx, IH.
Qed.

(** X11: a move of a conversation that is no row of the export, be it
    unknown or a conversation of another export, is answered with 404
    whatever the form holds; no category is made for it and nothing is
    written. *)
Theorem move_conversation_not_found export_id conversation_id category_id new_category st :
  ~ conversation_in conversation_id export_id (committed st) ->
  let run := move_conversation export_id conversation_id category_id new_category st in
  fst run = Raise (HTTPException 404 "Conversation not found") /\
  committed (snd run) = committed st /\ files (snd run) = files st /\
  next_uuid (snd run) = next_uuid st.
Proof.
  intros Hno. apply select_conversation_None in Hno. cbv zeta.
  unfold move_conversation, bind, get_conn, query. simpl. by rewrite Hno.
Qed.

(** X12: when the form names a new category, the identifier it may
    hold as well is not looked at: the conversation is filed, by the
    one manual edge it has afterwards, under the category that the
    export holds under the slug of that name; a category of that slug
    that exists is taken as it is, otherwise one row is added for it,
    with the name as given and marked as made by the user.  The edges of
    every other conversation stay. *)
Theorem move_conversation_new_category export_id conversation_id category_id name st :
  conversation_in conversation_id export_id (committed st) ->
  name <> "" ->
  Forall (fun c => cat_id c <> "") (categories (committed st)) ->
  let run := move_conversation export_id conversation_id category_id (Some name) st in
  exists target,
    fst run = Ok ("/exports/" +:+ export_id) /\
    select_category export_id (slugify name) (committed (snd run)) = Some target /\
    edges_of conversation_id (committed (snd run)) = [manual_edge conversation_id target] /\
    edges_of_others conversation_id (committed (snd run)) =
      edges_of_others conversation_id (committed st) /\
    match select_category export_id (slugify name) (committed st) with
    | Some id =>
        target = id /\ categories (committed (snd run)) = categories (committed st)
    | None =>
        target = uuid_str (next_uuid st) /\
        categories (committed (snd run)) =
          categories (committed st) ++ [CategoryRow target export_id name (slugify name) 0]
    end /\
    run = move_conversation export_id conversation_id None (Some name) st.
Proof.
  intros Hconv Hname Hids. cbv zeta.
  destruct (select_conversation conversation_id export_id (committed st)) as [x|] eqn:Hx;
    [|by apply select_conversation_None in Hx].
  assert (str_empty name = false) as Hne by (by destruct name).
  unfold move_conversation, bind, get_conn, query, commit, close, ret.
  simpl. rewrite Hx, Hne. simpl. rewrite ensure_category_unfold. simpl.
  destruct (select_category export_id (slugify name) (committed st)) as [id|] eqn:Hsel; simpl.
  - pose proof Hsel as Hsel'.
    apply select_category_Some in Hsel' as (c & Hin & <- & _).
    rewrite Forall_forall in Hids. pose proof (Hids c Hin) as Hc.
    assert (str_empty (cat_id c) = false) as -> by (by destruct (cat_id c)). simpl.
    exists (cat_id c). split; [done|]. split; [done|].
    unfold edges_of, edges_of_others. simpl. rewrite insert_after_delete.
    split; [by apply edges_of_moved|]. split; [by apply edges_of_others_moved|]. done.
  - exists (uuid_str (next_uuid st)). split; [done|].
    split.
    { change (select_category export_id (slugify name)
                (insert_category
                   (CategoryRow (uuid_str (next_uuid st)) export_id name (slugify name) 0)
                   (committed st)) = Some (uuid_str (next_uuid st))).
      by apply (select_category_inserted export_id (slugify name) (committed st)
                  (CategoryRow (uuid_str (next_uuid st)) export_id name (slugify name) 0)
                  Hsel). }
    unfold edges_of, edges_of_others. simpl. rewrite insert_after_delete.
    split; [by apply edges_of_moved|]. split; [by apply edges_of_others_moved|]. done.
Qed.

End Move.

Lemma demo_db_conversation : conversation_in "c1" "e1" (committed demo_state).
Proof.
  exists (ConversationRow "c1" "e1" SNull (SText "Old talk") None "{}").
  split; [apply elem_of_cons; by left|by split].
Defined.

Lemma move_conversation_not_found_witness :
  let run := move_conversation "e2" "c1" (Some "k1") (Some "Pets") demo_state in
  fst run = Raise (HTTPException 404 "Conversation not found") /\
  committed (snd run) = committed demo_state /\ files (snd run) = files demo_state /\
  next_uuid (snd run) = next_uuid demo_state.
Proof.
  apply (move_conversation_not_found "e2" "c1" (Some "k1") (Some "Pets") demo_state).
  by apply select_conversation_None.
Defined.

Lemma move_conversation_new_category_witness :
  let run := move_conversation "e1" "c1" (Some "k2") (Some "DOG!") demo_state in
  exists target,
    fst run = Ok ("/exports/" +:+ "e1") /\
    select_category "e1" (slugify "DOG!") (committed (snd run)) = Some target /\
    edges_of "c1" (committed (snd run)) = [manual_edge "c1" target] /\
    edges_of_others "c1" (committed (snd run)) = edges_of_others "c1" (committed demo_state) /\
    match select_category "e1" (slugify "DOG!") (committed demo_state) with
    | Some id =>
        target = id /\ categories (committed (snd run)) = categories (committed demo_state)
    | None =>
        target = uuid_str (next_uuid demo_state) /\
        categories (committed (snd run)) =
          categories (committed demo_state) ++
          [CategoryRow target "e1" "DOG!" (slugify "DOG!") 0]
    end /\
    run = move_conversation "e1" "c1" None (Some "DOG!") demo_state.
Proof.
  apply (move_conversation_new_category "e1" "c1" (Some "k2") "DOG!" demo_state
           demo_db_conversation); [done|].
  repeat constructor; done.
Defined.

(** ** parse_export: what a run leaves behind *)

Section Runs.
Context {env : Env}.

Lemma begin_processing_run export_id st :
  begin_processing export_id st =
  let d := update_export_status "processing" export_id (committed st) in
  let export_dir := path_join (path_join STORAGE_DIR "exports") export_id in
  match mkdir_p (path_join export_dir "extracted") (files st) with
  | Raise e => (Raise e, State d d (files st) (next_uuid st))
  | Ok f1 =>
      match mkdir_p (path_join export_dir "assets") f1 with
      | Raise e => (Raise e, State d d f1 (next_uuid st))
      | Ok f2 => (Ok (path_join export_dir "extracted"), State d d f2 (next_uuid st))
      end
  end.
Proof.
  unfold begin_processing, bind, get_conn, execute, commit, on_files, ret. simpl.
  destruct (mkdir_p _ (files st)) as [f1|e]; [|done]. simpl.
  by destruct (mkdir_p _ f1) as [f2|e].
Qed.

(** The state [parse_export] ends in, from the state the body of the
    [with] block ends in. *)
Lemma parse_export_run export_id zip_path st extracted_dir st1 :
  begin_processing export_id st = (Ok extracted_dir, st1) ->
  let body := ingest export_id zip_path extracted_dir (workspace_of st1) (in_workspace st1) in
  parse_export export_id zip_path st =
  (fst body,
   let d := match fst body with
            | Ok _ => committed (snd body)
            | Raise exc =>
                update_export_outcome "failed" (Some (str_exc exc)) export_id
                  (conn (snd body))
            end in
   State d d (rmtree (workspace_of st1) (files (snd body))) (next_uuid (snd body))).
Proof.
  intros Hb. cbv zeta. rewrite parse_export_unfold, Hb.
  unfold try_finally, try_except, close. rewrite with_temporary_directory_run. cbv zeta.
  fold (workspace_of st1). fold (in_workspace st1).
  destruct (ingest _ _ _ _ _) as [[[]|exc] st2]; reflexivity.
Qed.

(** X13: when one of the two directories of the export cannot be made,
    [parse_export] ends with the exception of that [mkdir]; the export
    is then left, durably, with the status [processing]: neither
    [ready] nor [failed] is recorded for it, and no error message. *)
Theorem parse_export_stuck_processing export_id zip_path st exc :
  fst (begin_processing export_id st) = Raise exc ->
  let run := parse_export export_id zip_path st in
  fst run = Raise exc /\
  exports (committed (snd run)) =
    (fun r => if String.eqb (ex_id r) export_id
              then ExportRow (ex_id r) (ex_name r) "processing" (ex_source_zip_path r)
                             (ex_error_message r)
              else r) <$> exports (committed st) /\
  (exists f1,
     mkdir_p (path_join (path_join (path_join STORAGE_DIR "exports") export_id) "extracted")
             (files st) = Raise exc \/
     mkdir_p (path_join (path_join (path_join STORAGE_DIR "exports") export_id) "extracted")
             (files st) = Ok f1 /\
     mkdir_p (path_join (path_join (path_join STORAGE_DIR "exports") export_id) "assets")
             f1 = Raise exc).
Proof.
  intros Hb. cbv zeta. rewrite parse_export_unfold.
  rewrite begin_processing_run in Hb |- *. cbv zeta in Hb |- *.
  destruct (mkdir_p _ (files st)) as [f1|e] eqn:H1.
  - destruct (mkdir_p _ f1) as [f2|e] eqn:H2; [done|].
    simpl in Hb. injection Hb as ->. split; [done|]. split; [done|].
    exists f1. right. by split.
  - simpl in Hb. injection Hb as ->. split; [done|]. split; [done|].
    exists ∅. by left.
Qed.

Lemma lookup_rmtree (root q : path) (f : fs) :
  root `prefix_of` q -> rmtree root f !! q = None.
Proof.
  intros Hq. unfold rmtree. apply map_lookup_filter_None. right.
  intros x _ Hno. by apply Hno.
Qed.

Lemma lookup_rmtree_apart (root q : path) (f : fs) :
  ~ root `prefix_of` q -> rmtree root f !! q = f !! q.
Proof.
  intros Hq. unfold rmtree. destruct (f !! q) as [x|] eqn:Hf.
  - by apply map_lookup_filter_Some.
  - apply map_lookup_filter_None. by left.
Qed.

(** X14: once the export is marked [processing] and its directories are
    made, the temporary directory the archive is unpacked into is gone
    when [parse_export] ends, with all it held, whether the ingestion
    went through or raised. *)
Theorem parse_export_cleans_workspace export_id zip_path st extracted_dir st1 :
  begin_processing export_id st = (Ok extracted_dir, st1) ->
  forall q : path,
    workspace_of st1 `prefix_of` q ->
    files (snd (parse_export export_id zip_path st)) !! q = None.
Proof.
  intros Hb q Hq. rewrite (parse_export_run _ _ _ _ _ Hb). cbv zeta. simpl.
  by apply lookup_rmtree.
Qed.

#[local] Instance grows_preorder : PreOrder grows.
Proof.
  split.
  - intros d. by repeat split.
  - intros d1 d2 d3 (?&?&?&?&?&?) (?&?&?&?&?&?).
    repeat split; [congruence|by etransitivity..].
Qed.

Lemma grows_exports (f : export_row -> export_row) d :
  (forall r, ex_id (f r) = ex_id r) -> grows d (with_exports (fmap f) d).
Proof.
  intros Hf. split; [|by repeat split]. simpl.
  rewrite <- list_fmap_compose. apply list_fmap_ext. intros _ r _. apply Hf.
Qed.

Lemma grows_outcome status error_message export_id d :
  grows d (update_export_outcome status error_message export_id d).
Proof. apply grows_exports. intros r. by destruct (String.eqb _ _). Qed.

Lemma grows_status status export_id d :
  grows d (update_export_status status export_id d).
Proof. apply grows_exports. intros r. by destruct (String.eqb _ _). Qed.

#[local] Instance grows_tolerates : Tolerates grows.
Proof.
  split; intros; unfold grows; simpl.
  - repeat split; try done. by apply prefix_app_r.
  - repeat split; try done. by apply prefix_app_r.
  - repeat split; try done. rewrite fmap_app. by apply prefix_app_r.
  - repeat split; try done. by apply prefix_app_r.
  - repeat split; try done. destruct (existsb _ _); [done|]. by apply prefix_app_r.
  - repeat split; try done. rewrite <- list_fmap_compose.
    erewrite list_fmap_ext; [done|]. intros _ a' _. simpl.
    by destruct (String.eqb (as_id a') a).
Qed.

Lemma keeps_commit (Rdb : database -> database -> Prop) `{!PreOrder Rdb} : keeps Rdb commit.
Proof. intros st. reflexivity. Qed.

Lemma keeps_ingest (Rdb : database -> database -> Prop) `{!PreOrder Rdb} `{!Tolerates Rdb}
    export_id zip_path extracted_dir tmp_path :
  (forall d, Rdb d (update_export_outcome "ready" None export_id d)) ->
  keeps Rdb (ingest export_id zip_path extracted_dir tmp_path).
Proof.
  intros Hready. unfold ingest.
  apply keeps_bind; [done|by apply keeps_safe_extract|intros _].
  apply keeps_bind; [done|by apply keeps_read_files|intros found].
  destruct found as [conv_file|]; [|by apply keeps_raise].
  apply keeps_bind; [done|by apply keeps_read_files|intros b].
  apply keeps_bind; [done|by apply keeps_lift|intros b'].
  apply keeps_bind; [done|by apply keeps_lift|intros payload].
  destruct payload; try by apply keeps_raise.
  apply keeps_bind; [done|by apply keeps_register_assets|intros file_map].
  apply keeps_bind; [done| |intros _].
  { apply keeps_for_each; [done|]. intros conv. by apply keeps_ingest_conversation. }
  apply keeps_bind; [done|by apply keeps_execute|intros _].
  by apply keeps_commit.
Qed.

Lemma ingest_ok_committed export_id zip_path extracted_dir tmp_path st st' :
  ingest export_id zip_path extracted_dir tmp_path st = (Ok tt, st') ->
  committed st' = conn st'.
Proof.
  unfold ingest, bind.
  destruct (safe_extract zip_path tmp_path st) as [[[]|e] s1]; [|done].
  unfold read_files at 1. simpl.
  destruct (find_manifest tmp_path (files s1)) as [conv_file|]; [|done].
  destruct (read_bytes conv_file (files s1)) as [b|e]; [|done].
  destruct (json_load b) as [payload|e]; [|done].
  destruct payload; try done.
  destruct (register_assets _ _ _ _ s1) as [[file_map|e] s2]; [|done].
  destruct (for_each l _ s2) as [[[]|e] s3]; [|done].
  simpl. by intros [= <-].
Qed.

(** X15: an import, whether it goes through or fails, leaves every row
    that the tables held before in its place and as it was, the link
    columns of [assets] and the status columns of [exports] apart: rows
    are only added.  When the ingestion raises, what the connection had
    written until then is committed together with the failure mark:
    the rows of the conversations ingested before the exception
    stay. *)
Theorem parse_export_keeps_rows export_id zip_path st extracted_dir st1 :
  begin_processing export_id st = (Ok extracted_dir, st1) ->
  let body := ingest export_id zip_path extracted_dir (workspace_of st1) (in_workspace st1) in
  let run := parse_export export_id zip_path st in
  grows (committed st) (committed (snd run)) /\
  conversations (committed (snd run)) = conversations (conn (snd body)) /\
  messages (committed (snd run)) = messages (conn (snd body)) /\
  assets (committed (snd run)) = assets (conn (snd body)) /\
  categories (committed (snd run)) = categories (conn (snd body)) /\
  conversation_categories (committed (snd run)) = conversation_categories (conn (snd body)).
Proof.
  intros Hb. cbv zeta. rewrite (parse_export_run _ _ _ _ _ Hb). cbv zeta.
  assert (conn st1 = update_export_status "processing" export_id (committed st)) as Hst1.
  { rewrite begin_processing_run in Hb. cbv zeta in Hb.
    destruct (mkdir_p _ (files st)) as [f1|e]; [|done].
    destruct (mkdir_p _ f1) as [f2|e]; [|done]. by injection Hb as _ <-. }
  assert (grows (committed st) (conn st1)) as Hstart.
  { rewrite Hst1. apply grows_status. }
  pose proof (keeps_ingest grows export_id zip_path extracted_dir (workspace_of st1)
                (grows_outcome "ready" None export_id) (in_workspace st1)) as Hbody.
  change (conn (in_workspace st1)) with (conn st1) in Hbody.
  destruct (ingest _ _ _ _ _) as [[[]|exc] st2] eqn:Hrun; simpl in *.
  - apply ingest_ok_committed in Hrun. rewrite Hrun.
    split; [by etransitivity|]. by repeat split.
  - pose proof (grows_outcome "failed" (Some (str_exc exc)) export_id (conn st2)) as Hmark.
    split; [|by repeat split].
    transitivity (conn st1); [done|]. by transitivity (conn st2).
Qed.

End Runs.

Lemma parse_export_stuck_processing_witness :
  let exc := NotADirectoryError ["srv"; "brain"; "storage"; "exports"; "e1"; "extracted"] in
  let run := @parse_export demo_full_env "e1" demo_zip_path demo_blocked_state in
  fst run = Raise exc /\
  exports (committed (snd run)) =
    (fun r => if String.eqb (ex_id r) "e1"
              then ExportRow (ex_id r) (ex_name r) "processing" (ex_source_zip_path r)
                             (ex_error_message r)
              else r) <$> exports (committed demo_blocked_state) /\
  (exists f1,
     mkdir_p (path_join (path_join (path_join (@STORAGE_DIR demo_full_env) "exports") "e1")
                        "extracted")
             (files demo_blocked_state) = Raise exc \/
     mkdir_p (path_join (path_join (path_join (@STORAGE_DIR demo_full_env) "exports") "e1")
                        "extracted")
             (files demo_blocked_state) = Ok f1 /\
     mkdir_p (path_join (path_join (path_join (@STORAGE_DIR demo_full_env) "exports") "e1")
                        "assets")
             f1 = Raise exc).
Proof.
  apply (@parse_export_stuck_processing demo_full_env "e1" demo_zip_path demo_blocked_state).
  vm_compute. reflexivity.
Defined.

Lemma parse_export_cleans_workspace_witness :
  files (snd (@parse_export demo_full_env "e1" demo_zip_path demo_state))
    !! (demo_tmp ++ ["media"; "photo.png"]) = None.
Proof.
  apply (@parse_export_cleans_workspace demo_full_env "e1" demo_zip_path demo_state
           demo_extracted_dir (snd (@begin_processing demo_full_env "e1" demo_state))).
  - vm_cast_no_check (eq_refl (@begin_processing demo_full_env "e1" demo_state)).
  - exists ["media"; "photo.png"]. vm_compute. reflexivity.
Defined.

Lemma parse_export_keeps_rows_witness :
  let st1 := snd (@begin_processing demo_broken_env "e1" demo_state) in
  let body := @ingest demo_broken_env "e1" demo_zip_path demo_extracted_dir
                (@workspace_of demo_broken_env st1) (@in_workspace demo_broken_env st1) in
  let run := @parse_export demo_broken_env "e1" demo_zip_path demo_state in
  grows (committed demo_state) (committed (snd run)) /\
  conversations (committed (snd run)) = conversations (conn (snd body)) /\
  messages (committed (snd run)) = messages (conn (snd body)) /\
  assets (committed (snd run)) = assets (conn (snd body)) /\
  categories (committed (snd run)) = categories (conn (snd body)) /\
  conversation_categories (committed (snd run)) = conversation_categories (conn (snd body)).
Proof.
  apply (@parse_export_keeps_rows demo_broken_env "e1" demo_zip_path demo_state
           demo_extracted_dir (snd (@begin_processing demo_broken_env "e1" demo_state))).
  vm_cast_no_check (eq_refl (@begin_processing demo_broken_env "e1" demo_state)).
Defined.

Example parse_export_partial_example :
  let run := @parse_export demo_broken_env "e1" demo_zip_path demo_state in
  fst run = Raise (AttributeError "'str' object has no attribute 'get'") /\
  ex_status <$> exports (committed (snd run)) = ["failed"] /\
  cv_title <$> conversations (committed (snd run)) =
    [SText "Old talk"; SText "My Dog Visit"] /\
  ms_content_text <$> messages (committed (snd run)) =
    ["My dog needs a vet checkup, see Photo.PNG"] /\
  length (rglob ["tmp"] (files (snd run))) = 0.
Proof. cbv zeta. repeat split; vm_compute; reflexivity. Qed.

(** ** upload_export *)

Section Upload.
Context {env : Env}.

Lemma string_app_cons c s t : String c s +:+ t = String c (s +:+ t).
Proof. reflexivity. Qed.

Lemma string_app_assoc s t u : (s +:+ t) +:+ u = s +:+ (t +:+ u).
Proof.
  induction s as [|c s IH]; [done|]. by rewrite !string_app_cons, IH.
Qed.

Lemma rev_app_spec s acc : String.rev_app s acc = String.rev s +:+ acc.
Proof.
  unfold String.rev. revert acc. induction s as [|c s IH]; intros acc; [done|].
  cbn [String.rev_app]. rewrite (IH (String c acc)), (IH (String c "")).
  by rewrite string_app_assoc.
Qed.

Lemma rev_app_rev_app s acc acc' :
  String.rev_app (String.rev_app s acc) acc' = String.rev_app acc (s +:+ acc').
Proof.
  revert acc. induction s as [|c s IH]; intros acc; [done|].
  cbn [String.rev_app]. by rewrite IH.
Qed.

Lemma string_rev_involutive s : String.rev (String.rev s) = s.
Proof.
  unfold String.rev. rewrite rev_app_rev_app. cbn [String.rev_app].
  apply string_app_nil_r.
Qed.

Lemma string_rev_app s t : String.rev (s +:+ t) = String.rev t +:+ String.rev s.
Proof. unfold String.rev at 1. by rewrite rev_app_app, rev_app_spec. Qed.

Lemma is_prefix_spec p s : is_prefix p s = true <-> exists r, s = p +:+ r.
Proof.
  revert s. induction p as [|a p IH]; intros s; cbn [is_prefix].
  - split; [by exists s|done].
  - destruct s as [|b s].
    + split; [done|]. by intros [r Hr].
    + rewrite andb_true_iff, Ascii.eqb_eq, IH. split.
      * intros [-> [r ->]]. by exists r.
      * intros [r Hr]. rewrite string_app_cons in Hr. injection Hr as -> ->.
        split; [done|by exists r].
Qed.

Lemma endswith_spec s t : endswith s t = true <-> exists stem, s = stem +:+ t.
Proof.
  unfold endswith. rewrite is_prefix_spec. split.
  - intros [r Hr]. exists (String.rev r).
    rewrite <- (string_rev_involutive s), Hr, string_rev_app.
    by rewrite string_rev_involutive.
  - intros [stem ->]. exists (String.rev stem). apply string_rev_app.
Qed.

(** X16: an upload is taken only when the name of the file, read
    without regard to case, ends in [.zip]; any other upload is
    answered with 400 before anything is done: no identifier is drawn,
    nothing is stored and nothing is recorded. *)
Theorem upload_export_requires_zip name filename body st :
  (endswith (lower filename) ".zip" = true <->
   exists stem, lower filename = stem +:+ ".zip") /\
  (endswith (lower filename) ".zip" = false ->
   upload_export name filename body st =
     (Raise (HTTPException 400 "Please upload a .zip file"), st)).
Proof.
  split; [apply endswith_spec|]. intros Hno.
  unfold upload_export, receive_upload, bind. by rewrite Hno.
Qed.

End Upload.

Example upload_export_names :
  endswith (lower "Chat Export.ZIP") ".zip" = true /\
  endswith (lower "export.zip.txt") ".zip" = false /\
  endswith (lower "zip") ".zip" = false /\
  endswith (lower ".zip") ".zip" = true.
Proof. repeat split. Qed.

(** ** parse_export: the places it writes to *)

Section Confinement.
Context {env : Env}.

Lemma quiet_ret {A} (a : A) : quiet (ret a).
Proof. by intros st. Qed.

Lemma quiet_raise {A} (e : exn) : quiet (@raise A e).
Proof. by intros st. Qed.

Lemma quiet_lift {A} (r : result A) : quiet (lift r).
Proof. by intros st. Qed.

Lemma quiet_query {A} (g : database -> A) : quiet (query g).
Proof. by intros st. Qed.

Lemma quiet_uuid4 : quiet uuid4.
Proof. by intros st. Qed.

Lemma quiet_execute g : quiet (execute g).
Proof. by intros st. Qed.

Lemma quiet_commit : quiet commit.
Proof. by intros st. Qed.

Lemma quiet_bind {A B} (c : M A) (k : A -> M B) :
  quiet c -> (forall a, quiet (k a)) -> quiet (bind c k).
Proof.
  intros Hc Hk st. unfold bind. specialize (Hc st).
  destruct (c st) as [[a|e] st']; simpl in *; [|done].
  by rewrite Hk.
Qed.

Lemma quiet_for_each {A} (l : list A) body :
  (forall x, quiet (body x)) -> quiet (for_each l body).
Proof.
  intros Hb. induction l as [|x l IH]; cbn [for_each]; [apply quiet_ret|].
  apply quiet_bind; [apply Hb|done].
Qed.

Lemma quiet_for_fold {A S} (l : list A) (acc : S) body :
  (forall s x, quiet (body s x)) -> quiet (for_fold l acc body).
Proof.
  intros Hb. revert acc. induction l as [|x l IH]; intros acc; cbn [for_fold];
    [apply quiet_ret|].
  apply quiet_bind; [apply Hb|done].
Qed.

Ltac quiet_step :=
  match goal with
  | |- quiet (ret _) => apply quiet_ret
  | |- quiet (raise _) => apply quiet_raise
  | |- quiet (lift _) => apply quiet_lift
  | |- quiet (query _) => apply quiet_query
  | |- quiet uuid4 => apply quiet_uuid4
  | |- quiet (execute _) => apply quiet_execute
  | |- quiet commit => apply quiet_commit
  | |- quiet (bind _ _) => apply quiet_bind; [|intros ?]
  | |- quiet (for_each _ _) => apply quiet_for_each; intros ?
  | |- quiet (for_fold _ _ _) => apply quiet_for_fold; intros ? ?
  | |- quiet (if ?b then _ else _) => destruct b
  | |- quiet (match ?x with _ => _ end) => destruct x
  end.

Lemma quiet_ingest_conversation export_id file_map conv :
  quiet (ingest_conversation export_id file_map conv).
Proof.
  unfold ingest_conversation, ingest_message, link_assets, categorize, apply_rule,
    ensure_category.
  repeat quiet_step.
Qed.

Lemma register_file_confined export_id (ws conv_file ed : path) fm (file : path) st :
  dir_chain (files st) ed ->
  ws `prefix_of` file -> file <> ws ->
  let st' := snd (register_file export_id ws conv_file ed fm file st) in
  dir_chain (files st') ed /\
  forall q : path, ~ ed `prefix_of` q -> files st' !! q = files st !! q.
Proof.
  intros Hchain Hpre Hne. cbv zeta. rewrite register_file_run.
  destruct (negb _ || _)%bool; [done|]. cbv zeta.
  set (rel := drop (length ws) file).
  assert (rel <> []) as Hrel.
  { unfold rel. destruct Hpre as [r ->]. rewrite drop_app_length.
    intros ->. by rewrite app_nil_r in Hne. }
  assert (parent (target_of ws ed file) = ed ++ removelast rel) as Hparent
    by (unfold parent, target_of; by rewrite removelast_app).
  destruct (mkdir_p _ (files st)) as [f1|e] eqn:Hm1; [|done].
  rewrite Hparent in Hm1.
  destruct (mkdir_p_confined ed (ed ++ removelast rel) (removelast rel) _ _ Hchain
              ltac:(done) Hm1) as [Hc1 Ho1].
  assert (forall f2, copy2 file (target_of ws ed file) f1 = Ok f2 ->
            dir_chain f2 ed /\ forall q : path, ~ ed `prefix_of` q -> f2 !! q = files st !! q)
    as Hcopy.
  { intros f2. unfold copy2. destruct (read_bytes file f1) as [b|e]; [|done].
    intros Hw. apply write_file_confined with (dest := ed) in Hw as [Hc2 Ho2]; [|done|].
    - split; [done|]. intros q Hq. by rewrite Ho2, Ho1.
    - unfold target_of. destruct (is_dir f1 _).
      + rewrite <- app_assoc. by eexists.
      + by eexists. }
  destruct (copy2 _ _ f1) as [f2|e]; [|done].
  destruct (Hcopy f2 eq_refl) as [Hc2 Ho2].
  destruct (classify_asset _); [|done].
  destruct (read_bytes file f2); [|done].
  by destruct (relative_to _ _).
Qed.

Lemma register_loop_confined export_id (ws conv_file ed : path) (todo : list path) :
  forall fm st,
    dir_chain (files st) ed ->
    Forall (fun k => ws `prefix_of` k /\ k <> ws) todo ->
    let st' := snd (for_fold todo fm (register_file export_id ws conv_file ed) st) in
    dir_chain (files st') ed /\
    forall q : path, ~ ed `prefix_of` q -> files st' !! q = files st !! q.
Proof.
  induction todo as [|file todo IH]; intros fm st Hchain Hall; cbn [for_fold]; [done|].
  apply Forall_cons in Hall as [[Hpre Hne] Hall].
  destruct (register_file_confined export_id ws conv_file ed fm file st Hchain Hpre Hne)
    as [Hc1 Ho1].
  unfold bind. destruct (register_file _ _ _ _ fm file st) as [[fm1|e] st1]; [|done].
  simpl in Hc1, Ho1. destruct (IH fm1 st1 Hc1 Hall) as [Hc2 Ho2].
  split; [done|]. intros q Hq. by rewrite Ho2, Ho1.
Qed.

Lemma safe_extract_files zip_path (ws : path) st :
  dir_chain (files st) ws ->
  forall q : path, ~ ws `prefix_of` q ->
    files (snd (safe_extract zip_path ws st)) !! q = files st !! q.
Proof.
  intros Hchain q Hq. unfold safe_extract, bind, read_files, lift. simpl.
  destruct (read_bytes zip_path (files st)) as [b|e]; [|done].
  destruct (zipfile_open b) as [ms|e]; [|done].
  pose proof (extract_members_confined ws ms (files st) Hchain q Hq) as Hconf.
  by destruct (extract_members ws ms (files st)) as [[e|] f'].
Qed.

Lemma ingest_confined export_id zip_path (ed ws : path) st :
  dir_chain (files st) ws -> dir_chain (files st) ed ->
  ~ ws `prefix_of` ed ->
  forall q : path, ~ ws `prefix_of` q -> ~ ed `prefix_of` q ->
    files (snd (ingest export_id zip_path ed ws st)) !! q = files st !! q.
Proof.
  intros Hws Hed Hapart q Hqw Hqe. unfold ingest, bind.
  pose proof (safe_extract_files zip_path ws st Hws) as Hext.
  destruct (safe_extract zip_path ws st) as [[[]|e] s1]; simpl in Hext; [|by apply Hext].
  assert (dir_chain (files s1) ed) as Hed1.
  { intros p Hp Hpe. rewrite Hext; [by apply Hed|].
    intros Hwp. apply Hapart. by etransitivity. }
  unfold read_files at 1. simpl.
  destruct (find_manifest ws (files s1)) as [conv_file|]; [|by apply Hext].
  destruct (read_bytes conv_file (files s1)) as [b|e]; [|by apply Hext].
  destruct (json_load b) as [payload|e]; [|by apply Hext].
  destruct payload; try by apply Hext.
  unfold register_assets, bind, read_files. simpl.
  destruct (rglob_below ws (files s1)) as [Hbelow _].
  destruct (register_loop_confined export_id ws conv_file ed (rglob ws (files s1)) [] s1
              Hed1 Hbelow) as [_ Hreg].
  destruct (for_fold _ _ _ s1) as [[file_map|e] s2]; simpl in Hreg;
    [|by rewrite Hreg, Hext].
  pose proof (quiet_for_each l (ingest_conversation export_id file_map)
                (quiet_ingest_conversation export_id file_map) s2) as Hloop.
  destruct (for_each l _ s2) as [[[]|e] s3]; simpl in Hloop.
  - simpl. by rewrite Hloop, Hreg, Hext.
  - simpl. by rewrite Hloop, Hreg, Hext.
Qed.

Lemma begin_processing_files export_id st ed st1 :
  begin_processing export_id st = (Ok ed, st1) ->
  dir_chain (files st1) ed /\
  forall q : path, is_Some (files st !! q) -> files st1 !! q = files st !! q.
Proof.
  rewrite begin_processing_run. cbv zeta.
  destruct (mkdir_p _ (files st)) as [f1|e] eqn:H1; [|done].
  destruct (mkdir_p _ f1) as [f2|e] eqn:H2; [|done].
  intros [= <- <-]. simpl.
  destruct (mkdir_from_ok _ _ _ _ _ H1) as (A1 & _ & A3).
  destruct (mkdir_from_ok _ _ _ _ _ H2) as (_ & _ & B3).
  split.
  - intros q Hq Hpre. rewrite B3; [|rewrite A1; [by eexists|by apply on_way_root]].
    apply A1. by apply on_way_root.
  - intros q Hq. rewrite B3; [by apply A3|]. by rewrite A3.
Qed.

Lemma parse_export_outside export_id zip_path st ed st1 :
  begin_processing export_id st = (Ok ed, st1) ->
  dir_chain (files st) TMP_DIR ->
  ~ workspace_of st1 `prefix_of` ed ->
  forall q : path,
    ~ workspace_of st1 `prefix_of` q -> ~ ed `prefix_of` q ->
    files (snd (parse_export export_id zip_path st)) !! q = files st1 !! q.
Proof.
  intros Hb Htmp Hapart q Hqw Hqe.
  destruct (begin_processing_files _ _ _ _ Hb) as [Hed Hkeep].
  rewrite (parse_export_run _ _ _ _ _ Hb). cbv zeta. simpl.
  rewrite lookup_rmtree_apart by done.
  assert (forall p : path, ~ workspace_of st1 `prefix_of` p ->
            files (in_workspace st1) !! p = files st1 !! p) as Hin.
  { intros p Hp. unfold in_workspace. simpl. apply lookup_insert_ne. by intros <-. }
  rewrite ingest_confined; [by apply Hin| | |done|done|done].
  - intros p Hp Hpre. destruct (decide (p = workspace_of st1)) as [->|Hne].
    + unfold in_workspace. simpl. apply lookup_insert_eq.
    + unfold in_workspace. simpl. rewrite lookup_insert_ne by done.
      apply (strict_prefix_removelast p _ Hpre) in Hne.
      unfold workspace_of in Hne. rewrite removelast_last in Hne.
      rewrite Hkeep; [by apply Htmp|]. rewrite Htmp; [by eexists|done|done].
  - intros p Hp Hpre. rewrite Hin; [by apply Hed|].
    intros Hwp. apply Hapart. by etransitivity.
Qed.

(** X17: once the export is marked [processing] and its directories are
    made, with the directory for temporary files in place and the
    workspace drawn not above the export's [extracted] directory, an
    import writes to two places only: whatever lies outside the
    workspace and outside [extracted] is, when [parse_export] ends, as
    it was when the ingestion began, whether it went through or raised;
    and what was there before the call is still there, unchanged. *)
Theorem parse_export_confined export_id zip_path st ed st1 :
  begin_processing export_id st = (Ok ed, st1) ->
  dir_chain (files st) TMP_DIR ->
  ~ workspace_of st1 `prefix_of` ed ->
  forall q : path,
    ~ workspace_of st1 `prefix_of` q -> ~ ed `prefix_of` q ->
    files (snd (parse_export export_id zip_path st)) !! q = files st1 !! q /\
    (is_Some (files st !! q) ->
     files (snd (parse_export export_id zip_path st)) !! q = files st !! q).
Proof.
  intros Hb Htmp Hapart q Hqw Hqe.
  pose proof (parse_export_outside export_id zip_path st ed st1 Hb Htmp Hapart q Hqw Hqe)
    as Hq.
  destruct (begin_processing_files _ _ _ _ Hb) as [_ Hkeep].
  split; [done|]. intros Hsome. by rewrite Hq, Hkeep.
Qed.

End Confinement.

Lemma demo_tmp_in_place : dir_chain (files demo_state) (@TMP_DIR demo_full_env).
Proof.
  intros q Hne [k Hk]. simpl in Hk.
  destruct q as [|a [|b q]]; [done| |discriminate].
  injection Hk as <- _. reflexivity.
Defined.

Lemma parse_export_confined_witness :
  files (snd (@parse_export demo_full_env "e1" demo_zip_path demo_state)) !! demo_zip_path =
    files (snd (@begin_processing demo_full_env "e1" demo_state)) !! demo_zip_path /\
  (is_Some (files demo_state !! demo_zip_path) ->
   files (snd (@parse_export demo_full_env "e1" demo_zip_path demo_state)) !! demo_zip_path =
     files demo_state !! demo_zip_path).
Proof.
  apply (@parse_export_confined demo_full_env "e1" demo_zip_path demo_state
           demo_extracted_dir (snd (@begin_processing demo_full_env "e1" demo_state))).
  - vm_cast_no_check (eq_refl (@begin_processing demo_full_env "e1" demo_state)).
  - exact demo_tmp_in_place.
  - intros [k Hk]. vm_compute in Hk. discriminate.
  - intros [k Hk]. vm_compute in Hk. discriminate.
  - intros [k Hk]. vm_compute in Hk. discriminate.
Defined.

(** ** upload_export: an archive taken in *)

Section Intake.
Context {env : Env}.

Lemma prefix_snoc_inv (q l : path) x : q `prefix_of` l ++ [x] -> q `prefix_of` l \/ q = l ++ [x].
Proof.
  intros Hq. destruct (decide (q = l ++ [x])) as [->|Hne]; [by right|left].
  apply (strict_prefix_removelast q _ Hq) in Hne. by rewrite removelast_last in Hne.
Qed.

Lemma is_file_None (f : fs) (q : path) : f !! q = None -> is_file f q = false.
Proof.
  intros Hq. unfold is_file. destruct q as [|a q]; [done|]. simpl. by rewrite Hq.
Qed.

Lemma mkdir_p_clear (p : path) (f : fs) :
  (forall q, q <> [] -> q `prefix_of` p -> is_file f q = false) ->
  exists f',
    mkdir_p p f = Ok f' /\
    (forall q, q <> [] -> q `prefix_of` p -> f' !! q = Some FDir) /\
    (forall q, ~ q `prefix_of` p -> f' !! q = f !! q) /\
    (forall q, is_Some (f !! q) -> f' !! q = f !! q) /\
    (forall q, is_file f' q = is_file f q).
Proof.
  intros Hclear.
  destruct (mkdir_from_succeeds p p [] f) as [f' Hm].
  { intros q Hq. apply on_way_root in Hq as [Hne Hpre]. by apply Hclear. }
  exists f'. split; [done|].
  destruct (mkdir_from_ok _ _ _ _ _ Hm) as (A1 & A2 & A3).
  split; [intros q Hne Hpre; apply A1; by apply on_way_root|].
  split; [intros q Hno; apply A2; rewrite on_way_root; by intros [_ ?]|].
  split; [done|].
  intros q. destruct q as [|a q]; [done|].
  destruct (decide (a :: q `prefix_of` p)) as [Hpre|Hno].
  - rewrite (Hclear (a :: q) ltac:(done) Hpre). unfold is_file. simpl.
    by rewrite (A1 (a :: q)) by (by apply on_way_root).
  - unfold is_file. simpl. rewrite (A2 (a :: q)); [done|].
    rewrite on_way_root. by intros [_ ?].
Qed.

Lemma receive_upload_run name filename body st :
  endswith (lower filename) ".zip" = true ->
  let export_id := uuid_str (next_uuid st) in
  let source := path_join (export_dir_of export_id) "source" in
  receive_upload name filename body st =
  match mkdir_p source (files st) with
  | Raise e => (Raise e, State (committed st) (conn st) (files st) (S (next_uuid st)))
  | Ok f1 =>
      match write_file (zip_path_of export_id) body f1 with
      | Raise e => (Raise e, State (committed st) (conn st) f1 (S (next_uuid st)))
      | Ok f2 =>
          match relative_to (zip_path_of export_id) STORAGE_DIR with
          | Raise e => (Raise e, State (committed st) (committed st) f2 (S (next_uuid st)))
          | Ok rel =>
              let d := insert_export
                         (ExportRow export_id name "uploaded" (join "/" rel) None)
                         (committed st) in
              (Ok (export_id, zip_path_of export_id), State d d f2 (S (next_uuid st)))
          end
      end
  end.
Proof.
  intros Hzip. cbv zeta.
  unfold receive_upload, bind, uuid4, on_files, get_conn, lift, execute, commit, close, ret.
  rewrite Hzip. simpl. fold (export_dir_of (uuid_str (next_uuid st))).
  destruct (mkdir_p _ (files st)) as [f1|e]; [|done]. simpl.
  fold (zip_path_of (uuid_str (next_uuid st))).
  destruct (write_file _ body f1) as [f2|e]; [|done]. simpl.
  by destruct (relative_to _ _) as [rel|e].
Qed.

End Intake.

Section Recorded.
Context {env : Env}.
Variables (name filename : string) (body : list Byte.byte) (st : state).

Abbreviation export_id := (uuid_str (next_uuid st)).
Abbreviation E := (export_dir_of (uuid_str (next_uuid st))).
Abbreviation zip := (zip_path_of (uuid_str (next_uuid st))).

Hypothesis Hzip : endswith (lower filename) ".zip" = true.
Hypothesis Hfresh : Forall (fun r => ex_id r <> export_id) (exports (committed st)).
Hypothesis Hway : forall q : path, q `prefix_of` E -> is_file (files st) q = false.
Hypothesis Hnew : forall q : path, E `prefix_of` q -> files st !! q = None.
Hypothesis Htmp : dir_chain (files st) TMP_DIR.
Hypothesis Hapart : ~ TMP_DIR `prefix_of` E.

Lemma upload_zip_path : zip = E ++ ["source"; "export.zip"].
Proof.
  unfold zip_path_of.
  change (path_join (path_join E "source") "export.zip")
    with ((E ++ ["source"]) ++ ["export.zip"]).
  by rewrite <- app_assoc.
Qed.

Lemma upload_storage_above : STORAGE_DIR `prefix_of` zip.
Proof.
  rewrite upload_zip_path. apply prefix_app_r. unfold export_dir_of.
  change (path_join STORAGE_DIR "exports") with (STORAGE_DIR ++ ["exports"]).
  change (path_join (STORAGE_DIR ++ ["exports"]) export_id)
    with ((STORAGE_DIR ++ ["exports"]) ++ path_parts export_id).
  rewrite <- app_assoc. by eexists.
Qed.

Lemma upload_below (x : string) (rest : path) : E `prefix_of` E ++ x :: rest.
Proof. by eexists. Qed.

Lemma upload_not_zip (q : path) (x : string) : q `prefix_of` E ++ [x] -> q <> zip.
Proof.
  intros Hq ->. apply prefix_length in Hq. rewrite upload_zip_path in Hq.
  rewrite !length_app in Hq. simpl in Hq. lia.
Qed.

Lemma upload_clear (f : fs) (x : string) :
  (forall q : path, q <> zip -> is_file f q = is_file (files st) q) ->
  forall q : path, q <> [] -> q `prefix_of` E ++ [x] -> is_file f q = false.
Proof.
  intros Hsame q Hne Hq. rewrite Hsame by (by apply (upload_not_zip q x)).
  apply prefix_snoc_inv in Hq as [Hq| ->]; [by apply Hway|].
  apply is_file_None, Hnew, upload_below.
Qed.

Lemma upload_tmp_apart (x : string) (rest : path) (y : string) :
  ~ TMP_DIR ++ [y] `prefix_of` E ++ x :: rest.
Proof.
  intros Hpre.
  assert (TMP_DIR `prefix_of` E ++ x :: rest) as Htp
    by (etransitivity; [|exact Hpre]; by eexists).
  destruct (prefix_weak_total _ _ _ Htp (upload_below x rest)) as [H1|H1]; [done|].
  destruct (decide (TMP_DIR = [])) as [Hnil|Hnil].
  - apply Hapart. rewrite Hnil. apply prefix_nil.
  - pose proof (Htmp TMP_DIR Hnil ltac:(done)) as Hdir.
    by rewrite (Hnew TMP_DIR H1) in Hdir.
Qed.

Lemma upload_stored :
  exists f2,
    receive_upload name filename body st =
      (Ok (export_id, zip),
       let d := insert_export (upload_row export_id name "uploaded" None) (committed st) in
       State d d f2 (S (next_uuid st))) /\
    f2 !! zip = Some (FFile body) /\
    (forall q : path, is_Some (files st !! q) -> f2 !! q = files st !! q) /\
    (forall q : path, q <> zip -> is_file f2 q = is_file (files st) q).
Proof.
  pose proof upload_zip_path as Hzp.
  destruct (mkdir_p_clear (E ++ ["source"]) (files st)) as (f1 & Hm1 & D1 & O1 & K1 & F1).
  { apply (upload_clear (files st) "source"). done. }
  assert (zip <> []) as Hznil by (rewrite Hzp; by destruct E).
  assert (f1 !! zip = None) as Hz1.
  { rewrite O1; [apply Hnew; rewrite Hzp; apply upload_below|].
    intros Hq. by apply (upload_not_zip zip "source"). }
  assert (write_file zip body f1 = Ok (<[zip := FFile body]> f1)) as Hw.
  { unfold write_file. rewrite (node_at_nonempty f1 zip Hznil), Hz1.
    assert (parent zip = E ++ ["source"]) as ->.
    { unfold parent. rewrite Hzp.
      change (E ++ ["source"; "export.zip"]) with (E ++ ["source"] ++ ["export.zip"]).
      by rewrite app_assoc, removelast_last. }
    rewrite node_at_nonempty by (by destruct E).
    by rewrite D1 by (by destruct E). }
  exists (<[zip := FFile body]> f1). split; [|split; [|split]].
  - rewrite (receive_upload_run _ _ _ _ Hzip). cbv zeta.
    change (path_join E "source") with (E ++ ["source"]). rewrite Hm1, Hw.
    unfold relative_to. rewrite bool_decide_eq_true_2 by apply upload_storage_above.
    reflexivity.
  - apply lookup_insert_eq.
  - intros q Hq. rewrite lookup_insert_ne; [by apply K1|].
    intros <-. rewrite Hnew in Hq; [by destruct Hq|]. rewrite Hzp. apply upload_below.
  - intros q Hq. rewrite <- F1. unfold is_file. destruct q as [|a q]; [done|]. simpl.
    by rewrite lookup_insert_ne.
Qed.

Lemma upload_begins (f2 : fs) (d : database) :
  (forall q : path, is_Some (files st !! q) -> f2 !! q = files st !! q) ->
  (forall q : path, q <> zip -> is_file f2 q = is_file (files st) q) ->
  exists f4,
    begin_processing export_id (State d d f2 (S (next_uuid st))) =
      (Ok (E ++ ["extracted"]),
       let d' := update_export_status "processing" export_id d in
       State d' d' f4 (S (next_uuid st))) /\
    (forall q : path, is_Some (f2 !! q) -> f4 !! q = f2 !! q).
Proof.
  intros Hkeep Hsame.
  destruct (mkdir_p_clear (E ++ ["extracted"]) f2) as (f3 & Hm3 & _ & _ & K3 & F3).
  { by apply (upload_clear f2 "extracted"). }
  destruct (mkdir_p_clear (E ++ ["assets"]) f3) as (f4 & Hm4 & _ & _ & K4 & _).
  { apply (upload_clear f3 "assets"). intros q Hq. by rewrite F3, Hsame. }
  exists f4. split.
  - rewrite begin_processing_run. cbv zeta. simpl.
    change (path_join (path_join (path_join STORAGE_DIR "exports") export_id) "extracted")
      with (E ++ ["extracted"]).
    change (path_join (path_join (path_join STORAGE_DIR "exports") export_id) "assets")
      with (E ++ ["assets"]).
    by rewrite Hm3, Hm4.
  - intros q Hq. rewrite K4; [by apply K3|]. by rewrite K3.
Qed.

Lemma upload_marked status error_message :
  mark_outcome export_id status error_message <$>
    exports (update_export_status "processing" export_id
               (insert_export (upload_row export_id name "uploaded" None) (committed st)))
  = exports (committed st) ++ [upload_row export_id name status error_message].
Proof.
  rewrite exports_update_status, mark_outcome_after_status. simpl.
  rewrite fmap_app. f_equal.
  - assert (forall l, Forall (fun r => ex_id r <> export_id) l ->
                      mark_outcome export_id status error_message <$> l = l) as Hsame.
    { intros l Hl. induction Hl as [|r l Hr _ IH]; [done|].
      cbn [fmap list_fmap].
      fold (fmap (M:=list) (mark_outcome export_id status error_message) l).
      rewrite IH. unfold mark_outcome. apply String.eqb_neq in Hr. by rewrite Hr. }
    by apply Hsame.
  - simpl. unfold mark_outcome, upload_row. simpl. by rewrite String.eqb_refl.
Qed.

(** X18: an upload under a name ending in [.zip], into a storage where
    the identifier drawn is new (no export carries it, nothing lies at
    or below the directory of that export, no file lies on the way to
    it) and the directory for temporary files is in place elsewhere, is
    taken in: the archive is stored as [source/export.zip] in the
    directory of the export and still holds the bytes sent when the
    request ends; one row is added to [exports] for it, with the name
    given and the place of the archive relative to the storage
    directory, and it carries the outcome of the ingestion: [ready]
    without an error message when the request ends with the redirect to
    the export, [failed] with the text of the exception when it ends
    with that exception.  No other row of [exports] changes. *)
Theorem upload_export_recorded :
  let run := upload_export name filename body st in
  files (snd run) !! zip = Some (FFile body) /\
  (fst run = Ok ("/exports/" +:+ export_id) /\
   exports (committed (snd run)) =
     exports (committed st) ++ [upload_row export_id name "ready" None] \/
   exists exc,
     fst run = Raise exc /\
     exports (committed (snd run)) =
       exports (committed st) ++ [upload_row export_id name "failed" (Some (str_exc exc))]).
Proof.
  cbv zeta.
  destruct upload_stored as (f2 & Hrecv & Hz2 & Hkeep & Hsame).
  set (d := insert_export (upload_row export_id name "uploaded" None) (committed st)) in *.
  destruct (upload_begins f2 d Hkeep Hsame) as (f4 & Hb & K4).
  set (st2 := State d d f2 (S (next_uuid st))) in *.
  set (st3 := State (update_export_status "processing" export_id d)
                    (update_export_status "processing" export_id d) f4
                    (S (next_uuid st))) in *.
  cbv zeta in Hrecv, Hb. fold st2 in Hrecv. fold st3 in Hb.
  unfold upload_export, bind. rewrite Hrecv. cbn [fst snd].
  assert (files (snd (parse_export export_id zip st2)) !! zip = Some (FFile body)) as Hfile.
  { pose proof upload_zip_path as Hzp.
    rewrite (parse_export_outside export_id zip st2 _ st3 Hb).
    - simpl. rewrite K4; [done|]. rewrite Hz2. by eexists.
    - intros q Hne Hpre. simpl. rewrite Hkeep; [by apply Htmp|].
      rewrite (Htmp q Hne Hpre). by eexists.
    - unfold workspace_of. apply upload_tmp_apart.
    - unfold workspace_of. rewrite Hzp. apply upload_tmp_apart.
    - rewrite Hzp. intros Hpre. apply prefix_app_inv in Hpre.
      destruct Hpre as [k Hk]. discriminate. }
  pose proof (parse_export_run export_id zip st2 _ st3 Hb) as Hrun. cbv zeta in Hrun.
  pose proof (ingest_exports export_id zip (E ++ ["extracted"]) (workspace_of st3)
                (in_workspace st3)) as Hexp.
  rewrite Hrun in Hfile |- *.
  destruct (ingest export_id zip (E ++ ["extracted"]) (workspace_of st3) (in_workspace st3))
    as [[[]|exc] st4]; cbn [fst snd] in *.
  - split; [done|]. left. split; [done|]. simpl. rewrite Hexp. simpl.
    apply upload_marked.
  - split; [done|]. right. exists exc. split; [done|]. simpl.
    change (mark_outcome export_id "failed" (Some (str_exc exc)) <$> exports (conn st4) =
            exports (committed st) ++
            [upload_row export_id name "failed" (Some (str_exc exc))]).
    rewrite Hexp. simpl. apply upload_marked.
Qed.

End Recorded.

Lemma demo_upload_way (q : path) :
  q `prefix_of` @export_dir_of demo_full_env (uuid_str (next_uuid demo_state)) ->
  is_file (files demo_state) q = false.
Proof.
  intros [k Hk]. vm_compute in Hk.
  destruct q as [|a [|b [|c [|d [|e q]]]]].
  - reflexivity.
  - injection Hk as <- _. reflexivity.
  - injection Hk as <- <- _. reflexivity.
  - injection Hk as <- <- <- _. reflexivity.
  - injection Hk as <- <- <- <- _. reflexivity.
  - injection Hk as <- <- <- <- <- Hk. destruct q; [reflexivity|discriminate].
Defined.

Lemma demo_upload_new (q : path) :
  @export_dir_of demo_full_env (uuid_str (next_uuid demo_state)) `prefix_of` q ->
  files demo_state !! q = None.
Proof.
  intros Hq.
  destruct (decide (q = @export_dir_of demo_full_env (uuid_str (next_uuid demo_state))))
    as [->|Hne]; [reflexivity|].
  apply (empty_below_check_sound (files demo_state)
           (@export_dir_of demo_full_env (uuid_str (next_uuid demo_state))));
    [reflexivity|done|done].
Defined.

Lemma upload_export_recorded_witness :
  let run := @upload_export demo_full_env "my chats" "Export.ZIP" [Byte.x50; Byte.x4b]
               demo_state in
  files (snd run) !! @zip_path_of demo_full_env (uuid_str (next_uuid demo_state)) =
    Some (FFile [Byte.x50; Byte.x4b]) /\
  (fst run = Ok ("/exports/" +:+ uuid_str (next_uuid demo_state)) /\
   exports (committed (snd run)) =
     exports (committed demo_state) ++
     [@upload_row demo_full_env (uuid_str (next_uuid demo_state)) "my chats" "ready" None] \/
   exists exc,
     fst run = Raise exc /\
     exports (committed (snd run)) =
       exports (committed demo_state) ++
       [@upload_row demo_full_env (uuid_str (next_uuid demo_state)) "my chats" "failed"
          (Some (str_exc exc))]).
Proof.
  apply (@upload_export_recorded demo_full_env "my chats" "Export.ZIP" [Byte.x50; Byte.x4b]
           demo_state).
  - reflexivity.
  - repeat constructor. discriminate.
  - exact demo_upload_way.
  - exact demo_upload_new.
  - exact demo_tmp_in_place.
  - intros [k Hk]. vm_compute in Hk. discriminate.
Defined.

Example upload_export_example :
  let run := @upload_export demo_full_env "my chats" "Export.ZIP" [Byte.x50; Byte.x4b]
               demo_state in
  fst run = Ok "/exports/uuid-0" /\
  exports (committed (snd run)) =
    [ExportRow "e1" "my export" "uploaded" "exports/e1/source/export.zip" None;
     ExportRow "uuid-0" "my chats" "ready" "exports/uuid-0/source/export.zip" None] /\
  files (snd run) !! ["srv"; "brain"; "storage"; "exports"; "uuid-0"; "source"; "export.zip"]
    = Some (FFile [Byte.x50; Byte.x4b]) /\
  fst (@upload_export demo_full_env "my chats" "notes.txt" [] demo_state)
    = Raise (HTTPException 400 "Please upload a .zip file").
Proof. cbv zeta. repeat split; vm_compute; reflexivity. Qed.

(** ** The uniqueness constraints of the schema *)

Section Constraints.
Context {env : Env}.

#[local] Instance keeps_constraints_preorder : PreOrder keeps_constraints.
Proof.
  split; [intros d H; exact H|]. intros d1 d2 d3 H1 H2 H. by apply H2, H1.
Qed.

Lemma constraints_same d d' :
  categories d' = categories d ->
  conversation_categories d' = conversation_categories d ->
  keeps_constraints d d'.
Proof.
  intros Hc He [H1 H2]. unfold constraints, unique_slugs, unique_edges. by rewrite Hc, He.
Qed.

Lemma constraints_insert_edge e d : keeps_constraints d (insert_or_ignore_edge e d).
Proof.
  intros [H1 H2]. split; [done|]. unfold unique_edges, insert_or_ignore_edge. simpl.
  destruct (existsb _ _) eqn:Hex; [done|].
  rewrite fmap_app. apply NoDup_app. split; [done|]. split; [|apply NoDup_singleton].
  intros k Hk Hk'. apply list_elem_of_singleton in Hk'. subst k.
  apply list_elem_of_fmap in Hk as (e' & Hkey & Hin).
  rewrite <- not_true_iff_false in Hex. apply Hex. apply existsb_exists.
  exists e'. split; [by apply list_elem_of_In|].
  unfold edge_key in Hkey. injection Hkey as Hk1 Hk2.
  unfold same_edge_key. by rewrite <- Hk1, <- Hk2, !String.eqb_refl.
Qed.

Lemma constraints_delete_edges conv_id d : keeps_constraints d (delete_edges conv_id d).
Proof.
  intros [H1 H2]. split; [done|]. unfold unique_edges, delete_edges in *. simpl.
  induction (conversation_categories d) as [|e l IH]; [done|].
  cbn [fmap list_fmap] in H2. apply NoDup_cons in H2 as [Hn H2]. cbn [List.filter].
  destruct (negb _); [|by apply IH]. cbn [fmap list_fmap].
  apply NoDup_cons. split; [|by apply IH].
  intros Hin. apply Hn. apply list_elem_of_fmap in Hin as (e' & Hk & Hin).
  apply list_elem_of_In, filter_In in Hin as [Hin _].
  apply list_elem_of_fmap. exists e'. split; [done|]. by apply list_elem_of_In.
Qed.

Lemma constraints_ensure_category export_id name is_system :
  keeps keeps_constraints (ensure_category export_id name is_system).
Proof.
  intros st. rewrite ensure_category_unfold.
  destruct (select_category export_id (slugify name) (conn st)) eqn:Hsel; [done|].
  simpl. intros [H1 H2]. split; [|done].
  unfold unique_slugs, insert_category. simpl. rewrite fmap_app.
  apply NoDup_app. split; [done|]. split; [|apply NoDup_singleton].
  intros k Hk Hk'. apply list_elem_of_singleton in Hk'. subst k.
  by apply (select_category_None _ _ _ Hsel).
Qed.

Ltac constraints_step :=
  match goal with
  | |- PreOrder _ => apply keeps_constraints_preorder
  | |- keeps _ (ensure_category _ _ _) => apply constraints_ensure_category
  | |- keeps _ (ret _) => apply keeps_ret
  | |- keeps _ (raise _) => apply keeps_raise
  | |- keeps _ (lift _) => apply keeps_lift
  | |- keeps _ (query _) => apply keeps_query
  | |- keeps _ (read_files _) => apply keeps_read_files
  | |- keeps _ uuid4 => apply keeps_uuid4
  | |- keeps _ (on_files _) => apply keeps_on_files
  | |- keeps _ commit => apply keeps_commit
  | |- keeps _ (execute (insert_or_ignore_edge _)) =>
      apply keeps_execute; intros ?; apply constraints_insert_edge
  | |- keeps _ (execute (delete_edges _)) =>
      apply keeps_execute; intros ?; apply constraints_delete_edges
  | |- keeps _ (execute _) => apply keeps_execute; intros ?; by apply constraints_same
  | |- keeps _ (bind _ _) => apply keeps_bind; [| |intros ?]
  | |- keeps _ (for_each _ _) => apply keeps_for_each; [|intros ?]
  | |- keeps _ (for_fold _ _ _) => apply keeps_for_fold; [|intros ? ?]
  | |- keeps _ (if ?b then _ else _) => destruct b
  | |- keeps _ (match ?x with _ => _ end) => destruct x
  end.

Lemma constraints_ingest_conversation export_id file_map conv :
  keeps keeps_constraints (ingest_conversation export_id file_map conv).
Proof.
  unfold ingest_conversation, ingest_message, link_assets, categorize, apply_rule.
  repeat constraints_step.
Qed.

Lemma constraints_register_assets export_id tmp_path conv_file extracted_dir :
  keeps keeps_constraints (register_assets export_id tmp_path conv_file extracted_dir).
Proof.
  unfold register_assets, register_file. repeat constraints_step.
Qed.

Lemma constraints_safe_extract zip_path extract_to :
  keeps keeps_constraints (safe_extract zip_path extract_to).
Proof.
  unfold safe_extract. repeat constraints_step.
  intros st. by destruct (extract_members _ _ _) as [[?|] ?].
Qed.

Lemma constraints_ingest export_id zip_path extracted_dir tmp_path :
  keeps keeps_constraints (ingest export_id zip_path extracted_dir tmp_path).
Proof.
  unfold ingest.
  repeat (constraints_step || apply constraints_safe_extract
          || apply constraints_register_assets || apply constraints_ingest_conversation).
Qed.

Lemma constraints_parse_export export_id zip_path st :
  constraints (committed st) ->
  constraints (committed (snd (parse_export export_id zip_path st))).
Proof.
  intros Hc.
  assert (forall status d, constraints d ->
            constraints (update_export_status status export_id d)) as Hstatus
    by (intros status d; by apply constraints_same).
  destruct (begin_processing export_id st) as [[ed|e] st1] eqn:Hb.
  - rewrite (parse_export_run _ _ _ _ _ Hb). cbv zeta.
    assert (constraints (conn st1)) as Hc1.
    { rewrite begin_processing_run in Hb. cbv zeta in Hb.
      destruct (mkdir_p _ (files st)) as [f1|e]; [|done].
      destruct (mkdir_p _ f1) as [f2|e]; [|done]. injection Hb as _ <-. simpl.
      by apply Hstatus. }
    pose proof (constraints_ingest export_id zip_path ed (workspace_of st1)
                  (in_workspace st1) Hc1) as Hbody.
    destruct (ingest _ _ _ _ _) as [[[]|exc] st2] eqn:Hrun; simpl in *.
    + apply ingest_ok_committed in Hrun. by rewrite Hrun.
    + revert Hbody. by apply constraints_same.
  - rewrite parse_export_unfold, Hb. simpl.
    rewrite begin_processing_run in Hb. cbv zeta in Hb.
    destruct (mkdir_p _ (files st)) as [f1|e']; [|injection Hb as _ <-; by apply Hstatus].
    destruct (mkdir_p _ f1) as [f2|e']; [done|]. injection Hb as _ <-. by apply Hstatus.
Qed.

Lemma rename_rows_unique name slug category_id (todo : list category_row) :
  forall seen rows,
    rename_rows name slug category_id seen todo = Some rows ->
    NoDup (slug_key <$> (seen ++ todo)) -> NoDup (slug_key <$> rows).
Proof.
  induction todo as [|c todo IH]; intros seen rows Hrun Hnd; cbn [rename_rows] in Hrun.
  - injection Hrun as <-. by rewrite app_nil_r in Hnd.
  - assert (seen ++ c :: todo = (seen ++ [c]) ++ todo) as Hassoc
      by (by rewrite <- app_assoc).
    destruct (String.eqb (cat_id c) category_id); [|apply (IH _ _ Hrun); by rewrite <- Hassoc].
    destruct (slug_taken (cat_export_id c) slug (seen ++ todo)) eqn:Htaken; [done|].
    apply (IH _ _ Hrun). rewrite <- app_assoc. cbn [app].
    rewrite fmap_app, fmap_cons in Hnd |- *.
    apply NoDup_app in Hnd as (N1 & N2 & N3). apply NoDup_cons in N3 as [_ N3].
    assert ((cat_export_id c, slug) ∉ slug_key <$> (seen ++ todo)) as Hfree.
    { intros Hin. apply list_elem_of_fmap in Hin as (c' & Hk & Hin).
      unfold slug_key in Hk. injection Hk as Hk1 Hk2.
      rewrite <- not_true_iff_false in Htaken. apply Htaken. apply existsb_exists.
      exists c'. split; [by apply list_elem_of_In|].
      by rewrite <- Hk1, <- Hk2, !String.eqb_refl. }
    rewrite fmap_app in Hfree. apply not_elem_of_app in Hfree as [F1 F2].
    apply NoDup_app. split; [done|]. split.
    + intros k Hk Hk'. apply elem_of_cons in Hk' as [->|Hk']; [done|].
      apply (N2 k Hk). apply elem_of_cons. by right.
    + apply NoDup_cons. by split.
Qed.

(** X19: none of the requests that write can leave the database in
    breach of the two uniqueness constraints that the code relies on
    without checking them in every place: after an import, an upload, a
    move or a rename, whatever its outcome, no two categories of an
    export share a slug and no conversation is filed twice under one
    category, provided this held before. *)
Theorem writes_keep_constraints st :
  constraints (committed st) ->
  (forall export_id zip_path,
     constraints (committed (snd (parse_export export_id zip_path st)))) /\
  (forall name filename body,
     constraints (committed (snd (upload_export name filename body st)))) /\
  (forall export_id conversation_id category_id new_category,
     constraints (committed (snd (move_conversation export_id conversation_id
                                    category_id new_category st)))) /\
  (forall export_id category_id name,
     constraints (committed (snd (rename_category export_id category_id name st)))).
Proof.
  intros Hc. split; [|split; [|split]].
  - intros export_id zip_path. by apply constraints_parse_export.
  - intros name filename body. unfold upload_export, bind.
    destruct (receive_upload name filename body st) as [[stored|e] st1] eqn:Hrecv.
    + assert (constraints (committed st1)) as Hc1.
      { revert Hrecv. unfold receive_upload.
        destruct (negb _); [done|].
        unfold bind, uuid4, on_files, get_conn, lift, execute, commit, close, ret. simpl.
        destruct (mkdir_p _ _) as [f1|e]; [|done]. simpl.
        destruct (write_file _ _ f1) as [f2|e]; [|done]. simpl.
        destruct (relative_to _ _) as [rel|e]; [|done]. simpl.
        intros [= _ <-]. simpl. revert Hc. by apply constraints_same. }
      pose proof (constraints_parse_export (fst stored) (snd stored) st1 Hc1) as Hp.
      by destruct (parse_export (fst stored) (snd stored) st1) as [[[]|e] st2].
    + simpl. revert Hrecv. unfold receive_upload.
      destruct (negb _); [by intros [= _ <-]|].
      unfold bind, uuid4, on_files, get_conn, lift, execute, commit, close, ret. simpl.
      destruct (mkdir_p _ _) as [f1|e']; [|by intros [= _ <-]]. simpl.
      destruct (write_file _ _ f1) as [f2|e']; [|by intros [= _ <-]]. simpl.
      destruct (relative_to _ _) as [rel|e']; [done|]. simpl. by intros [= _ <-].
  - intros export_id conversation_id category_id new_category.
    unfold move_conversation, bind, get_conn, query, commit, close, ret. simpl.
    destruct (select_conversation conversation_id export_id (committed st)); [|done].
    destruct (supplied new_category).
    + pose proof (constraints_ensure_category export_id (default "" new_category) 0
                    (State (committed st) (committed st) (files st) (next_uuid st)) Hc)
        as He.
      destruct (ensure_category _ _ _ _) as [[id|e] st1] eqn:Hens;
        [|by rewrite ensure_category_unfold in Hens; destruct (select_category _ _ _)].
      assert (committed st1 = committed st) as Hcm.
      { rewrite ensure_category_unfold in Hens. simpl in Hens.
        by destruct (select_category _ _ _); injection Hens as _ <-. }
      simpl in He |- *. destruct (negb (negb (str_empty id))); simpl; [by rewrite Hcm|].
      by apply constraints_insert_edge, constraints_delete_edges.
    + simpl. destruct (negb (supplied category_id)); simpl; [done|].
      by apply constraints_insert_edge, constraints_delete_edges.
  - intros export_id category_id name.
    unfold rename_category, bind, get_conn, query, execute_checked, commit, close, ret.
    simpl. destruct (select_category_row category_id export_id (committed st)); [|done].
    simpl. unfold update_category.
    destruct (rename_rows name (slugify name) category_id [] (categories (committed st)))
      as [rows|] eqn:Hrows; [|done].
    simpl. destruct Hc as [H1 H2]. split; [|done].
    unfold unique_slugs. simpl. by apply (rename_rows_unique _ _ _ _ _ _ Hrows).
Qed.

End Constraints.

Lemma demo_state_constraints : constraints (committed demo_state).
Proof. split; apply (bool_decide_unpack _); by vm_compute. Defined.

Lemma writes_keep_constraints_witness :
  (forall export_id zip_path,
     constraints (committed (snd (@parse_export demo_full_env export_id zip_path
                                    demo_state)))) /\
  (forall name filename body,
     constraints (committed (snd (@upload_export demo_full_env name filename body
                                    demo_state)))) /\
  (forall export_id conversation_id category_id new_category,
     constraints (committed (snd (move_conversation export_id conversation_id
                                    category_id new_category demo_state)))) /\
  (forall export_id category_id name,
     constraints (committed (snd (rename_category export_id category_id name demo_state)))).
Proof.
  exact (@writes_keep_constraints demo_full_env demo_state demo_state_constraints).
Defined.

(** ** A conversation and its messages *)

Section Rows.
Context {env : Env}.

#[local] Instance same_rows_preorder : PreOrder same_rows.
Proof.
  split; [by intros d|]. intros d1 d2 d3 [H1 H2] [H3 H4]. split; congruence.
Qed.





End Rows.


(** ** parse_export: an archive without a manifest *)

Section Manifest.
Context {env : Env}.

Lemma mkdir_p_keys (p q : path) (f f' : fs) :
  mkdir_p p f = Ok f' -> is_Some (f' !! q) ->
  is_Some (f !! q) \/ (q <> [] /\ q `prefix_of` p).
Proof.
  intros Hm Hq. destruct (mkdir_from_ok _ _ _ _ _ Hm) as (_ & A2 & _).
  destruct (decide (q <> [] /\ q `prefix_of` p)) as [Hw|Hw]; [by right|left].
  rewrite <- A2; [done|]. by rewrite on_way_root.
Qed.

Lemma extract_member_keys (dest q : path) (m : zip_member) (f : fs) :
  is_Some (snd (extract_member dest m f) !! q) ->
  is_Some (f !! q) \/
  (escapes (zm_filename m) = false /\ q <> [] /\
   q `prefix_of` dest ++ path_parts (zm_filename m)).
Proof.
  unfold extract_member.
  destruct (escapes (zm_filename m)) eqn:He; [by left|].
  rewrite (path_join_relative _ _ He).
  set (target := dest ++ path_parts (zm_filename m)).
  assert (forall f1, mkdir_p (parent target) f = Ok f1 -> is_Some (f1 !! q) ->
            is_Some (f !! q) \/ (false = false /\ q <> [] /\ q `prefix_of` target)) as H1.
  { intros f1 Hm1 Hq. destruct (mkdir_p_keys _ q _ _ Hm1 Hq) as [?|[Hne Hpre]]; [by left|].
    right. split; [done|]. split; [done|].
    etransitivity; [exact Hpre|apply removelast_prefix]. }
  destruct (mkdir_p (parent target) f) as [f1|e] eqn:Hm1; [|by left].
  specialize (H1 f1 eq_refl).
  destruct (ends_with_slash (zm_filename m)).
  - destruct (mkdir_p target f1) as [f2|e] eqn:Hm2; [|done]. simpl. intros Hq.
    destruct (mkdir_p_keys _ q _ _ Hm2 Hq) as [Hq1|[Hne Hpre]]; [by apply H1|by right].
  - destruct (zm_data m) as [b|e]; [|done].
    destruct (write_file target b f1) as [f2|e] eqn:Hw; [|done]. simpl.
    apply write_file_ok in Hw as [-> Hnd]. intros Hq.
    destruct (decide (q = target)) as [->|Hne].
    + right. split; [done|]. split; [|done]. intros Hnil. by rewrite Hnil in Hnd.
    + rewrite lookup_insert_ne in Hq by done. by apply H1.
Qed.

Lemma extract_members_keys (dest q : path) (ms : list zip_member) :
  forall f : fs,
    is_Some (snd (extract_members dest ms f) !! q) ->
    is_Some (f !! q) \/
    exists m, m ∈ ms /\ escapes (zm_filename m) = false /\ q <> [] /\
              q `prefix_of` dest ++ path_parts (zm_filename m).
Proof.
  induction ms as [|m ms IH]; intros f; cbn [extract_members]; [by left|].
  pose proof (extract_member_keys dest q m f) as Hm.
  destruct (extract_member dest m f) as [[e|] f1]; simpl in Hm |- *.
  - intros Hq. destruct (Hm Hq) as [?|?]; [by left|]. right. exists m.
    split; [apply elem_of_cons; by left|done].
  - intros Hq. destruct (IH f1 Hq) as [Hq1|(m' & Hin & Hrest)].
    + destruct (Hm Hq1) as [?|?]; [by left|]. right. exists m.
      split; [apply elem_of_cons; by left|done].
    + right. exists m'. split; [apply elem_of_cons; by right|done].
Qed.

Lemma last_app_ne (l r : path) (d : string) :
  r <> [] -> List.last (l ++ r) d = List.last r d.
Proof.
  intros Hr. induction l as [|a l IH]; [done|]. cbn [app List.last].
  destruct (l ++ r) as [|x y] eqn:E; [by apply app_eq_nil in E as [_ ?]|done].
Qed.

Lemma last_elem_of (r : path) (d : string) : r <> [] -> List.last r d ∈ r.
Proof.
  induction r as [|a [|b r] IH]; intros Hr; [done|apply elem_of_cons; by left|].
  apply elem_of_cons. right. by apply IH.
Qed.

Lemma basename_below (ws q parts : path) :
  ws `prefix_of` q -> q <> ws -> q `prefix_of` ws ++ parts -> basename q ∈ parts.
Proof.
  intros [r ->] Hne Hpre. apply prefix_app_inv in Hpre.
  assert (r <> []) as Hr by (intros ->; by rewrite app_nil_r in Hne).
  unfold basename. rewrite last_app_ne by done.
  destruct Hpre as [k ->]. apply elem_of_app. left. by apply last_elem_of.
Qed.

Lemma find_manifest_None (ws : path) (ms : list zip_member) (f : fs) :
  (forall q : path, ws `prefix_of` q -> q <> ws -> f !! q = None) ->
  no_manifest ms ->
  find_manifest ws (snd (extract_members ws ms f)) = None.
Proof.
  intros Hempty Hno. unfold find_manifest.
  destruct (List.find _ _) as [q|] eqn:Hfind; [|done]. exfalso.
  apply find_some in Hfind as [Hin Hname]. apply String.eqb_eq in Hname.
  apply list_elem_of_In in Hin. unfold rglob in Hin.
  apply list_elem_of_filter in Hin as [[Hpre Hne] Hin].
  apply list_elem_of_fmap in Hin as ([q' x] & -> & Hin). simpl in *.
  apply elem_of_map_to_list in Hin.
  destruct (extract_members_keys ws q' ms f ltac:(by eexists))
    as [Hold|(m & Hm & Hesc & _ & Hq)].
  - rewrite (Hempty q' Hpre Hne) in Hold. by destruct Hold.
  - unfold no_manifest in Hno. rewrite Forall_forall in Hno.
    apply (Hno m Hm Hesc). rewrite <- Hname. by apply (basename_below ws).
Qed.

Lemma safe_extract_run zip_path (ws : path) st b ms :
  read_bytes zip_path (files st) = Ok b ->
  zipfile_open b = Ok ms ->
  safe_extract zip_path ws st =
  (match fst (extract_members ws ms (files st)) with
   | Some e => Raise e
   | None => Ok tt
   end,
   State (committed st) (conn st) (snd (extract_members ws ms (files st))) (next_uuid st)).
Proof.
  intros Hr Ho. unfold safe_extract, read_files, lift, bind. rewrite Hr, Ho.
  by destruct (extract_members ws ms (files st)) as [[e|] f'].
Qed.

(** X21: an archive that holds no member named [conversations.json], at
    any depth, is turned down once it is unpacked into an unused
    workspace: [parse_export] ends with an exception, which is the
    [ValueError] about the missing manifest when the unpacking went
    through; the export is marked [failed] with the text of that
    exception and nothing else is written to the database: no asset is
    registered. *)
Theorem parse_export_without_manifest export_id zip_path st ed st1 b ms :
  begin_processing export_id st = (Ok ed, st1) ->
  (forall q : path, workspace_of st1 `prefix_of` q -> files st1 !! q = None) ->
  read_bytes zip_path (files (in_workspace st1)) = Ok b ->
  zipfile_open b = Ok ms ->
  no_manifest ms ->
  let run := parse_export export_id zip_path st in
  exists exc,
    fst run = Raise exc /\
    (fst (extract_members (workspace_of st1) ms (files (in_workspace st1))) = None ->
     exc = ValueError "Missing conversations.json in ZIP export") /\
    committed (snd run) =
      update_export_outcome "failed" (Some (str_exc exc)) export_id
        (update_export_status "processing" export_id (committed st)).
Proof.
  intros Hb Hunused Hread Hopen Hno. cbv zeta.
  rewrite (parse_export_run _ _ _ _ _ Hb). cbv zeta.
  assert (conn st1 = update_export_status "processing" export_id (committed st)) as Hst1.
  { rewrite begin_processing_run in Hb. cbv zeta in Hb.
    destruct (mkdir_p _ (files st)) as [f1|e]; [|done].
    destruct (mkdir_p _ f1) as [f2|e]; [|done]. by injection Hb as _ <-. }
  pose proof (find_manifest_None (workspace_of st1) ms (files (in_workspace st1))) as Hfind.
  assert (find_manifest (workspace_of st1)
            (snd (extract_members (workspace_of st1) ms (files (in_workspace st1)))) = None)
    as Hnone.
  { apply Hfind; [|done]. intros q Hq Hne. unfold in_workspace. simpl.
    rewrite lookup_insert_ne by done. by apply Hunused. }
  assert (exists exc s2,
            ingest export_id zip_path ed (workspace_of st1) (in_workspace st1)
              = (Raise exc, s2) /\ conn s2 = conn st1 /\
            (fst (extract_members (workspace_of st1) ms (files (in_workspace st1))) = None ->
             exc = ValueError "Missing conversations.json in ZIP export"))
    as (exc & s2 & Hing & Hconn & Hexc).
  { unfold ingest. unfold bind at 1.
    rewrite (safe_extract_run _ _ _ _ _ Hread Hopen).
    destruct (extract_members (workspace_of st1) ms (files (in_workspace st1)))
      as [[e|] f'] eqn:Hext; cbn [fst snd] in *.
    - by eexists _, _.
    - unfold bind, read_files. cbn [files]. rewrite Hnone. by eexists _, _. }
  rewrite Hing. cbn [fst snd]. exists exc. split; [done|]. split; [done|].
  simpl. by rewrite Hconn, Hst1.
Qed.

End Manifest.

Lemma parse_export_without_manifest_witness :
  let run := @parse_export demo_picture_env "e1" demo_zip_path demo_state in
  exists exc,
    fst run = Raise exc /\
    (fst (extract_members
            (@workspace_of demo_picture_env
               (snd (@begin_processing demo_picture_env "e1" demo_state)))
            [ZipMember "media/photo.png" (Ok [Byte.x89; Byte.x50]);
             ZipMember "../conversations.json" (Ok [])]
            (files (@in_workspace demo_picture_env
                      (snd (@begin_processing demo_picture_env "e1" demo_state)))))
       = None ->
     exc = ValueError "Missing conversations.json in ZIP export") /\
    committed (snd run) =
      update_export_outcome "failed" (Some (str_exc exc)) "e1"
        (update_export_status "processing" "e1" (committed demo_state)).
Proof.
  apply (@parse_export_without_manifest demo_picture_env "e1" demo_zip_path demo_state
           demo_extracted_dir (snd (@begin_processing demo_picture_env "e1" demo_state)) []).
  - vm_cast_no_check (eq_refl (@begin_processing demo_picture_env "e1" demo_state)).
  - intros q Hq.
    destruct (decide (q = @workspace_of demo_picture_env
                             (snd (@begin_processing demo_picture_env "e1" demo_state))))
      as [->|Hne]; [vm_compute; reflexivity|].
    apply (empty_below_check_sound
             (files (snd (@begin_processing demo_picture_env "e1" demo_state)))
             (@workspace_of demo_picture_env
                (snd (@begin_processing demo_picture_env "e1" demo_state))));
      [vm_compute; reflexivity|done|done].
  - vm_compute. reflexivity.
  - reflexivity.
  - repeat constructor.
    + intros _ Hin. vm_compute in Hin.
      apply elem_of_cons in Hin as [Hin|Hin]; [discriminate|].
      apply elem_of_cons in Hin as [Hin|Hin]; [discriminate|]. by apply elem_of_nil in Hin.
    + intros Hesc. vm_compute in Hesc. discriminate.
Defined.

Example parse_export_without_manifest_example :
  let run := @parse_export demo_picture_env "e1" demo_zip_path demo_state in
  fst run = Raise (ValueError "Missing conversations.json in ZIP export") /\
  exports (committed (snd run)) =
    [ExportRow "e1" "my export" "failed" "exports/e1/source/export.zip"
       (Some "Missing conversations.json in ZIP export")] /\
  assets (committed (snd run)) = [].
Proof. cbv zeta. repeat split; vm_compute; reflexivity. Qed.

(** ** Conversations that cannot be ingested *)

Section Malformed.
Context {env : Env}.

(** X22: a conversation of the manifest that is no dict ends the
    import at once, with the [AttributeError] of its missing [get] and
    nothing written for it; and one whose title is neither a string nor
    a value that counts as false (a number, a list, a non-empty dict)
    can never be ingested: whatever else it holds, its ingestion ends
    with an exception. *)
Theorem ingest_conversation_malformed export_id file_map conv st :
  (is_dict conv = false ->
   fst (ingest_conversation export_id file_map conv st) = Raise (no_attribute conv "get") /\
   conn (snd (ingest_conversation export_id file_map conv st)) = conn st) /\
  (forall title0,
     py_get conv "title" = Ok title0 -> truthy title0 = true -> is_str title0 = false ->
     exists exc, fst (ingest_conversation export_id file_map conv st) = Raise exc).
Proof.
  split.
  - intros Hd. unfold ingest_conversation, bind, uuid4, lift. simpl.
    by destruct conv.
  - intros title0 Htitle Htruthy Hstr.
    unfold ingest_conversation, bind, uuid4, lift, execute. rewrite Htitle.
    assert (py_or title0 (JStr "Untitled") = title0) as -> by (unfold py_or; by rewrite Htruthy).
    destruct (py_get conv "id") as [external_id|e]; [|by eexists].
    destruct (py_get conv "create_time") as [create_time|e]; [|by eexists].
    destruct (bind_param 3 external_id) as [external_v|e]; [|by eexists].
    destruct (bind_param 4 title0) as [title_v|e]; [|by eexists].
    destruct (py_get conv "mapping") as [mapping|e]; [|by eexists].
    destruct (py_values (py_or mapping (JObj []))) as [values|e]; [|by eexists].
    destruct (collect_messages values) as [nodes|e]; [|by eexists].
    destruct (sorted_nodes nodes) as [ordered|e]; [|by eexists].
    cbn [conn committed files next_uuid].
    destruct (for_fold ordered [] _ _) as [[texts|e] st2]; [|by eexists].
    unfold conversation_blob. destruct title0; try done; by eexists.
Qed.

End Malformed.

Example ingest_conversation_malformed_examples :
  fst (@ingest_conversation demo_full_env "e1" [] (JStr "broken") demo_state)
    = Raise (AttributeError "'str' object has no attribute 'get'") /\
  fst (@ingest_conversation demo_full_env "e1" []
         (JObj [("title", JInt 2024); ("mapping", JObj [])]) demo_state)
    = Raise (TypeError "sequence item 0: expected str instance, int found").
Proof. split; vm_compute; reflexivity. Qed.
